(** * Compliance engine of the vertical SaaS framework

    A shallow embedding of [server/services/compliance.ts] (with the status
    update procedure of [server/routers/compliance.ts] and the tenant lookup
    of the tenant service), and the properties of its deadline and reminder
    lifecycle.

    Conventions of the embedding.
    - A JavaScript [Date] is its time value: [Some t] with [t] the number of
      milliseconds since the epoch, or [None] for an invalid date (time
      value NaN).  The calendar arithmetic of the runtime ([setMonth],
      [setDate], [setFullYear], the [Date(year, month, day)] constructor)
      follows the abstract operations of ECMA-262, section 21.4.1.
    - The host time zone is a fixed offset [tz] (milliseconds east of UTC);
      daylight-saving transitions are not modelled.
    - [new Date()] reads the clock of the world; the clock does not advance
      inside one service call.
    - Numbers that the code only uses as integers are in [Z]; the two
      floating-point quotients of the service ([Math.round] of a percentage,
      [Math.ceil] of a day count) are computed exactly.  The exact day
      count is the double-precision one as long as the two times are less
      than 2^53 milliseconds apart, as they are for every date when the
      clock is within eleven thousand years of the epoch.  The exact
      percentage can be one more than the double-precision one (58 for 57
      at 23 of 40); the properties state only its range and where it is 0.
      The number of days that a caller gives to [getUpcomingDeadlines] is
      any number: it is an IEEE 754 binary64 value, added as such to the
      day of the month.
    - A [Date] given to a timestamp column reaches the driver as its
      [toISOString()], which throws on an invalid date; a statement that
      throws writes nothing.
    - A table is the list of its rows, in storage order. *)

From Stdlib Require Import ZArith List Bool Ascii String DecimalString Lia Permutation Sorted.
From Stdlib Require SpecFloat.
Import ListNotations.

Local Open Scope Z_scope.

(** ** The date arithmetic of the runtime (ECMA-262, 21.4.1) *)

Module JSDate.

Definition msPerDay : Z := 86400000.
Definition msPerHour : Z := 3600000.
Definition msPerMinute : Z := 60000.
Definition msPerSecond : Z := 1000.

Definition Day (t : Z) : Z := t / msPerDay.
Definition TimeWithinDay (t : Z) : Z := t mod msPerDay.

Definition DaysInYear (y : Z) : Z :=
  if negb (y mod 4 =? 0) then 365
  else if negb (y mod 100 =? 0) then 366
  else if negb (y mod 400 =? 0) then 365
  else 366.

Definition DayFromYear (y : Z) : Z :=
  365 * (y - 1970) + (y - 1969) / 4 - (y - 1901) / 100 + (y - 1601) / 400.

Definition TimeFromYear (y : Z) : Z := msPerDay * DayFromYear y.

(** The largest year whose first instant is not after [t]: an estimate from
    the mean length of a Gregorian year, corrected by at most one year. *)
Definition YearFromTime (t : Z) : Z :=
  let d := Day t in
  let y0 := 1970 + (400 * d) / 146097 in
  if d <? DayFromYear y0 then y0 - 1
  else if DayFromYear (y0 + 1) <=? d then y0 + 1
  else y0.

Definition InLeapYear (t : Z) : Z :=
  if DaysInYear (YearFromTime t) =? 365 then 0 else 1.

Definition DayWithinYear (t : Z) : Z := Day t - DayFromYear (YearFromTime t).

Definition MonthFromTime (t : Z) : Z :=
  let d := DayWithinYear t in
  let l := InLeapYear t in
  if d <? 31 then 0
  else if d <? 59 + l then 1
  else if d <? 90 + l then 2
  else if d <? 120 + l then 3
  else if d <? 151 + l then 4
  else if d <? 181 + l then 5
  else if d <? 212 + l then 6
  else if d <? 243 + l then 7
  else if d <? 273 + l then 8
  else if d <? 304 + l then 9
  else if d <? 334 + l then 10
  else 11.

Definition DateFromTime (t : Z) : Z :=
  let d := DayWithinYear t in
  let l := InLeapYear t in
  match MonthFromTime t with
  | 0 => d + 1
  | 1 => d - 30
  | 2 => d - 58 - l
  | 3 => d - 89 - l
  | 4 => d - 119 - l
  | 5 => d - 150 - l
  | 6 => d - 180 - l
  | 7 => d - 211 - l
  | 8 => d - 242 - l
  | 9 => d - 272 - l
  | 10 => d - 303 - l
  | _ => d - 333 - l
  end.

Definition MakeTime (hour min sec ms : Z) : Z :=
  hour * msPerHour + min * msPerMinute + sec * msPerSecond + ms.

(** Number of days of the year that precede month [mn] (0 to 11) in a year
    with leap flag [l]. *)
Definition DaysBeforeMonth (mn l : Z) : Z :=
  match mn with
  | 0 => 0
  | 1 => 31
  | 2 => 59 + l
  | 3 => 90 + l
  | 4 => 120 + l
  | 5 => 151 + l
  | 6 => 181 + l
  | 7 => 212 + l
  | 8 => 243 + l
  | 9 => 273 + l
  | 10 => 304 + l
  | _ => 334 + l
  end.

Definition LeapFlag (y : Z) : Z := if DaysInYear y =? 365 then 0 else 1.

(** [MakeDay]: the day number of the first of month [ym]/[mn], plus
    [date - 1]; months outside 0..11 carry into the year. *)
Definition MakeDay (year month date : Z) : Z :=
  let ym := year + month / 12 in
  let mn := month mod 12 in
  DayFromYear ym + DaysBeforeMonth mn (LeapFlag ym) + date - 1.

Definition MakeDate (day time : Z) : Z := day * msPerDay + time.

Definition maxTime : Z := 8640000000000000.

Definition TimeClip (time : Z) : option Z :=
  if Z.abs time >? maxTime then None else Some time.

End JSDate.


(** ** The runtime the service runs on *)

(** What the service takes from its host: the time zone (an offset of at
    most a day), the parser behind [new Date(string)], two date formatters,
    and the sequence of identifiers that [nanoid()] draws. *)
Class Runtime : Type := {
  tz : Z;
  tz_range : Z.abs tz <= JSDate.msPerDay;
  parseDate : string -> option Z;
  toLocaleDateString : Z -> string;
  toISOString : Z -> string;
  nanoid : nat -> string
}.

(** A [Date] object, by its time value; [None] is the invalid date. *)
Definition Date : Type := option Z.

(** A JavaScript number that is an integer or NaN ([None]). *)
Definition Num : Type := option Z.

Definition numAdd (a : Num) (k : Z) : Num := option_map (fun x => x + k) a.

(** A JavaScript number in general: a binary64 value, with the arithmetic
    of IEEE 754 (round to nearest, ties to even). *)
Module Number.

Definition t : Type := SpecFloat.spec_float.

Definition prec : Z := 53.
Definition emax : Z := 1024.

(** The number nearest to [m * 2 ^ e]; exact for a mantissa of at most 53
    bits. *)
Definition ofDyadic (m e : Z) : t := SpecFloat.binary_normalize prec emax m e false.

Definition ofZ (z : Z) : t := ofDyadic z 0.

Definition ofNum (n : Num) : t :=
  match n with Some z => ofZ z | None => SpecFloat.S754_nan end.

(** [x + y]. *)
Definition add (x y : t) : t := SpecFloat.SFadd prec emax x y.

(** The integer that [MakeDay] takes from a finite number: the number
    without its fraction (ToIntegerOrInfinity).  For NaN and the
    infinities, with which [MakeDay] gives NaN, there is none. *)
Definition integerPart (x : t) : Num :=
  match x with
  | SpecFloat.S754_zero _ => Some 0
  | SpecFloat.S754_finite s m e =>
      Some (SpecFloat.cond_Zopp s (Z.shiftl (Z.pos m) e))
  | SpecFloat.S754_infinity _ | SpecFloat.S754_nan => None
  end.

End Number.

Module DateObj.
Import JSDate.

Section WithRuntime.
Context {rt : Runtime}.

Definition LocalTime (t : Z) : Z := t + tz.
Definition UTC (t : Z) : Z := t - tz.

Definition getFullYear (d : Date) : Num :=
  option_map (fun t => YearFromTime (LocalTime t)) d.
Definition getMonth (d : Date) : Num :=
  option_map (fun t => MonthFromTime (LocalTime t)) d.
Definition getDate (d : Date) : Num :=
  option_map (fun t => DateFromTime (LocalTime t)) d.

(** [Date.prototype.setMonth(month)]. *)
Definition setMonth (d : Date) (month : Num) : Date :=
  match d, month with
  | Some t0, Some m =>
      let t := LocalTime t0 in
      TimeClip (UTC (MakeDate (MakeDay (YearFromTime t) m (DateFromTime t))
                              (TimeWithinDay t)))
  | _, _ => None
  end.

(** [Date.prototype.setDate(date)], given the integer that [MakeDay] takes
    from its argument, or NaN. *)
Definition setDate (d : Date) (date : Num) : Date :=
  match d, date with
  | Some t0, Some dt =>
      let t := LocalTime t0 in
      TimeClip (UTC (MakeDate (MakeDay (YearFromTime t) (MonthFromTime t) dt)
                              (TimeWithinDay t)))
  | _, _ => None
  end.

(** [Date.prototype.setFullYear(year)]: an invalid date is first reset to
    local time zero. *)
Definition setFullYear (d : Date) (year : Num) : Date :=
  match year with
  | Some y =>
      let t := match d with Some t0 => LocalTime t0 | None => 0 end in
      TimeClip (UTC (MakeDate (MakeDay y (MonthFromTime t) (DateFromTime t))
                              (TimeWithinDay t)))
  | None => None
  end.

(** Years 0 to 99 given to the constructor mean 1900 to 1999. *)
Definition MakeFullYear (y : Z) : Z :=
  if (0 <=? y) && (y <=? 99) then 1900 + y else y.

(** [new Date(year, month, date)], at local midnight. *)
Definition newDateYMD (year : Num) (month date : Z) : Date :=
  match year with
  | Some y => TimeClip (UTC (MakeDate (MakeDay (MakeFullYear y) month date)
                                      (MakeTime 0 0 0 0)))
  | None => None
  end.

(** [toLocaleDateString] and [toISOString] of a date object; the second
    throws on an invalid date. *)
Definition dateToLocaleDateString (d : Date) : string :=
  match d with Some t => toLocaleDateString t | None => "Invalid Date" end.

(** [new Date(string)]. *)
Definition newDateOfString (s : string) : Date := parseDate s.

(** Relational operators on dates compare time values; every comparison
    with an invalid date is false. *)
Definition dateLt (a b : Date) : bool :=
  match a, b with Some x, Some y => x <? y | _, _ => false end.
Definition dateLe (a b : Date) : bool :=
  match a, b with Some x, Some y => x <=? y | _, _ => false end.
Definition dateGt (a b : Date) : bool := dateLt b a.
Definition dateGe (a b : Date) : bool := dateLe b a.

End WithRuntime.
End DateObj.

(** ** The tables (drizzle/schema.ts) *)

Inductive Status := not_started | in_progress | completed | skipped.
Inductive ReminderType := email | notification | sms.
Inductive Frequency := once | quarterly | annually | monthly.
Inductive Role := owner | admin | member.

Definition Status_eqb (a b : Status) : bool :=
  match a, b with
  | not_started, not_started | in_progress, in_progress
  | completed, completed | skipped, skipped => true
  | _, _ => false
  end.

(** A JSON object with string values, as the metadata columns hold. *)
Definition Metadata : Type := list (string * string).

Record Attachment := mkAttachment {
  name : string;
  url : string;
  uploadedAt : string
}.

Module Checklist.
Record Item := mkItem {
  id : string;
  label : string;
  details : string;
  link : option string;
  note : option string;
  frequency : option Frequency;
  dueDate : option string
}.
Record Section := mkSection {
  sid : string;
  stitle : string;
  description : string;
  items : list Item
}.
(** The value given to [upsertComplianceChecklist]: a row without its
    key and timestamps; an absent [isActive] takes the column default. *)
Record data := mkData {
  title : string;
  version : string;
  region : option string;
  businessType : option string;
  sections : list Section;
  metadata : option Metadata;
  isActive : option bool
}.
Record row := mkRow {
  rid : string;
  rdata : data;
  createdAt : option Date;
  updatedAt : option Date
}.
End Checklist.

Module Compliance.
Record row := mkRow {
  id : string;
  tenantId : string;
  checklistId : string;
  itemId : string;
  status : Status;
  completedAt : option Date;
  completedBy : option string;
  notes : option string;
  attachments : option (list Attachment);
  nextDueDate : option Date;
  reminderSent : bool;
  createdAt : option Date;
  updatedAt : option Date
}.
End Compliance.

Module Reminder.
Record row := mkRow {
  id : string;
  tenantId : string;
  complianceId : string;
  reminderType : ReminderType;
  scheduledFor : Date;
  sent : bool;
  sentAt : option Date;
  message : string;
  metadata : Metadata;
  createdAt : option Date
}.
End Reminder.

(** Of the tenant tables, the columns that the membership lookup reads. *)
Module Tenant.
Record row := mkRow { id : string; name : string; ownerId : string }.
End Tenant.

Module UserTenant.
Record row := mkRow {
  id : string; userId : string; tenantId : string; role : Role
}.
End UserTenant.

Module TenantModule.
Record row := mkRow {
  id : string; tenantId : string; moduleType : string; enabled : bool
}.
End TenantModule.

Record Database := mkDatabase {
  complianceChecklists : list Checklist.row;
  tenantCompliance : list Compliance.row;
  complianceReminders : list Reminder.row;
  tenants : list Tenant.row;
  userTenants : list UserTenant.row;
  tenantModules : list TenantModule.row
}.

(** The world of a service call: the database handle that [getDb] yields
    ([None] when there is none), the clock, and how many identifiers have
    been drawn. *)
Record World := mkWorld {
  db : option Database;
  clock : Z;
  drawn : nat
}.

(** ** Service calls: state and exceptions *)

Inductive Error :=
| DatabaseNotAvailable   (* Error('Database not available') *)
| ChecklistNotFound      (* Error('Checklist not found') *)
| Unauthorized           (* Error('Unauthorized') *)
| InvalidTimeValue.      (* RangeError of toISOString on an invalid date *)

Inductive Result (A : Type) :=
| Ok (a : A)
| Throw (e : Error).
Arguments Ok {A} a.
Arguments Throw {A} e.

Definition M (A : Type) : Type := World -> Result A * World.

Definition ret {A} (a : A) : M A := fun w => (Ok a, w).
Definition throw {A} (e : Error) : M A := fun w => (Throw e, w).
Definition bind {A B} (c : M A) (k : A -> M B) : M B :=
  fun w => match c w with
           | (Ok a, w') => k a w'
           | (Throw e, w') => (Throw e, w')
           end.

Notation "x <- c ;; k" := (bind c (fun x => k))
  (at level 61, c at next level, right associativity).
Notation "c ;;; k" := (bind c (fun _ => k))
  (at level 61, right associativity).

(** [await getDb()] followed by [if (!db) throw ...]. *)
Definition getDb : M Database :=
  fun w => match db w with
           | Some d => (Ok d, w)
           | None => (Throw DatabaseNotAvailable, w)
           end.

(** A statement that writes: the tables after it replace the tables. *)
Definition execute (f : Database -> Database) : M unit :=
  fun w => (Ok tt, mkWorld (option_map f (db w)) (clock w) (drawn w)).

(** [new Date()]. *)
Definition newDate : M Date := fun w => (Ok (Some (clock w)), w).

Definition with_tenantCompliance (f : list Compliance.row -> list Compliance.row)
    (d : Database) : Database :=
  mkDatabase (complianceChecklists d) (f (tenantCompliance d))
             (complianceReminders d) (tenants d) (userTenants d) (tenantModules d).

Definition with_complianceChecklists (f : list Checklist.row -> list Checklist.row)
    (d : Database) : Database :=
  mkDatabase (f (complianceChecklists d)) (tenantCompliance d)
             (complianceReminders d) (tenants d) (userTenants d) (tenantModules d).

Definition with_complianceReminders (f : list Reminder.row -> list Reminder.row)
    (d : Database) : Database :=
  mkDatabase (complianceChecklists d) (tenantCompliance d)
             (f (complianceReminders d)) (tenants d) (userTenants d) (tenantModules d).

(** Truthiness of a string, and of an optional string. *)
Definition truthy (s : string) : bool := negb (s =? "")%string.
Definition truthyOpt (o : option string) : bool :=
  match o with Some s => truthy s | None => false end.

(** [Math.round (c / t * 100)] and [Math.ceil (a / b)] for [b > 0]. *)
Definition roundPercent (c t : Z) : Z := (2 * (c * 100) + t) / (2 * t).
Definition ceilDiv (a b : Z) : Z := - ((- a) / b).

(** [Array.prototype.sort] with a comparator: a stable sort; a comparator
    result that is NaN counts as zero. *)
Section Sort.
Context {A : Type} (cmp : A -> A -> Num).

Definition positive (n : Num) : bool :=
  match n with Some z => 0 <? z | None => false end.

Fixpoint insert (x : A) (l : list A) : list A :=
  match l with
  | [] => [x]
  | y :: l' => if positive (cmp x y) then y :: insert x l' else x :: l
  end.

Fixpoint sort (l : list A) : list A :=
  match l with
  | [] => []
  | x :: l' => insert x (sort l')
  end.
End Sort.

Record ComplianceStats := mkStats {
  total : Z;
  completedCount : Z;
  inProgress : Z;
  notStarted : Z;
  overdue : Z;
  completionRate : Z
}.

Record Deadline := mkDeadline {
  compliance : Compliance.row;
  daysUntilDue : Num
}.

(** The object given to [.set()]: an absent key ([None]) leaves its column
    as it is. *)
Record UpdateData := mkUpdateData {
  set_status : Status;
  set_updatedAt : Date;
  set_completedAt : option Date;
  set_completedBy : option string;
  set_notes : option string;
  set_attachments : option (list Attachment)
}.

Definition orKeep {A} (new : option A) (old : option A) : option A :=
  match new with Some v => Some v | None => old end.

Definition applySet (u : UpdateData) (r : Compliance.row) : Compliance.row :=
  Compliance.mkRow
    (Compliance.id r) (Compliance.tenantId r) (Compliance.checklistId r)
    (Compliance.itemId r)
    (set_status u)
    (orKeep (set_completedAt u) (Compliance.completedAt r))
    (orKeep (set_completedBy u) (Compliance.completedBy r))
    (orKeep (set_notes u) (Compliance.notes r))
    (orKeep (set_attachments u) (Compliance.attachments r))
    (Compliance.nextDueDate r) (Compliance.reminderSent r)
    (Compliance.createdAt r)
    (Some (set_updatedAt u)).

(** What the driver is given for a timestamp column: null as it is, a date
    as its [toISOString()], which an invalid date does not have. *)
Definition validTimestamp (c : option Date) : bool :=
  match c with
  | Some None => false
  | _ => true
  end.

(** A tracking record whose timestamps can all be given to the driver. *)
Definition storable (r : Compliance.row) : bool :=
  validTimestamp (Compliance.completedAt r)
  && validTimestamp (Compliance.nextDueDate r)
  && validTimestamp (Compliance.createdAt r)
  && validTimestamp (Compliance.updatedAt r).

(** [UPDATE ... SET ... WHERE p]. *)
Definition updateWhere {R} (p : R -> bool) (f : R -> R) (rows : list R) : list R :=
  map (fun r => if p r then f r else r) rows.

Definition markSentRow (now : Date) (r : Reminder.row) : Reminder.row :=
  Reminder.mkRow (Reminder.id r) (Reminder.tenantId r) (Reminder.complianceId r)
    (Reminder.reminderType r) (Reminder.scheduledFor r)
    true (Some now)
    (Reminder.message r) (Reminder.metadata r) (Reminder.createdAt r).

(** ** The compliance service (server/services/compliance.ts) *)

Module Service.
Import DateObj.

Section WithRuntime.
Context {rt : Runtime}.

(** [nanoid()]. *)
Definition newId : M string :=
  fun w => (Ok (nanoid (drawn w)), mkWorld (db w) (clock w) (S (drawn w))).

Definition upsertComplianceChecklist (data : Checklist.data) : M string :=
  _ <- getDb ;;
  checklistId <- newId ;;
  created <- newDate ;;
  updated <- newDate ;;
  execute (with_complianceChecklists (fun rows =>
    rows ++ [Checklist.mkRow checklistId data (Some created) (Some updated)])) ;;;
  ret checklistId.

Definition getActiveChecklists (region businessType : option string)
  : M (list Checklist.row) :=
  d <- getDb ;;
  let isActive c :=
    match Checklist.isActive (Checklist.rdata c) with
    | Some b => b
    | None => true
    end in
  let eqOpt (col : option string) (v : string) :=
    match col with Some s => (s =? v)%string | None => false end in
  let byRegion c :=
    match region with
    | Some r => if truthy r then eqOpt (Checklist.region (Checklist.rdata c)) r
                else true
    | None => true
    end in
  let byBusinessType c :=
    match businessType with
    | Some b => if truthy b
                then eqOpt (Checklist.businessType (Checklist.rdata c)) b
                else true
    | None => true
    end in
  ret (filter (fun c => isActive c && byRegion c && byBusinessType c)
              (complianceChecklists d)).

(** The record that the loop of [initializeTenantCompliance] builds for one
    item. *)
Definition newRecord (tenantId checklistId : string) (item : Checklist.Item)
  : M Compliance.row :=
  rid <- newId ;;
  created <- newDate ;;
  updated <- newDate ;;
  ret (Compliance.mkRow rid tenantId checklistId (Checklist.id item)
         not_started None None None None
         (if truthyOpt (Checklist.dueDate item)
          then match Checklist.dueDate item with
               | Some s => Some (newDateOfString s)
               | None => None
               end
          else None)
         false (Some created) (Some updated)).

Fixpoint forItems (tenantId checklistId : string) (items : list Checklist.Item)
  : M (list Compliance.row) :=
  match items with
  | [] => ret []
  | item :: rest =>
      record <- newRecord tenantId checklistId item ;;
      records <- forItems tenantId checklistId rest ;;
      ret (record :: records)
  end.

Fixpoint forSections (tenantId checklistId : string)
    (sections : list Checklist.Section) : M (list Compliance.row) :=
  match sections with
  | [] => ret []
  | section :: rest =>
      here <- forItems tenantId checklistId (Checklist.items section) ;;
      there <- forSections tenantId checklistId rest ;;
      ret (here ++ there)
  end.

(** [db.insert(tenantCompliance).values(records)]: one statement for all
    the records; it throws, and inserts none, when a timestamp of one of
    them is an invalid date. *)
Definition insertTenantCompliance (records : list Compliance.row) : M unit :=
  if forallb storable records
  then execute (with_tenantCompliance (fun rows => rows ++ records))
  else throw InvalidTimeValue.

Definition initializeTenantCompliance (tenantId checklistId : string) : M unit :=
  d <- getDb ;;
  let checklist :=
    firstn 1 (filter (fun c => (Checklist.rid c =? checklistId)%string)
                     (complianceChecklists d)) in
  match checklist with
  | [] => throw ChecklistNotFound
  | c :: _ =>
      let sections := Checklist.sections (Checklist.rdata c) in
      complianceRecords <- forSections tenantId checklistId sections ;;
      if (0 <? List.length complianceRecords)%nat
      then insertTenantCompliance complianceRecords
      else ret tt
  end.

Definition getTenantComplianceStatus (tenantId : string)
    (checklistId : option string) : M (list Compliance.row) :=
  d <- getDb ;;
  let byTenant i := (Compliance.tenantId i =? tenantId)%string in
  let byChecklist i :=
    match checklistId with
    | Some c => if truthy c then (Compliance.checklistId i =? c)%string else true
    | None => true
    end in
  ret (filter (fun i => byTenant i && byChecklist i) (tenantCompliance d)).

Definition updateComplianceStatus (complianceId : string) (status : Status)
    (userId : string) (notes : option string)
    (attachments : option (list Attachment)) : M unit :=
  _ <- getDb ;;
  updatedAt <- newDate ;;
  let updateData := mkUpdateData status updatedAt None None None None in
  updateData <-
    (if Status_eqb status completed
     then completedAt <- newDate ;;
          ret (mkUpdateData (set_status updateData) (set_updatedAt updateData)
                 (Some completedAt) (Some userId)
                 (set_notes updateData) (set_attachments updateData))
     else ret updateData) ;;
  let updateData :=
    match notes with
    | Some n => mkUpdateData (set_status updateData) (set_updatedAt updateData)
                  (set_completedAt updateData) (set_completedBy updateData)
                  (Some n) (set_attachments updateData)
    | None => updateData
    end in
  let updateData :=
    match attachments with
    | Some a => mkUpdateData (set_status updateData) (set_updatedAt updateData)
                  (set_completedAt updateData) (set_completedBy updateData)
                  (set_notes updateData) (Some a)
    | None => updateData
    end in
  execute (with_tenantCompliance
    (updateWhere (fun r => (Compliance.id r =? complianceId)%string)
                 (applySet updateData))).

Definition isOverdue (now : Date) (i : Compliance.row) : bool :=
  match Compliance.nextDueDate i with
  | Some due =>
      dateLt due now
      && negb (Status_eqb (Compliance.status i) completed)
      && negb (Status_eqb (Compliance.status i) skipped)
  | None => false
  end.

Definition count {A} (p : A -> bool) (l : list A) : Z :=
  Z.of_nat (List.length (filter p l)).

Definition getComplianceStats (tenantId : string) (checklistId : option string)
  : M ComplianceStats :=
  items <- getTenantComplianceStatus tenantId checklistId ;;
  now <- newDate ;;
  let stats := mkStats
    (Z.of_nat (List.length items))
    (count (fun i => Status_eqb (Compliance.status i) completed) items)
    (count (fun i => Status_eqb (Compliance.status i) in_progress) items)
    (count (fun i => Status_eqb (Compliance.status i) not_started) items)
    (count (isOverdue now) items)
    0 in
  if 0 <? total stats
  then ret (mkStats (total stats) (completedCount stats) (inProgress stats)
              (notStarted stats) (overdue stats)
              (roundPercent (completedCount stats) (total stats)))
  else ret stats.

Definition scheduleReminder (tenantId complianceId : string)
    (reminderType : ReminderType) (scheduledFor : Date) (message : string)
    (metadata : option Metadata) : M string :=
  _ <- getDb ;;
  reminderId <- newId ;;
  created <- newDate ;;
  (if validTimestamp (Some scheduledFor)
   then execute (with_complianceReminders (fun rows =>
          rows ++ [Reminder.mkRow reminderId tenantId complianceId reminderType
                     scheduledFor false None message
                     (match metadata with Some m => m | None => [] end)
                     (Some created)]))
   else throw InvalidTimeValue) ;;;
  ret reminderId.

Definition getPendingReminders : M (list Reminder.row) :=
  d <- getDb ;;
  now <- newDate ;;
  ret (filter (fun r => negb (Reminder.sent r)
                        && dateLt (Reminder.scheduledFor r) now)
              (complianceReminders d)).

Definition markReminderSent (reminderId : string) : M unit :=
  _ <- getDb ;;
  sentAt <- newDate ;;
  execute (with_complianceReminders
    (updateWhere (fun r => (Reminder.id r =? reminderId)%string)
                 (markSentRow sentAt))).

Definition inWindow (now futureDate : Date) (item : Compliance.row) : bool :=
  match Compliance.nextDueDate item with
  | Some due =>
      dateGe due now
      && dateLe due futureDate
      && negb (Status_eqb (Compliance.status item) completed)
      && negb (Status_eqb (Compliance.status item) skipped)
  | None => false
  end.

Definition numSub (a b : Num) : Num :=
  match a, b with Some x, Some y => Some (x - y) | _, _ => None end.

Definition toDeadline (now : Date) (item : Compliance.row) : Deadline :=
  let dueDate : Date :=
    match Compliance.nextDueDate item with
    | Some d => d
    | None => Some 0
    end in
  let daysUntilDue :=
    option_map (fun ms => ceilDiv ms JSDate.msPerDay) (numSub dueDate now) in
  mkDeadline item daysUntilDue.

Definition byDaysUntilDue (a b : Deadline) : Num :=
  numSub (daysUntilDue a) (daysUntilDue b).

Definition getUpcomingDeadlines (tenantId : string) (daysAhead : option Number.t)
  : M (list Deadline) :=
  let daysAhead := match daysAhead with Some n => n | None => Number.ofZ 30 end in
  items <- getTenantComplianceStatus tenantId None ;;
  now <- newDate ;;
  futureDate <- newDate ;;
  let futureDate :=
    setDate futureDate
      (Number.integerPart (Number.add (Number.ofNum (getDate futureDate)) daysAhead)) in
  let upcoming :=
    sort byDaysUntilDue
      (map (toDeadline now) (filter (inWindow now futureDate) items)) in
  ret upcoming.

Record Quarter := mkQuarter { qdate : Date; qname : string }.

Definition quarterMessage (quarter : Quarter) : string :=
  ("Reminder: " ++ qname quarter ++ " estimated taxes are due on "
   ++ dateToLocaleDateString (qdate quarter))%string.

Fixpoint forQuarters (tenantId complianceId : string) (now : Date)
    (quarters : list Quarter) : M unit :=
  match quarters with
  | [] => ret tt
  | quarter :: rest =>
      (if dateGt (qdate quarter) now
       then
         let reminderDate :=
           setDate (qdate quarter) (numAdd (getDate (qdate quarter)) (-7)) in
         match qdate quarter with
         | Some t =>
             scheduleReminder tenantId complianceId email reminderDate
               (quarterMessage quarter)
               (Some [("quarter", qname quarter); ("dueDate", toISOString t)]%string) ;;;
             ret tt
         | None => throw InvalidTimeValue
         end
       else ret tt) ;;;
      forQuarters tenantId complianceId now rest
  end.

Definition quartersOf (currentYear : Num) : list Quarter :=
  [ mkQuarter (newDateYMD currentYear 3 15) "Q1";
    mkQuarter (newDateYMD currentYear 5 15) "Q2";
    mkQuarter (newDateYMD currentYear 8 15) "Q3";
    mkQuarter (newDateYMD (numAdd currentYear 1) 0 15) "Q4" ].

Definition scheduleQuarterlyTaxReminders (tenantId complianceId : string)
  : M unit :=
  today <- newDate ;;
  let currentYear := getFullYear today in
  let quarters := quartersOf currentYear in
  now <- newDate ;;
  forQuarters tenantId complianceId now quarters.

Definition calculateNextDueDate (frequency : Frequency)
    (lastDueDate : option Date) : M (option Date) :=
  match frequency with
  | once => ret None
  | _ =>
      baseDate <- match lastDueDate with
                  | Some d => ret d
                  | None => newDate
                  end ;;
      let nextDate : Date := baseDate in
      let nextDate :=
        match frequency with
        | monthly => setMonth nextDate (numAdd (getMonth nextDate) 1)
        | quarterly => setMonth nextDate (numAdd (getMonth nextDate) 3)
        | annually => setFullYear nextDate (numAdd (getFullYear nextDate) 1)
        | once => nextDate
        end in
      ret (Some nextDate)
  end.

End WithRuntime.
End Service.

(** ** The tenant lookup and the status procedure of the router *)

Module Router.
Section WithRuntime.
Context {rt : Runtime}.

Record TenantWithModules := mkTenantWithModules {
  tenant : Tenant.row;
  modules : list TenantModule.row;
  userRole : Role
}.

Definition getTenantForUser (userId tenantId : string)
  : M (option TenantWithModules) :=
  d <- getDb ;;
  let tenantResult :=
    firstn 1 (filter (fun t => (Tenant.id t =? tenantId)%string) (tenants d)) in
  match tenantResult with
  | [] => ret None
  | t :: _ =>
      let userTenantResult :=
        firstn 1 (filter (fun u => (UserTenant.userId u =? userId)%string
                                   && (UserTenant.tenantId u =? tenantId)%string)
                         (userTenants d)) in
      match userTenantResult with
      | [] => ret None
      | u :: _ =>
          let modulesResult :=
            filter (fun m => (TenantModule.tenantId m =? tenantId)%string
                             && TenantModule.enabled m)
                   (tenantModules d) in
          ret (Some (mkTenantWithModules t modulesResult (UserTenant.role u)))
      end
  end.

(** The input object of the [updateStatus] procedure, after validation. *)
Record UpdateStatusInput := mkUpdateStatusInput {
  in_tenantId : string;
  in_complianceId : string;
  in_status : Status;
  in_notes : option string;
  in_attachments : option (list Attachment)
}.

(** [complianceRouter.updateStatus], for the signed-in user [userId]. *)
Definition updateStatus (userId : string) (input : UpdateStatusInput) : M bool :=
  tenant <- getTenantForUser userId (in_tenantId input) ;;
  match tenant with
  | None => throw Unauthorized
  | Some _ =>
      Service.updateComplianceStatus (in_complianceId input) (in_status input)
        userId (in_notes input) (in_attachments input) ;;;
      ret true
  end.

End WithRuntime.
End Router.

(** ** An example runtime: UTC, ISO dates, US date format *)

Module ExampleRuntime.
Import JSDate.

Definition digits (z : Z) : string :=
  NilEmpty.string_of_uint (N.to_uint (Z.to_N z)).

Definition decimal (z : Z) : string :=
  if z =? 0 then "0"%string else digits z.

Definition pad (width : nat) (z : Z) : string :=
  let s := decimal z in
  (String.concat "" (repeat "0" (width - String.length s)) ++ s)%string.

Definition digitOf (c : Ascii.ascii) : option Z :=
  let n := Z.of_nat (Ascii.nat_of_ascii c) - 48 in
  if (0 <=? n) && (n <=? 9) then Some n else None.

Fixpoint numberOf (acc : Z) (s : string) : option Z :=
  match s with
  | EmptyString => Some acc
  | String c s' =>
      match digitOf c with
      | Some n => numberOf (10 * acc + n) s'
      | None => None
      end
  end.

(** Dates written [YYYY-MM-DD] (midnight UTC); anything else is invalid. *)
Definition parseIsoDate (s : string) : option Z :=
  if (String.length s =? 10)%nat
     && (substring 4 1 s =? "-")%string && (substring 7 1 s =? "-")%string
  then
    match numberOf 0 (substring 0 4 s), numberOf 0 (substring 5 2 s),
          numberOf 0 (substring 8 2 s) with
    | Some y, Some m, Some d =>
        if (1 <=? m) && (m <=? 12) && (1 <=? d) && (d <=? 31)
        then TimeClip (MakeDate (MakeDay y (m - 1) d) 0)
        else None
    | _, _, _ => None
    end
  else None.

Definition usDate (t : Z) : string :=
  (decimal (MonthFromTime t + 1) ++ "/" ++ decimal (DateFromTime t) ++ "/"
   ++ decimal (YearFromTime t))%string.

Definition isoString (t : Z) : string :=
  let tm := TimeWithinDay t in
  (pad 4 (YearFromTime t) ++ "-" ++ pad 2 (MonthFromTime t + 1) ++ "-"
   ++ pad 2 (DateFromTime t) ++ "T" ++ pad 2 (tm / msPerHour) ++ ":"
   ++ pad 2 (tm mod msPerHour / msPerMinute) ++ ":"
   ++ pad 2 (tm mod msPerMinute / msPerSecond) ++ "."
   ++ pad 3 (tm mod msPerSecond) ++ "Z")%string.

Definition utc_range : Z.abs 0 <= msPerDay.
Proof. discriminate. Defined.

Definition utc : Runtime := {|
  tz := 0;
  tz_range := utc_range;
  parseDate := parseIsoDate;
  toLocaleDateString := usDate;
  toISOString := isoString;
  nanoid := fun k => ("id" ++ decimal (Z.of_nat k))%string
|}.

(** Midnight UTC of a calendar day (month from 1). *)
Definition utcMidnight (y m d : Z) : Z := MakeDate (MakeDay y (m - 1) d) 0.

End ExampleRuntime.

(** ** The other procedures of the compliance router *)

Module ComplianceRouter.
Section WithRuntime.
Context {rt : Runtime}.

(** The two lines that open every guarded procedure: the membership
    lookup, and 'Unauthorized' when it finds nothing. *)
Definition verifyTenantAccess (userId tenantId : string)
  : M Router.TenantWithModules :=
  tenant <- Router.getTenantForUser userId tenantId ;;
  match tenant with
  | None => throw Unauthorized
  | Some t => ret t
  end.

Definition getChecklists (region businessType : option string)
  : M (list Checklist.row) :=
  Service.getActiveChecklists region businessType.

Definition getChecklist (checklistId : string) : M (option Checklist.row) :=
  d <- getDb ;;
  let result :=
    firstn 1 (filter (fun c => (Checklist.rid c =? checklistId)%string)
                     (complianceChecklists d)) in
  ret (match result with c :: _ => Some c | [] => None end).

Definition initialize (userId tenantId checklistId : string) : M bool :=
  _ <- verifyTenantAccess userId tenantId ;;
  Service.initializeTenantCompliance tenantId checklistId ;;;
  ret true.

Definition getStatus (userId tenantId : string) (checklistId : option string)
  : M (list Compliance.row) :=
  _ <- verifyTenantAccess userId tenantId ;;
  Service.getTenantComplianceStatus tenantId checklistId.

Definition getStats (userId tenantId : string) (checklistId : option string)
  : M ComplianceStats :=
  _ <- verifyTenantAccess userId tenantId ;;
  Service.getComplianceStats tenantId checklistId.

(** [daysAhead] is the validated input: a number from 1 to 365, whole or
    not, 30 when the caller gives none. *)
Definition getUpcomingDeadlines (userId tenantId : string) (daysAhead : Number.t)
  : M (list Deadline) :=
  _ <- verifyTenantAccess userId tenantId ;;
  Service.getUpcomingDeadlines tenantId (Some daysAhead).

(** [scheduledFor] is the validated input: a valid date. *)
Definition scheduleReminder (userId tenantId complianceId : string)
    (reminderType : ReminderType) (scheduledFor : Z) (message : string)
    (metadata : option Metadata) : M string :=
  _ <- verifyTenantAccess userId tenantId ;;
  Service.scheduleReminder tenantId complianceId reminderType
    (Some scheduledFor) message metadata.

Definition scheduleQuarterlyTaxReminders (userId tenantId complianceId : string)
  : M bool :=
  _ <- verifyTenantAccess userId tenantId ;;
  Service.scheduleQuarterlyTaxReminders tenantId complianceId ;;;
  ret true.

Record Dashboard := mkDashboard {
  dash_status : list Compliance.row;
  dash_stats : ComplianceStats;
  upcomingDeadlines : list Deadline
}.

(** The three reads of [Promise.all], one after the other. *)
Definition getDashboard (userId tenantId : string) : M Dashboard :=
  _ <- verifyTenantAccess userId tenantId ;;
  status <- Service.getTenantComplianceStatus tenantId None ;;
  stats <- Service.getComplianceStats tenantId None ;;
  deadlines <- Service.getUpcomingDeadlines tenantId (Some (Number.ofZ 30)) ;;
  ret (mkDashboard status stats deadlines).

End WithRuntime.
End ComplianceRouter.

(** ** The tenant service: lookups, module entitlement, slugs *)

Module TenantService.

Inductive Tier := free | starter | professional | enterprise.

(** The business types of a tenant, the values that reach
    [getDefaultModules]. *)
Inductive BusinessType :=
| photographer | musician | artist | content_creator | real_estate_agent
| designer | writer | consultant | other.

Definition includes (l : list string) (x : string) : bool :=
  existsb (fun y => (y =? x)%string) l.

Definition canAccessModule (tier : Tier) (moduleType : string) : bool :=
  let tierModules :=
    match tier with
    | free => ["crm"; "scheduling"; "invoicing"; "website_builder"]
    | starter => ["crm"; "scheduling"; "invoicing"; "website_builder";
                  "ai_assistant"; "marketing"]
    | professional => ["crm"; "scheduling"; "invoicing"; "website_builder";
                       "ai_assistant"; "marketing"; "analytics";
                       "project_management"; "email_campaigns"]
    | enterprise => ["crm"; "scheduling"; "invoicing"; "website_builder";
                     "ai_assistant"; "marketing"; "analytics";
                     "project_management"; "email_campaigns"; "file_storage"]
    end%string in
  includes tierModules moduleType.

(** [Set.prototype.add]: a new element goes last, a known one changes
    nothing. *)
Definition setAdd (s : list string) (x : string) : list string :=
  if includes s x then s else s ++ [x].

(** [new Set(array)]. *)
Definition setOf (l : list string) : list string := fold_left setAdd l [].

Definition getDefaultModules (businessType : BusinessType) (tier : Tier)
  : list string :=
  let freeModules := ["crm"; "scheduling"; "invoicing"]%string in
  let tierModules :=
    match tier with
    | free => freeModules
    | starter => List.app freeModules ["ai_assistant"; "marketing"]
    | professional =>
        List.app freeModules
          ["ai_assistant"; "marketing"; "analytics"; "email_campaigns"]
    | enterprise =>
        List.app freeModules
          ["ai_assistant"; "marketing"; "analytics"; "email_campaigns";
           "project_management"; "file_storage"]
    end%string in
  let businessSpecific : option (list string) :=
    match businessType with
    | photographer => Some ["file_storage"; "website_builder"]
    | musician => Some ["website_builder"; "marketing"]
    | artist => Some ["website_builder"; "file_storage"]
    | content_creator => Some ["analytics"; "marketing"]
    | real_estate_agent => Some ["crm"; "analytics"]
    | _ => None
    end%string in
  let modules := setOf tierModules in
  match businessSpecific with
  | Some specific =>
      fold_left (fun modules m =>
                   if canAccessModule tier m then setAdd modules m else modules)
                specific modules
  | None => modules
  end.

(** The loop of [getTenantsForUser] over the memberships of the user. *)
Fixpoint forUserTenants (d : Database) (userTenantsResult : list UserTenant.row)
  : list Router.TenantWithModules :=
  match userTenantsResult with
  | [] => []
  | ut :: rest =>
      let tenantResult :=
        firstn 1 (filter (fun t => (Tenant.id t =? UserTenant.tenantId ut)%string)
                         (tenants d)) in
      match tenantResult with
      | [] => forUserTenants d rest
      | t :: _ =>
          let modulesResult :=
            filter (fun m => (TenantModule.tenantId m =? UserTenant.tenantId ut)%string
                             && TenantModule.enabled m)
                   (tenantModules d) in
          Router.mkTenantWithModules t modulesResult (UserTenant.role ut)
          :: forUserTenants d rest
      end
  end.

Definition getTenantsForUser (userId : string)
  : M (list Router.TenantWithModules) :=
  d <- getDb ;;
  let userTenantsResult :=
    filter (fun u => (UserTenant.userId u =? userId)%string) (userTenants d) in
  ret (forUserTenants d userTenantsResult).

(** Strings of [generateSlug]: code units below 256.  On these,
    [toLowerCase] maps A to Z and the capital letters of Latin-1 to their
    small letters and leaves the rest. *)
Definition toLowerCaseChar (c : Ascii.ascii) : Ascii.ascii :=
  let n := Ascii.nat_of_ascii c in
  if ((65 <=? n) && (n <=? 90)
      || (192 <=? n) && (n <=? 222) && negb (n =? 215))%nat
  then Ascii.ascii_of_nat (n + 32) else c.

Fixpoint toLowerCase (s : string) : string :=
  match s with
  | EmptyString => EmptyString
  | String c s' => String (toLowerCaseChar c) (toLowerCase s')
  end.

(** The class [[a-z0-9]]. *)
Definition isSlugChar (c : Ascii.ascii) : bool :=
  let n := Ascii.nat_of_ascii c in
  ((97 <=? n) && (n <=? 122) || (48 <=? n) && (n <=? 57))%nat.

Definition hyphen : Ascii.ascii := "-"%char.

(** [replace(/[^a-z0-9]+/g, '-')]: every maximal run of other characters
    becomes one hyphen; [inRun] tells that the run has begun. *)
Fixpoint replaceRuns (inRun : bool) (s : string) : string :=
  match s with
  | EmptyString => EmptyString
  | String c s' =>
      if isSlugChar c then String c (replaceRuns false s')
      else if inRun then replaceRuns true s'
      else String hyphen (replaceRuns true s')
  end.

(** [replace(/^-|-$/g, '')]: a hyphen at the start goes, and a hyphen at
    the end of what is left. *)
Definition dropLeadingHyphen (s : string) : string :=
  match s with
  | String c s' => if Ascii.eqb c hyphen then s' else s
  | EmptyString => EmptyString
  end.

Fixpoint dropTrailingHyphen (s : string) : string :=
  match s with
  | EmptyString => EmptyString
  | String c EmptyString => if Ascii.eqb c hyphen then EmptyString else s
  | String c s' => String c (dropTrailingHyphen s')
  end.

Definition generateSlug (name : string) : string :=
  substring 0 100
    (dropTrailingHyphen (dropLeadingHyphen (replaceRuns false (toLowerCase name)))).

End TenantService.

(** * Vocabulary of the properties *)

(** A world with a database. *)
Definition worldOf (d : Database) (clk : Z) (n : nat) : World :=
  mkWorld (Some d) clk n.

Definition hasStatus (s : Status) (i : Compliance.row) : bool :=
  Status_eqb (Compliance.status i) s.

(** The tracking records of a tenant, narrowed to a checklist when one is
    given. *)
Definition selected (tenantId : string) (checklistId : option string)
    (d : Database) : list Compliance.row :=
  filter (fun i =>
            (Compliance.tenantId i =? tenantId)%string
            && match checklistId with
               | Some c => if truthy c then (Compliance.checklistId i =? c)%string
                           else true
               | None => true
               end)
         (tenantCompliance d).

(** Example data: a tracking record with the given key, tenant, status and
    due date, and a database holding only tracking records. *)
Definition exampleRecord (rid tenantId : string) (st : Status)
    (due : option Date) : Compliance.row :=
  Compliance.mkRow rid tenantId "CL1" "item" st None None None None due false
    None None.

Definition trackingOnly (rows : list Compliance.row) : Database :=
  mkDatabase [] rows [] [] [] [].

(** The object that [updateComplianceStatus] gives to [.set()]. *)
Definition updateDataOf (clk : Z) (st : Status) (userId : string)
    (notes : option string) (attachments : option (list Attachment))
  : UpdateData :=
  mkUpdateData st (Some clk)
    (if Status_eqb st completed then Some (Some clk) else None)
    (if Status_eqb st completed then Some userId else None)
    notes attachments.

Definition tracking (w : World) : list Compliance.row :=
  match db w with Some d => tenantCompliance d | None => [] end.

(** What one status update may change in a row: the status, the update
    time, the completion stamps when the new status is [completed], and the
    notes and attachments that are given. *)
Definition updatedRow (clk : Z) (st : Status) (userId : string)
    (notes : option string) (attachments : option (list Attachment))
    (r r' : Compliance.row) : Prop :=
  Compliance.id r' = Compliance.id r
  /\ Compliance.tenantId r' = Compliance.tenantId r
  /\ Compliance.checklistId r' = Compliance.checklistId r
  /\ Compliance.itemId r' = Compliance.itemId r
  /\ Compliance.nextDueDate r' = Compliance.nextDueDate r
  /\ Compliance.reminderSent r' = Compliance.reminderSent r
  /\ Compliance.createdAt r' = Compliance.createdAt r
  /\ Compliance.status r' = st
  /\ Compliance.updatedAt r' = Some (Some clk)
  /\ (st = completed ->
      Compliance.completedAt r' = Some (Some clk)
      /\ Compliance.completedBy r' = Some userId)
  /\ (st <> completed ->
      Compliance.completedAt r' = Compliance.completedAt r
      /\ Compliance.completedBy r' = Compliance.completedBy r)
  /\ Compliance.notes r' =
     match notes with Some v => Some v | None => Compliance.notes r end
  /\ Compliance.attachments r' =
     match attachments with Some v => Some v | None => Compliance.attachments r end.

(** The caller [userId] passes the tenant check of the router for
    [tenantId]. *)
Definition authorized (userId tenantId : string) (w : World) : Prop :=
  exists membership,
    fst (Router.getTenantForUser userId tenantId w) = Ok (Some membership).

(** Example data: user [U] belongs to tenants [A] and [C]; the only
    tracking record belongs to tenant [B]. *)
Definition threeTenants : Database :=
  mkDatabase []
    [exampleRecord "r1" "B" not_started None]
    []
    [Tenant.mkRow "A" "Studio A" "U"; Tenant.mkRow "B" "Studio B" "V";
     Tenant.mkRow "C" "Studio C" "U"]
    [UserTenant.mkRow "m1" "U" "A" owner; UserTenant.mkRow "m2" "V" "B" owner;
     UserTenant.mkRow "m3" "U" "C" member]
    [].

Section InitializationVocabulary.
Context {rt : Runtime}.

(** The due date taken from an item: the date of its [dueDate] text when
    the text is there and not empty. *)
Definition dueOf (item : Checklist.Item) : option Date :=
  match Checklist.dueDate item with
  | Some s => if (s =? "")%string then None else Some (parseDate s)
  | None => None
  end.

(** The due-date text of an item is one that becomes a date, if any: it is
    absent or empty, or the runtime reads a date from it. *)
Definition dueDateParses (item : Checklist.Item) : bool :=
  match Checklist.dueDate item with
  | Some s => (s =? "")%string
              || match parseDate s with Some _ => true | None => false end
  | None => true
  end.

(** The items of a template, section after section. *)
Definition itemsOf (cl : Checklist.row) : list Checklist.Item :=
  flat_map Checklist.items (Checklist.sections (Checklist.rdata cl)).

(** The record made for [item] when [k] identifiers have been drawn. *)
Definition expectedRecord (tenantId checklistId : string) (clk : Z) (k : nat)
    (item : Checklist.Item) : Compliance.row :=
  Compliance.mkRow (nanoid k) tenantId checklistId (Checklist.id item)
    not_started None None None None (dueOf item) false
    (Some (Some clk)) (Some (Some clk)).

Fixpoint expectedRecords (tenantId checklistId : string) (clk : Z) (k : nat)
    (items : list Checklist.Item) : list Compliance.row :=
  match items with
  | [] => []
  | item :: rest =>
      expectedRecord tenantId checklistId clk k item
      :: expectedRecords tenantId checklistId clk (S k) rest
  end.

(** A fresh tracking record of [item] for a tenant and a checklist. *)
Definition createdFor (tenantId checklistId : string) (item : Checklist.Item)
    (r : Compliance.row) : Prop :=
  Compliance.tenantId r = tenantId
  /\ Compliance.checklistId r = checklistId
  /\ Compliance.itemId r = Checklist.id item
  /\ Compliance.status r = not_started
  /\ Compliance.nextDueDate r = dueOf item
  /\ Compliance.completedAt r = None
  /\ Compliance.completedBy r = None
  /\ Compliance.notes r = None
  /\ Compliance.attachments r = None
  /\ Compliance.reminderSent r = false.

End InitializationVocabulary.

(** Example data: a template whose item [A1] has an empty due-date text,
    [B1] a date and [C1] none. *)
Definition exampleTemplate : Checklist.row :=
  Checklist.mkRow "CL1"
    (Checklist.mkData "Sole proprietor" "1.0" None None
       [Checklist.mkSection "s1" "Taxes" "Federal"
          [Checklist.mkItem "A1" "Register" "" None None (Some once) (Some ""%string);
           Checklist.mkItem "B1" "Estimated tax" "" None None (Some quarterly)
             (Some "2025-01-31"%string)];
        Checklist.mkSection "s2" "Licences" "Local"
          [Checklist.mkItem "C1" "Renew" "" None None (Some annually) None]]
       None None)
    None None.

Definition templateOnly : Database := mkDatabase [exampleTemplate] [] [] [] [] [].

(** Example data: a template whose item [A1] has a date as due-date text
    and whose item [B1] has a text that is no date. *)
Definition looseTemplate : Checklist.row :=
  Checklist.mkRow "CL2"
    (Checklist.mkData "Partnership" "1.0" None None
       [Checklist.mkSection "s1" "Taxes" "Federal"
          [Checklist.mkItem "A1" "Estimated tax" "" None None (Some quarterly)
             (Some "2025-01-31"%string);
           Checklist.mkItem "B1" "File return" "" None None (Some annually)
             (Some "not-a-date"%string)]]
       None None)
    None None.

Definition looseTemplateOnly : Database := mkDatabase [looseTemplate] [] [] [] [] [].

Section LifecycleVocabulary.
Context {rt : Runtime}.

(** The calls of the service that write. *)
Inductive Call :=
| UpsertChecklist (data : Checklist.data)
| InitializeTracking (tenantId checklistId : string)
| UpdateStatus (complianceId : string) (st : Status) (userId : string)
    (notes : option string) (attachments : option (list Attachment))
| ScheduleReminder (tenantId complianceId : string) (ty : ReminderType)
    (scheduledFor : Date) (message : string) (metadata : option Metadata)
| MarkReminderSent (reminderId : string)
| ScheduleQuarterly (tenantId complianceId : string).

(** The world that a call leaves, whether it returns or throws. *)
Definition perform (c : Call) (w : World) : World :=
  match c with
  | UpsertChecklist data => snd (Service.upsertComplianceChecklist data w)
  | InitializeTracking t c => snd (Service.initializeTenantCompliance t c w)
  | UpdateStatus cid st u notes atts =>
      snd (Service.updateComplianceStatus cid st u notes atts w)
  | ScheduleReminder t c ty at_ msg meta =>
      snd (Service.scheduleReminder t c ty at_ msg meta w)
  | MarkReminderSent rid => snd (Service.markReminderSent rid w)
  | ScheduleQuarterly t c => snd (Service.scheduleQuarterlyTaxReminders t c w)
  end.

(** One step of the system: a call, or the clock moving. *)
Inductive step : World -> World -> Prop :=
| step_call c w : step w (perform c w)
| step_time clk w : step w (mkWorld (db w) clk (drawn w)).

(** The worlds that the service reaches from a world without tracking
    records. *)
Inductive reachable : World -> Prop :=
| reachable_start w : tracking w = [] -> reachable w
| reachable_step w w' : reachable w -> step w w' -> reachable w'.

End LifecycleVocabulary.

(** The completion stamps of a record: present when the record is
    completed, and always present or absent together. *)
Definition stamped (r : Compliance.row) : Prop :=
  Compliance.completedAt r <> None /\ Compliance.completedBy r <> None.

Definition completionConsistent (r : Compliance.row) : Prop :=
  (Compliance.status r = completed -> stamped r)
  /\ (Compliance.completedAt r = None <-> Compliance.completedBy r = None).

(** Example data: a record of the example template is initialized at time
    0, completed by [U1] at time 5000 and reopened at time 9000. *)
Definition lifeStart : World := worldOf templateOnly 0 0.

Definition lifeInitialized : World :=
  perform (rt := ExampleRuntime.utc) (InitializeTracking "T1" "CL1") lifeStart.

Definition lifeCompleted : World :=
  perform (rt := ExampleRuntime.utc)
    (UpdateStatus "id0" completed "U1" None None)
    (mkWorld (db lifeInitialized) 5000 (drawn lifeInitialized)).

Definition lifeReopened : World :=
  perform (rt := ExampleRuntime.utc)
    (UpdateStatus "id0" in_progress "U1" None None)
    (mkWorld (db lifeCompleted) 9000 (drawn lifeCompleted)).

(** Two items of one template definition share a key. *)
Definition sharesItemId (data : Checklist.data) : Prop :=
  ~ NoDup (map Checklist.id (flat_map Checklist.items (Checklist.sections data))).

(** Example data: a template definition whose two items both have key
    [A1]. *)
Definition duplicateTemplate : Checklist.data :=
  Checklist.mkData "Duplicates" "1.0" None None
    [Checklist.mkSection "s1" "Taxes" "Federal"
       [Checklist.mkItem "A1" "Register" "" None None None None;
        Checklist.mkItem "A1" "Register again" "" None None None None]]
    None None.

Definition emptyDatabase : Database := mkDatabase [] [] [] [] [] [].

(** What marking as sent at time [clk] changes in a reminder: the sent
    flag and the time of sending. *)
Definition markedSent (clk : Z) (r r' : Reminder.row) : Prop :=
  Reminder.sent r' = true
  /\ Reminder.sentAt r' = Some (Some clk)
  /\ Reminder.id r' = Reminder.id r
  /\ Reminder.tenantId r' = Reminder.tenantId r
  /\ Reminder.complianceId r' = Reminder.complianceId r
  /\ Reminder.reminderType r' = Reminder.reminderType r
  /\ Reminder.scheduledFor r' = Reminder.scheduledFor r
  /\ Reminder.message r' = Reminder.message r
  /\ Reminder.metadata r' = Reminder.metadata r
  /\ Reminder.createdAt r' = Reminder.createdAt r.

Definition reminders (w : World) : list Reminder.row :=
  match db w with Some d => complianceReminders d | None => [] end.

(** The world at another time. *)
Definition atTime (clk : Z) (w : World) : World := mkWorld (db w) clk (drawn w).

(** Example data: one reminder, sent at time 1000. *)
Definition sentReminder : Reminder.row :=
  Reminder.mkRow "rem1" "T1" "r1" email (Some 500) true (Some (Some 1000))
    "Due soon" [] (Some (Some 100)).

Definition oneSentReminder : Database := mkDatabase [] [] [sentReminder] [] [] [].

Section RecurrenceVocabulary.
Context {rt : Runtime}.
Import JSDate DateObj.

(** Day number of the first day of month [m] (0 to 11) of year [y]. *)
Definition firstOfMonth (y m : Z) : Z :=
  DayFromYear y + DaysBeforeMonth m (LeapFlag y).

Definition DaysInMonth (y m : Z) : Z :=
  match m with
  | 1 => 28 + LeapFlag y
  | 3 | 5 | 8 | 10 => 30
  | _ => 31
  end.

(** A date advanced by [n] calendar months, in local time and with the
    roll-over of the runtime: from the first day of the month that lies [n]
    months after the month of the date, as many days on as the day of the
    month says, at the same time of day.  A day of the month that the target
    month does not have therefore falls into the month after it. *)
Definition addMonths (n : Z) (d : Date) : Date :=
  match d with
  | Some t0 =>
      let t := LocalTime t0 in
      let k := 12 * YearFromTime t + MonthFromTime t + n in
      TimeClip (UTC (MakeDate (firstOfMonth (k / 12) (k mod 12)
                               + (DateFromTime t - 1))
                              (TimeWithinDay t)))
  | None => None
  end.

End RecurrenceVocabulary.

(** The days by which [d.setDate(d.getDate() + N)] moves a date whose day
    of the month is [date]: the integer part of the number [date + N], less
    [date]; none when that number is NaN or infinite. *)
Definition daysMoved (date : Z) (N : Number.t) : Num :=
  numAdd (Number.integerPart (Number.add (Number.ofZ date) N)) (- date).

(** The binary digits of a mantissa, a mantissa with [z] zero bits added
    below, and the normal form in which a binary64 number holds the value
    [M * 2 ^ e] when [M] has at most 53 bits: the mantissa filled up to 53
    bits. *)
Definition bits (M : BinNums.positive) : Z := Zpos (SpecFloat.digits2_pos M).

Definition shiftMantissa (M : BinNums.positive) (z : Z) : BinNums.positive :=
  match z with Zpos p => Pos.iter xO M p | _ => M end.

Definition canonical (s : bool) (M : BinNums.positive) (e : Z) : Number.t :=
  SpecFloat.S754_finite s (shiftMantissa M (53 - bits M)) (bits M + e - 53).

Section DeadlineVocabulary.
Context {rt : Runtime}.
Import JSDate DateObj.

(** The days that the window of [getUpcomingDeadlines] spans when the call
    is made at time [clk] with the day count [N]. *)
Definition windowDays (clk : Z) (N : Number.t) : Num :=
  daysMoved (DateFromTime (LocalTime clk)) N.

(** The date that shows the local time of day of [clk], [n] days later on
    the local calendar: invalid when it is out of the range of dates, or
    when there is no [n]. *)
Definition daysAfter (clk : Z) (n : Num) : Date :=
  match n with
  | Some n => TimeClip (UTC (LocalTime clk + n * msPerDay))
  | None => None
  end.

(** A record with a deadline between [clk] and [n] days after [clk], both
    included, that is neither completed nor skipped. *)
Definition upcoming (clk : Z) (n : Num) (r : Compliance.row) : bool :=
  match Compliance.nextDueDate r, daysAfter clk n with
  | Some (Some due), Some last =>
      (clk <=? due) && (due <=? last)
      && negb (hasStatus completed r) && negb (hasStatus skipped r)
  | _, _ => false
  end.

End DeadlineVocabulary.

(** Whole days from [clk] to the deadline of a record, rounded up: the
    least number of days that reaches the deadline. *)
Definition daysUntil (clk : Z) (r : Compliance.row) : Z :=
  match Compliance.nextDueDate r with
  | Some (Some due) => (due - clk + (JSDate.msPerDay - 1)) / JSDate.msPerDay
  | _ => 0
  end.

(** [k] days reach the time [due] from [clk], and [k - 1] days do not. *)
Definition leastDays (clk due k : Z) : Prop :=
  (k - 1) * JSDate.msPerDay < due - clk <= k * JSDate.msPerDay.

(** Example data: a record of tenant [T1] due a day and a quarter after the
    epoch. *)
Definition fractionRecords : Database :=
  trackingOnly
    [exampleRecord "a" "T1" not_started (Some (Some (5 * JSDate.msPerDay / 4)))].

(** Example data: records of tenant [T1] due in 3 days (twice), in 1 day
    and in 40 days, one of them completed, one without deadline. *)
Definition deadlineRecords : Database :=
  trackingOnly
    [exampleRecord "a" "T1" not_started (Some (Some (3 * JSDate.msPerDay)));
     exampleRecord "b" "T1" in_progress (Some (Some (JSDate.msPerDay - 1)));
     exampleRecord "c" "T1" completed (Some (Some JSDate.msPerDay));
     exampleRecord "d" "T1" not_started (Some (Some (3 * JSDate.msPerDay - 5)));
     exampleRecord "e" "T1" not_started (Some (Some (40 * JSDate.msPerDay)));
     exampleRecord "f" "T1" skipped (Some (Some 7));
     exampleRecord "g" "T1" not_started None;
     exampleRecord "h" "T2" not_started (Some (Some 1))].

Section QuarterlyVocabulary.
Context {rt : Runtime}.
Import JSDate DateObj Service.

(** Local midnight of the calendar day [y]-[m]-[d] (months from 1), as a
    date. *)
Definition localMidnight (y m d : Z) : Date :=
  TimeClip (UTC (MakeDate (firstOfMonth y (m - 1) + (d - 1)) 0)).

(** The four deadlines of the estimated tax of a year: April 15, June 15,
    September 15, and January 15 of the year after. *)
Definition irsDeadlines (year : Z) : list Quarter :=
  [ mkQuarter (localMidnight year 4 15) "Q1";
    mkQuarter (localMidnight year 6 15) "Q2";
    mkQuarter (localMidnight year 9 15) "Q3";
    mkQuarter (localMidnight (year + 1) 1 15) "Q4" ].

(** A deadline strictly after the time [clk]. *)
Definition inFuture (clk : Z) (q : Quarter) : bool := dateGt (qdate q) (Some clk).

(** The reminder of a deadline: by e-mail, seven days before the deadline,
    not sent, with a message that names the quarter and the due date. *)
Definition reminderOf (tenantId complianceId : string) (clk : Z) (k : nat)
    (q : Quarter) : Reminder.row :=
  Reminder.mkRow (nanoid k) tenantId complianceId email
    (option_map (fun u => u - 7 * msPerDay) (qdate q))
    false None
    ("Reminder: " ++ qname q ++ " estimated taxes are due on "
     ++ dateToLocaleDateString (qdate q))%string
    [("quarter", qname q);
     ("dueDate", match qdate q with Some u => toISOString u | None => "" end)]%string
    (Some (Some clk)).

Fixpoint remindersOf (tenantId complianceId : string) (clk : Z) (k : nat)
    (qs : list Quarter) : list Reminder.row :=
  match qs with
  | [] => []
  | q :: rest =>
      reminderOf tenantId complianceId clk k q
      :: remindersOf tenantId complianceId clk (S k) rest
  end.

End QuarterlyVocabulary.

Definition appendReminders (rs : list Reminder.row) (d : Database) : Database :=
  with_complianceReminders (fun rows => rows ++ rs) d.

(** The local calendar day of a time. *)
Definition localDay {rt : Runtime} (clk : Z) : Z * Z * Z :=
  let t := DateObj.LocalTime clk in
  (JSDate.YearFromTime t, JSDate.MonthFromTime t + 1, JSDate.DateFromTime t).

(** Computations that leave the tracking table as it is. *)
Definition keepsTracking {A} (c : M A) : Prop :=
  forall w, tracking (snd (c w)) = tracking w.

(** The comparator that subtracts keys, and the order it sorts into. *)
Definition byKey {A} (key : A -> Z) (a b : A) : Num := Some (key a - key b).

Definition ascending {A} (key : A -> Z) (a b : A) : Prop := key a <= key b.

(** Quarters whose dates, when valid, are in the range of dates. *)
Definition validDates (qs : list Service.Quarter) : Prop :=
  Forall (fun q => forall u, Service.qdate q = Some u -> Z.abs u <= JSDate.maxTime) qs.

(** ** Vocabulary of the further properties *)

(** The caller [userId] is turned away by the tenant check for
    [tenantId]: the lookup runs and finds no tenant or no membership. *)
Definition notMember (userId tenantId : string) (w : World) : Prop :=
  fst (Router.getTenantForUser userId tenantId w) = Ok None.

Definition hasTenant (tenantId : string) (d : Database) : Prop :=
  exists t, In t (tenants d) /\ Tenant.id t = tenantId.

Definition hasMembership (userId tenantId : string) (d : Database) : Prop :=
  exists u, In u (userTenants d)
            /\ UserTenant.userId u = userId /\ UserTenant.tenantId u = tenantId.

(** A reminder that is due at time [clk]: not sent, and scheduled strictly
    before [clk]. *)
Definition pendingAt (clk : Z) (r : Reminder.row) : bool :=
  negb (Reminder.sent r) && DateObj.dateLt (Reminder.scheduledFor r) (Some clk).

(** Example data: an unsent reminder scheduled for time 500. *)
Definition unsentReminder : Reminder.row :=
  Reminder.mkRow "rem2" "T1" "r1" email (Some 500) false None "Due soon" []
    (Some (Some 100)).

Definition oneUnsentReminder : Database :=
  mkDatabase [] [] [unsentReminder] [] [] [].

(** No stored tracking record has the key. *)
Definition unknownRecord (complianceId : string) (d : Database) : Prop :=
  forall r, In r (tenantCompliance d) -> Compliance.id r <> complianceId.

Definition unknownReminder (reminderId : string) (d : Database) : Prop :=
  forall r, In r (complianceReminders d) -> Reminder.id r <> reminderId.

(** An item whose due date is a valid date strictly before [clk]. *)
Definition itemOverdueAt {rt : Runtime} (clk : Z) (item : Checklist.Item) : bool :=
  match dueOf item with
  | Some due => DateObj.dateLt due (Some clk)
  | None => false
  end.

(** The keys of the tracking table are distinct (the primary key). *)
Definition distinctKeys (d : Database) : Prop :=
  NoDup (map Compliance.id (tenantCompliance d)).

(** The filter of the records of a tenant when no checklist is named. *)
Definition ofTenant (tenantId : string) (i : Compliance.row) : bool :=
  (Compliance.tenantId i =? tenantId)%string && true.

(** Days from the first of month [M] of year [Y] to the first of the month
    [n] months later. *)
Definition monthSpan (Y M n : Z) : Z :=
  firstOfMonth ((12 * Y + M + n) / 12) ((12 * Y + M + n) mod 12) - firstOfMonth Y M.

(** A template is active unless its flag says otherwise. *)
Definition activeTemplate (c : Checklist.row) : bool :=
  match Checklist.isActive (Checklist.rdata c) with Some b => b | None => true end.

(** A filter given by the caller narrows only when it is a non-empty
    text; a column without value matches no such filter. *)
Definition matchesFilter (filter : option string) (column : option string) : Prop :=
  forall f, filter = Some f -> f <> ""%string -> column = Some f.

(** Example data: an active template for California, an active one without
    region, and an inactive one for California. *)
Definition regionalTemplates : Database :=
  mkDatabase
    [Checklist.mkRow "c1"
       (Checklist.mkData "CA" "1" (Some "CA"%string) None [] None None) None None;
     Checklist.mkRow "c2"
       (Checklist.mkData "Any" "1" None None [] None (Some true)) None None;
     Checklist.mkRow "c3"
       (Checklist.mkData "Old CA" "1" (Some "CA"%string) None [] None (Some false))
       None None]
    [] [] [] [] [].

(** The shape of a slug: only [a-z], [0-9] and hyphens, no hyphen after a
    hyphen, and, when [afterHyphen] is set, no hyphen at the start. *)
Fixpoint slugShape (afterHyphen : bool) (s : string) : bool :=
  match s with
  | EmptyString => true
  | String c s' =>
      if TenantService.isSlugChar c then slugShape false s'
      else Ascii.eqb c TenantService.hyphen && negb afterHyphen && slugShape true s'
  end.

Fixpoint endsWithHyphen (s : string) : bool :=
  match s with
  | EmptyString => false
  | String c EmptyString => Ascii.eqb c TenantService.hyphen
  | String _ s' => endsWithHyphen s'
  end.

(** * Properties *)

Ltac run :=
  unfold bind, ret, throw, getDb, newDate, execute, worldOf;
  cbn [db clock drawn option_map].

(** ** Facts of the date arithmetic *)

Module JSDateFacts.
Import JSDate.

Lemma DayFromYear_succ y : DayFromYear (y + 1) = DayFromYear y + DaysInYear y.
Proof.
  unfold DayFromYear, DaysInYear.
  repeat match goal with |- context [?a =? ?b] => destruct (Z.eqb_spec a b) end;
    cbn [negb]; Z.div_mod_to_equations; lia.
Qed.

Lemma DaysInYear_cases y : DaysInYear y = 365 \/ DaysInYear y = 366.
Proof.
  unfold DaysInYear.
  repeat match goal with |- context [?a =? ?b] => destruct (Z.eqb_spec a b) end;
    cbn [negb]; auto.
Qed.

Lemma YearFromTime_bounds t :
  TimeFromYear (YearFromTime t) <= t < TimeFromYear (YearFromTime t + 1).
Proof.
  unfold TimeFromYear, YearFromTime, Day.
  set (d := t / msPerDay).
  assert (Hd : msPerDay * d <= t < msPerDay * (d + 1)).
  { unfold d, msPerDay. Z.div_mod_to_equations. lia. }
  set (y0 := 1970 + 400 * d / 146097).
  assert (Hy : DayFromYear (y0 - 1) <= d < DayFromYear (y0 + 2)).
  { unfold y0, DayFromYear. Z.div_mod_to_equations. lia. }
  destruct (Z.ltb_spec d (DayFromYear y0)) as [H1 | H1].
  - replace (y0 - 1 + 1) with y0 by lia. unfold msPerDay in *. nia.
  - destruct (Z.leb_spec (DayFromYear (y0 + 1)) d) as [H2 | H2].
    + replace (y0 + 1 + 1) with (y0 + 2) by lia. unfold msPerDay in *. nia.
    + unfold msPerDay in *. nia.
Qed.

Lemma DayFromYear_lt y y' : y < y' -> DayFromYear y < DayFromYear y'.
Proof. unfold DayFromYear. intros. Z.div_mod_to_equations. lia. Qed.

Lemma DayFromYear_le y y' : y <= y' -> DayFromYear y <= DayFromYear y'.
Proof. unfold DayFromYear. intros. Z.div_mod_to_equations. lia. Qed.

(** [YearFromTime t] is the one year whose span contains [t]. *)
Lemma YearFromTime_unique t y :
  TimeFromYear y <= t < TimeFromYear (y + 1) -> YearFromTime t = y.
Proof.
  intros Hy. pose proof (YearFromTime_bounds t) as Ht.
  unfold TimeFromYear, msPerDay in *.
  destruct (Z.lt_trichotomy (YearFromTime t) y) as [Hlt | [Heq | Hgt]]; trivial.
  - pose proof (DayFromYear_le (YearFromTime t + 1) y ltac:(lia)). lia.
  - pose proof (DayFromYear_le (y + 1) (YearFromTime t) ltac:(lia)). lia.
Qed.

Lemma YearFromTime_largest t y :
  TimeFromYear y <= t -> y <= YearFromTime t.
Proof.
  intros Hy. pose proof (YearFromTime_bounds t) as Ht.
  unfold TimeFromYear, msPerDay in *.
  destruct (Z.le_gt_cases y (YearFromTime t)) as [Hle | Hgt]; trivial.
  pose proof (DayFromYear_le (YearFromTime t + 1) y ltac:(lia)). lia.
Qed.

Lemma DayWithinYear_bounds t :
  0 <= DayWithinYear t < DaysInYear (YearFromTime t).
Proof.
  pose proof (YearFromTime_bounds t) as Ht.
  unfold DayWithinYear, Day, TimeFromYear in *.
  rewrite DayFromYear_succ in Ht.
  unfold msPerDay in *. Z.div_mod_to_equations. lia.
Qed.

Lemma LeapFlag_InLeapYear t : LeapFlag (YearFromTime t) = InLeapYear t.
Proof. reflexivity. Qed.

Lemma MakeDay_in_year y m d :
  0 <= m <= 11 ->
  MakeDay y m d = DayFromYear y + DaysBeforeMonth m (LeapFlag y) + d - 1.
Proof.
  intros Hm. unfold MakeDay.
  rewrite Z.div_small, Z.mod_small, Z.add_0_r by lia. reflexivity.
Qed.

Lemma InLeapYear_cases t :
  InLeapYear t = 0 /\ DaysInYear (YearFromTime t) = 365 \/
  InLeapYear t = 1 /\ DaysInYear (YearFromTime t) = 366.
Proof.
  unfold InLeapYear.
  destruct (DaysInYear_cases (YearFromTime t)) as [E | E]; rewrite E; cbn; auto.
Qed.

Lemma MonthFromTime_bounds t : 0 <= MonthFromTime t <= 11.
Proof.
  unfold MonthFromTime.
  repeat match goal with
         | |- context [?a <? ?b] => destruct (Z.ltb_spec a b)
         end; lia.
Qed.

(** The calendar fields of a time rebuild its day number. *)
Lemma MakeDay_fields t :
  MakeDay (YearFromTime t) (MonthFromTime t) (DateFromTime t) = Day t.
Proof.
  rewrite MakeDay_in_year by apply MonthFromTime_bounds.
  pose proof (DayWithinYear_bounds t) as Hb.
  pose proof (InLeapYear_cases t) as Hl.
  rewrite LeapFlag_InLeapYear.
  assert (Hd : Day t = DayFromYear (YearFromTime t) + DayWithinYear t)
    by (unfold DayWithinYear; lia).
  unfold DateFromTime, MonthFromTime.
  repeat match goal with
         | |- context [?a <? ?b] => destruct (Z.ltb_spec a b)
         end; cbn [DaysBeforeMonth]; lia.
Qed.

(** Month overflow carries into the year: twelve months are one year. *)
Lemma MakeDay_carry_year y m d : MakeDay y (m + 12) d = MakeDay (y + 1) m d.
Proof.
  unfold MakeDay.
  replace (m + 12) with (m + 1 * 12) by lia.
  rewrite Z.div_add, Z.mod_add by lia.
  replace (y + (m / 12 + 1)) with (y + 1 + m / 12) by lia.
  reflexivity.
Qed.

Lemma MakeDay_shift y m d k : MakeDay y m (d + k) = MakeDay y m d + k.
Proof. unfold MakeDay. lia. Qed.

Lemma MakeDate_parts t : MakeDate (Day t) (TimeWithinDay t) = t.
Proof.
  unfold MakeDate, Day, TimeWithinDay, msPerDay. Z.div_mod_to_equations. lia.
Qed.

Lemma TimeWithinDay_bounds t : 0 <= TimeWithinDay t < msPerDay.
Proof. unfold TimeWithinDay, msPerDay. Z.div_mod_to_equations. lia. Qed.

Lemma Day_MakeDate d tm : 0 <= tm < msPerDay -> Day (MakeDate d tm) = d.
Proof.
  unfold MakeDate, Day, msPerDay. intros. Z.div_mod_to_equations. lia.
Qed.

Lemma TimeWithinDay_MakeDate d tm :
  0 <= tm < msPerDay -> TimeWithinDay (MakeDate d tm) = tm.
Proof.
  unfold MakeDate, TimeWithinDay, msPerDay. intros. Z.div_mod_to_equations. lia.
Qed.

Lemma TimeClip_Some t : Z.abs t <= maxTime -> TimeClip t = Some t.
Proof.
  unfold TimeClip. intros H. destruct (Z.gtb_spec (Z.abs t) maxTime); trivial. lia.
Qed.

Lemma TimeClip_inv t u : TimeClip t = Some u -> u = t /\ Z.abs t <= maxTime.
Proof.
  unfold TimeClip. destruct (Z.gtb_spec (Z.abs t) maxTime); [discriminate|].
  intros [= <-]. split; [reflexivity | lia].
Qed.

End JSDateFacts.

(** ** Statistics *)

Section Stats.
Context {rt : Runtime}.
Import Service.

Lemma count_nonneg {A} (p : A -> bool) l : 0 <= count p l.
Proof. unfold count. lia. Qed.

Lemma count_le_length {A} (p : A -> bool) l : count p l <= Z.of_nat (List.length l).
Proof. unfold count. pose proof (filter_length_le p l). lia. Qed.

Lemma count_cons {A} (p : A -> bool) x l :
  count p (x :: l) = (if p x then 1 else 0) + count p l.
Proof. unfold count. cbn [filter]. destruct (p x); cbn [List.length]; lia. Qed.

(** Every record has one of the four statuses. *)
Lemma status_partition items :
  count (hasStatus completed) items + count (hasStatus in_progress) items
  + count (hasStatus not_started) items + count (hasStatus skipped) items
  = Z.of_nat (List.length items).
Proof.
  induction items as [| i items IH]; [reflexivity |].
  rewrite !count_cons. cbn [List.length]. unfold hasStatus at 1 3 5 7.
  destruct (Compliance.status i); cbn [Status_eqb]; lia.
Qed.

Lemma roundPercent_range c t : 0 <= c <= t -> 0 < t -> 0 <= roundPercent c t <= 100.
Proof.
  intros Hc Ht. unfold roundPercent. split.
  - apply Z.div_pos; lia.
  - enough ((2 * (c * 100) + t) / (2 * t) < 101) by lia.
    apply Z.div_lt_upper_bound; lia.
Qed.

Lemma getTenantComplianceStatus_run tenantId checklistId d clk n :
  getTenantComplianceStatus tenantId checklistId (worldOf d clk n)
  = (Ok (selected tenantId checklistId d), worldOf d clk n).
Proof. reflexivity. Qed.

Lemma getComplianceStats_run tenantId checklistId d clk n :
  let items := selected tenantId checklistId d in
  let c := count (hasStatus completed) items in
  let t := Z.of_nat (List.length items) in
  getComplianceStats tenantId checklistId (worldOf d clk n)
  = (Ok (mkStats t c (count (hasStatus in_progress) items)
           (count (hasStatus not_started) items)
           (count (isOverdue (Some clk)) items)
           (if 0 <? t then roundPercent c t else 0)),
     worldOf d clk n).
Proof.
  cbv zeta. unfold getComplianceStats.
  unfold bind at 1. rewrite getTenantComplianceStatus_run.
  run. cbn [total completedCount inProgress notStarted overdue].
  destruct (0 <? Z.of_nat (List.length (selected tenantId checklistId d)));
    reflexivity.
Qed.

(** C1 (as the code has it).  On every tenant and optional checklist, the
    statistics count the selected records by status: the completed, the
    in-progress and the not-started counts together with the number of
    skipped records give the total, so the three reported counts sum to the
    total exactly when no selected record is skipped.  The completion rate
    lies between 0 and 100 and is 0 when there is no record. *)
Theorem stats_counts_and_rate tenantId checklistId d clk n :
  exists s,
    getComplianceStats tenantId checklistId (worldOf d clk n)
    = (Ok s, worldOf d clk n)
    /\ let items := selected tenantId checklistId d in
       total s = Z.of_nat (List.length items)
       /\ completedCount s = count (hasStatus completed) items
       /\ inProgress s = count (hasStatus in_progress) items
       /\ notStarted s = count (hasStatus not_started) items
       /\ completedCount s + inProgress s + notStarted s
          + count (hasStatus skipped) items = total s
       /\ (completedCount s + inProgress s + notStarted s = total s
           <-> count (hasStatus skipped) items = 0)
       /\ 0 <= completionRate s <= 100
       /\ (total s = 0 -> completionRate s = 0).
Proof.
  eexists. split; [apply getComplianceStats_run |].
  cbv zeta. cbn [total completedCount inProgress notStarted completionRate].
  set (items := selected tenantId checklistId d).
  pose proof (status_partition items) as Hp.
  pose proof (count_nonneg (hasStatus completed) items).
  pose proof (count_nonneg (hasStatus in_progress) items).
  pose proof (count_nonneg (hasStatus not_started) items).
  pose proof (count_nonneg (hasStatus skipped) items).
  repeat split; try lia.
  - destruct (Z.ltb_spec 0 (Z.of_nat (List.length items))); [| lia].
    apply roundPercent_range; lia.
  - destruct (Z.ltb_spec 0 (Z.of_nat (List.length items))); [| lia].
    apply roundPercent_range; lia.
  - intros Hz. rewrite Hz. reflexivity.
Qed.

End Stats.

(** C1, refuted as stated: with one skipped record the three counts sum to
    0 while the total is 1. *)
Lemma stats_skipped_breaks_sum :
  exists s,
    fst (Service.getComplianceStats "T1" None
           (worldOf (trackingOnly [exampleRecord "r1" "T1" skipped None]) 0 0))
    = Ok s
    /\ total s = 1
    /\ completedCount s + inProgress s + notStarted s = 0
    /\ completedCount s + inProgress s + notStarted s <> total s.
Proof.
  eexists. split; [reflexivity |]. cbn. repeat split; discriminate.
Qed.

(** ** Status updates *)

Section StatusUpdate.
Import Service.

Lemma Status_eqb_eq a b : Status_eqb a b = true <-> a = b.
Proof. destruct a, b; cbn; split; intros; congruence. Qed.

Lemma updateComplianceStatus_run complianceId st userId notes attachments d clk n :
  updateComplianceStatus complianceId st userId notes attachments (worldOf d clk n)
  = (Ok tt,
     worldOf (with_tenantCompliance
                (updateWhere (fun r => (Compliance.id r =? complianceId)%string)
                             (applySet (updateDataOf clk st userId notes attachments)))
                d) clk n).
Proof.
  unfold updateComplianceStatus, updateDataOf. run.
  destruct (Status_eqb st completed); run; destruct notes, attachments; reflexivity.
Qed.

Lemma updateComplianceStatus_no_db complianceId st userId notes attachments clk n :
  updateComplianceStatus complianceId st userId notes attachments (mkWorld None clk n)
  = (Throw DatabaseNotAvailable, mkWorld None clk n).
Proof. reflexivity. Qed.

Lemma applySet_updatedRow clk st userId notes attachments r :
  updatedRow clk st userId notes attachments r
    (applySet (updateDataOf clk st userId notes attachments) r).
Proof.
  unfold updatedRow, applySet, updateDataOf.
  cbn [Compliance.id Compliance.tenantId Compliance.checklistId Compliance.itemId
       Compliance.nextDueDate Compliance.reminderSent Compliance.createdAt
       Compliance.status Compliance.updatedAt Compliance.completedAt
       Compliance.completedBy Compliance.notes Compliance.attachments
       set_status set_updatedAt set_completedAt set_completedBy set_notes
       set_attachments].
  repeat split; try reflexivity.
  - apply Status_eqb_eq in H. rewrite H. reflexivity.
  - apply Status_eqb_eq in H. rewrite H. reflexivity.
  - destruct (Status_eqb st completed) eqn:E; [apply Status_eqb_eq in E; contradiction |].
    reflexivity.
  - destruct (Status_eqb st completed) eqn:E; [apply Status_eqb_eq in E; contradiction |].
    reflexivity.
Qed.

(** C9.  A status update on a world with a database succeeds, leaves the
    clock, the identifier supply and every other table as they are, and
    rewrites the tracking table row by row: a row whose key is not the given
    one is unchanged; a row with the given key gets the new status and
    update time, the completion stamps only when the new status is
    [completed], and new notes or attachments only when they are given;
    omitted notes and attachments keep their stored value, and no other
    column changes. *)
Theorem updateComplianceStatus_frame
    complianceId st userId notes attachments d clk n :
  exists d',
    updateComplianceStatus complianceId st userId notes attachments (worldOf d clk n)
    = (Ok tt, worldOf d' clk n)
    /\ complianceChecklists d' = complianceChecklists d
    /\ complianceReminders d' = complianceReminders d
    /\ tenants d' = tenants d
    /\ userTenants d' = userTenants d
    /\ tenantModules d' = tenantModules d
    /\ Forall2 (fun r r' =>
                 (Compliance.id r <> complianceId -> r' = r)
                 /\ (Compliance.id r = complianceId ->
                     updatedRow clk st userId notes attachments r r'))
              (tenantCompliance d) (tenantCompliance d').
Proof.
  eexists. split; [apply updateComplianceStatus_run |].
  cbn [with_tenantCompliance complianceChecklists complianceReminders tenants
       userTenants tenantModules tenantCompliance].
  repeat split.
  unfold updateWhere.
  induction (tenantCompliance d) as [| r rows IH]; cbn [map]; constructor; trivial.
  destruct (String.eqb_spec (Compliance.id r) complianceId) as [E | E]; split;
    intros; try contradiction; try reflexivity.
  apply applySet_updatedRow.
Qed.

End StatusUpdate.

(** ** The status procedure of the router *)

Section RouterUpdate.
Import Service.

Lemma getTenantForUser_world userId tenantId w :
  snd (Router.getTenantForUser userId tenantId w) = w.
Proof.
  unfold Router.getTenantForUser. run.
  destruct (db w) as [d |]; [| reflexivity].
  destruct (firstn 1 (filter _ (tenants d))); [reflexivity |].
  destruct (firstn 1 (filter _ (userTenants d))); reflexivity.
Qed.

Lemma authorized_run userId tenantId w :
  authorized userId tenantId w ->
  exists membership,
    Router.getTenantForUser userId tenantId w = (Ok (Some membership), w).
Proof.
  intros [m Hm]. exists m.
  rewrite (surjective_pairing (Router.getTenantForUser userId tenantId w)).
  rewrite Hm, getTenantForUser_world. reflexivity.
Qed.

Lemma authorized_db userId tenantId w :
  authorized userId tenantId w -> exists d, db w = Some d.
Proof.
  intros [m Hm]. unfold Router.getTenantForUser in Hm. revert Hm. run.
  destruct (db w) as [d |]; [eauto | discriminate].
Qed.

Lemma updateStatus_authorized userId tenantId cid st notes attachments w :
  authorized userId tenantId w ->
  Router.updateStatus userId
    (Router.mkUpdateStatusInput tenantId cid st notes attachments) w
  = (Ok true, snd (updateComplianceStatus cid st userId notes attachments w)).
Proof.
  intros Ha. destruct (authorized_db _ _ _ Ha) as [d Hd].
  destruct (authorized_run _ _ _ Ha) as [m Hm].
  unfold Router.updateStatus.
  cbn [Router.in_tenantId Router.in_complianceId Router.in_status
       Router.in_notes Router.in_attachments].
  unfold bind at 1. rewrite Hm.
  destruct w as [dbo clk n]. cbn [db] in Hd. subst dbo.
  change (mkWorld (Some d) clk n) with (worldOf d clk n).
  unfold bind at 1. rewrite updateComplianceStatus_run. reflexivity.
Qed.

Lemma updateWhere_rows st userId notes attachments cid clk rows :
  Forall2 (fun r r' =>
             (Compliance.id r <> cid -> r' = r)
             /\ (Compliance.id r = cid ->
                 updatedRow clk st userId notes attachments r r'))
          rows
          (updateWhere (fun r => (Compliance.id r =? cid)%string)
             (applySet (updateDataOf clk st userId notes attachments)) rows).
Proof.
  unfold updateWhere.
  induction rows as [| r rows IH]; cbn [map]; constructor; trivial.
  destruct (String.eqb_spec (Compliance.id r) cid) as [E | E]; split;
    intros; try contradiction; try reflexivity.
  apply applySet_updatedRow.
Qed.

Lemma Forall2_In_l {A B} (R : A -> B -> Prop) l l' x :
  Forall2 R l l' -> In x l -> exists y, In y l' /\ R x y.
Proof.
  induction 1 as [| a b l l' Hab _ IH]; intros Hin; [destruct Hin |].
  destruct Hin as [<- | Hin].
  - exists b. split; [left; reflexivity | exact Hab].
  - destruct (IH Hin) as (y & Hy & HR). exists y. split; [right; exact Hy | exact HR].
Qed.

(** C6.  The status procedure reads the tenant named in its input only in
    the membership check.  For a caller who passes that check for two
    tenants, the two runs that differ only in the named tenant return the
    same result and leave the same world; the call succeeds, and the world
    is the one that the service call leaves.  Its tracking table is
    rewritten at the rows selected by the record key alone: a row with
    another key is unchanged, and a row with the given key gets the new
    status, update time and, when completed, the stamps of the caller,
    whichever tenant it belongs to.  So a stored record with the given key
    that belongs to a tenant other than the one named, and for which
    nothing says that the caller is a member, is rewritten all the same:
    no check of ownership stands in the way. *)
Theorem updateStatus_tenant_blind
    userId cid st notes attachments tenant1 tenant2 w :
  authorized userId tenant1 w ->
  authorized userId tenant2 w ->
  let run tenantId :=
    Router.updateStatus userId
      (Router.mkUpdateStatusInput tenantId cid st notes attachments) w in
  run tenant1 = run tenant2
  /\ fst (run tenant1) = Ok true
  /\ snd (run tenant1)
     = snd (updateComplianceStatus cid st userId notes attachments w)
  /\ tracking (snd (run tenant1))
     = updateWhere (fun r => (Compliance.id r =? cid)%string)
         (applySet (updateDataOf (clock w) st userId notes attachments))
         (tracking w)
  /\ Forall2 (fun r r' =>
                (Compliance.id r <> cid -> r' = r)
                /\ (Compliance.id r = cid ->
                    updatedRow (clock w) st userId notes attachments r r'))
             (tracking w) (tracking (snd (run tenant1)))
  /\ (forall r,
         In r (tracking w) -> Compliance.id r = cid ->
         Compliance.tenantId r <> tenant1 ->
         exists r',
           In r' (tracking (snd (run tenant1)))
           /\ Compliance.tenantId r' = Compliance.tenantId r
           /\ Compliance.status r' = st
           /\ Compliance.updatedAt r' = Some (Some (clock w))
           /\ updatedRow (clock w) st userId notes attachments r r').
Proof.
  intros H1 H2. cbv beta zeta.
  rewrite (updateStatus_authorized _ tenant1 _ _ _ _ _ H1).
  rewrite (updateStatus_authorized _ tenant2 _ _ _ _ _ H2).
  split; [reflexivity |]. split; [reflexivity |]. split; [reflexivity |].
  destruct (authorized_db _ _ _ H1) as [d Hd].
  destruct w as [dbo clk n]. cbn [db] in Hd. subst dbo.
  change (mkWorld (Some d) clk n) with (worldOf d clk n).
  rewrite updateComplianceStatus_run. unfold tracking, worldOf.
  cbn [snd clock db with_tenantCompliance tenantCompliance].
  pose proof (updateWhere_rows st userId notes attachments cid clk (tenantCompliance d))
    as Hrows.
  split; [reflexivity |]. split; [exact Hrows |].
  intros r Hin Hid _.
  destruct (Forall2_In_l _ _ _ r Hrows Hin) as (r' & Hin' & _ & Hupd).
  specialize (Hupd Hid). exists r'. split; [exact Hin' |].
  pose proof Hupd as (_ & Ht & _ & _ & _ & _ & _ & Hst & Hat & _).
  split; [exact Ht |]. split; [exact Hst |]. split; [exact Hat | exact Hupd].
Qed.

End RouterUpdate.

Lemma updateStatus_tenant_blind_witness :
  let w := worldOf threeTenants 1000 0 in
  let run tenantId :=
    Router.updateStatus "U"
      (Router.mkUpdateStatusInput tenantId "r1" completed None None) w in
  authorized "U" "A" w /\ authorized "U" "C" w
  /\ run "A"%string = run "C"%string
  /\ exists r r',
       In r (tracking w) /\ Compliance.tenantId r = "B"%string
       /\ Compliance.status r = not_started
       /\ In r' (tracking (snd (run "A"%string)))
       /\ Compliance.tenantId r' = "B"%string
       /\ Compliance.status r' = completed.
Proof.
  cbv beta zeta.
  assert (Ha : authorized "U" "A" (worldOf threeTenants 1000 0))
    by (eexists; reflexivity).
  assert (Hc : authorized "U" "C" (worldOf threeTenants 1000 0))
    by (eexists; reflexivity).
  split; [exact Ha |]. split; [exact Hc |].
  destruct (updateStatus_tenant_blind "U" "r1" completed None None "A" "C"
              (worldOf threeTenants 1000 0) Ha Hc)
    as (Hsame & _ & _ & _ & _ & Hcross).
  split; [exact Hsame |].
  destruct (Hcross (exampleRecord "r1" "B" not_started None))
    as (r' & Hin' & Ht & Hst & _).
  - left. reflexivity.
  - reflexivity.
  - discriminate.
  - exists (exampleRecord "r1" "B" not_started None), r'.
    split; [left; reflexivity |]. split; [reflexivity |]. split; [reflexivity |].
    split; [exact Hin' |]. split; [exact Ht | exact Hst].
Defined.

(** A member of tenant [A] alone passes the check for [A] and completes a
    record that belongs to tenant [B]. *)
Example cross_tenant_update :
  let w := worldOf threeTenants 1000 0 in
  let w' := snd (Router.updateStatus "U"
                   (Router.mkUpdateStatusInput "A" "r1" completed None None) w) in
  map Compliance.tenantId (tracking w') = ["B"%string]
  /\ map Compliance.status (tracking w) = [not_started]
  /\ map Compliance.status (tracking w') = [completed]
  /\ map Compliance.completedBy (tracking w') = [Some "U"%string]
  /\ fst (Router.updateStatus "U"
            (Router.mkUpdateStatusInput "B" "r1" completed None None) w)
     = Throw Unauthorized.
Proof. cbv zeta. repeat split. Qed.

(** ** Tracking initialization *)

Section Initialization.
Context {rt : Runtime}.
Import Service.

Lemma newRecord_run tenantId checklistId item dbo clk n :
  newRecord tenantId checklistId item (mkWorld dbo clk n)
  = (Ok (expectedRecord tenantId checklistId clk n item), mkWorld dbo clk (S n)).
Proof.
  unfold newRecord, expectedRecord, dueOf, truthyOpt, truthy, DateObj.newDateOfString.
  destruct (Checklist.dueDate item) as [s |]; [| reflexivity].
  unfold bind, ret, newId, newDate. cbn [db clock drawn].
  destruct (s =? "")%string; reflexivity.
Qed.

Lemma forItems_run tenantId checklistId items : forall dbo clk n,
  forItems tenantId checklistId items (mkWorld dbo clk n)
  = (Ok (expectedRecords tenantId checklistId clk n items),
     mkWorld dbo clk (n + List.length items)).
Proof.
  induction items as [| item rest IH]; intros dbo clk n.
  - cbn. rewrite Nat.add_0_r. reflexivity.
  - cbn [forItems expectedRecords List.length].
    unfold bind at 1. rewrite newRecord_run.
    unfold bind at 1. rewrite IH. unfold ret.
    replace (S n + List.length rest)%nat with (n + S (List.length rest))%nat by lia.
    reflexivity.
Qed.

Lemma expectedRecords_app tenantId checklistId clk l1 : forall k l2,
  expectedRecords tenantId checklistId clk k (l1 ++ l2)
  = expectedRecords tenantId checklistId clk k l1
    ++ expectedRecords tenantId checklistId clk (k + List.length l1) l2.
Proof.
  induction l1 as [| x l1 IH]; intros k l2; cbn [app expectedRecords List.length].
  - rewrite Nat.add_0_r. reflexivity.
  - rewrite IH.
    replace (S k + List.length l1)%nat with (k + S (List.length l1))%nat by lia.
    reflexivity.
Qed.

Lemma forSections_run tenantId checklistId sections : forall dbo clk n,
  forSections tenantId checklistId sections (mkWorld dbo clk n)
  = (Ok (expectedRecords tenantId checklistId clk n
           (flat_map Checklist.items sections)),
     mkWorld dbo clk (n + List.length (flat_map Checklist.items sections))).
Proof.
  induction sections as [| s rest IH]; intros dbo clk n.
  - cbn. rewrite Nat.add_0_r. reflexivity.
  - cbn [forSections flat_map].
    unfold bind at 1. rewrite forItems_run.
    unfold bind at 1. rewrite IH. unfold ret.
    rewrite expectedRecords_app, length_app, Nat.add_assoc. reflexivity.
Qed.

Lemma expectedRecords_length tenantId checklistId clk items : forall k,
  List.length (expectedRecords tenantId checklistId clk k items) = List.length items.
Proof. induction items; intros k; cbn; auto. Qed.

Lemma expectedRecords_createdFor tenantId checklistId clk items : forall k,
  Forall2 (createdFor tenantId checklistId) items
          (expectedRecords tenantId checklistId clk k items).
Proof.
  induction items as [| item rest IH]; intros k; cbn [expectedRecords];
    constructor; auto.
  unfold createdFor, expectedRecord. cbn. repeat split.
Qed.

Lemma limit_one_find {A} (p : A -> bool) l :
  firstn 1 (filter p l) = match find p l with Some x => [x] | None => [] end.
Proof.
  induction l as [| x l IH]; [reflexivity |].
  cbn [filter find]. destruct (p x); [reflexivity | exact IH].
Qed.

Lemma storable_expectedRecords tenantId checklistId clk items : forall k,
  forallb storable (expectedRecords tenantId checklistId clk k items)
  = forallb dueDateParses items.
Proof.
  induction items as [| item rest IH]; intros k; [reflexivity |].
  cbn [expectedRecords forallb]. rewrite IH. f_equal.
  unfold storable, expectedRecord, dueOf, dueDateParses.
  cbn [Compliance.completedAt Compliance.nextDueDate Compliance.createdAt
       Compliance.updatedAt validTimestamp andb].
  destruct (Checklist.dueDate item) as [s |]; [| reflexivity].
  destruct (s =? "")%string; [reflexivity |].
  destruct (parseDate s); reflexivity.
Qed.

Lemma initializeTenantCompliance_run tenantId checklistId d clk n :
  initializeTenantCompliance tenantId checklistId (worldOf d clk n)
  = match find (fun c => (Checklist.rid c =? checklistId)%string)
               (complianceChecklists d) with
    | None => (Throw ChecklistNotFound, worldOf d clk n)
    | Some cl =>
        let records := expectedRecords tenantId checklistId clk n (itemsOf cl) in
        if forallb dueDateParses (itemsOf cl)
        then (Ok tt,
              worldOf (if (0 <? List.length records)%nat
                       then with_tenantCompliance (fun rows => rows ++ records) d
                       else d)
                      clk (n + List.length (itemsOf cl)))
        else (Throw InvalidTimeValue,
              worldOf d clk (n + List.length (itemsOf cl)))
    end.
Proof.
  unfold initializeTenantCompliance. run. rewrite limit_one_find.
  destruct (find _ (complianceChecklists d)) as [cl |]; [| reflexivity].
  change (mkWorld (Some d) clk n) with (worldOf d clk n) at 1.
  unfold worldOf at 1. rewrite forSections_run. fold (itemsOf cl). cbv zeta.
  unfold insertTenantCompliance. rewrite storable_expectedRecords.
  destruct (0 <? List.length _)%nat eqn:Hpos.
  - destruct (forallb dueDateParses (itemsOf cl)); reflexivity.
  - rewrite expectedRecords_length in Hpos.
    destruct (itemsOf cl); [reflexivity | discriminate].
Qed.

Lemma expectedRecords_storable tenantId checklistId clk items k :
  forallb dueDateParses items = true ->
  Forall (fun r => Compliance.nextDueDate r <> Some None)
         (expectedRecords tenantId checklistId clk k items).
Proof.
  intros H. rewrite <- (storable_expectedRecords tenantId checklistId clk items k) in H.
  rewrite forallb_forall in H. rewrite Forall_forall. intros r Hr E.
  specialize (H r Hr). unfold storable in H. rewrite E in H.
  cbn [validTimestamp] in H. rewrite andb_false_r in H. discriminate.
Qed.

(** C3 (as the code has it).  On a world with a database,
    [initializeTenantCompliance] throws 'Checklist not found' and changes
    nothing when no template has the given key.  Otherwise it looks at the
    first template with that key.  When each of its items has a due-date
    text that is absent, empty or read as a date by the runtime, the call
    succeeds and appends to the tracking table one record per item, in the
    order of the sections and items: as many records as items, each for the
    given tenant and checklist, with the item key, status [not_started], no
    completion stamp, notes or attachments, and with the date of the item's
    [dueDate] text as next due date when that text is present and not
    empty, and none otherwise; the other tables are unchanged.  When some
    item has a due-date text that is not empty and is no date, the insert
    throws 'Invalid time value' and the tables are left as they were: no
    record is created. *)
Theorem initializeTenantCompliance_spec tenantId checklistId d clk n :
  match find (fun c => (Checklist.rid c =? checklistId)%string)
             (complianceChecklists d) with
  | None =>
      initializeTenantCompliance tenantId checklistId (worldOf d clk n)
      = (Throw ChecklistNotFound, worldOf d clk n)
  | Some cl =>
      if forallb dueDateParses (itemsOf cl)
      then
        exists d' records,
          initializeTenantCompliance tenantId checklistId (worldOf d clk n)
          = (Ok tt, worldOf d' clk (n + List.length (itemsOf cl)))
          /\ tenantCompliance d' = tenantCompliance d ++ records
          /\ List.length records = List.length (itemsOf cl)
          /\ Forall2 (createdFor tenantId checklistId) (itemsOf cl) records
          /\ Forall (fun r => Compliance.nextDueDate r <> Some None) records
          /\ complianceChecklists d' = complianceChecklists d
          /\ complianceReminders d' = complianceReminders d
          /\ tenants d' = tenants d
          /\ userTenants d' = userTenants d
          /\ tenantModules d' = tenantModules d
      else
        initializeTenantCompliance tenantId checklistId (worldOf d clk n)
        = (Throw InvalidTimeValue, worldOf d clk (n + List.length (itemsOf cl)))
        /\ exists item s,
             In item (itemsOf cl) /\ Checklist.dueDate item = Some s
             /\ s <> ""%string /\ parseDate s = None
  end.
Proof.
  rewrite initializeTenantCompliance_run.
  destruct (find _ (complianceChecklists d)) as [cl |]; [| reflexivity].
  cbv zeta.
  destruct (forallb dueDateParses (itemsOf cl)) eqn:Hparse.
  - set (records := expectedRecords tenantId checklistId clk n (itemsOf cl)).
    pose proof (expectedRecords_length tenantId checklistId clk (itemsOf cl) n) as Hlen.
    pose proof (expectedRecords_createdFor tenantId checklistId clk (itemsOf cl) n) as Hrec.
    pose proof (expectedRecords_storable tenantId checklistId clk (itemsOf cl) n Hparse)
      as Hvalid.
    fold records in Hlen, Hrec, Hvalid.
    destruct (Nat.ltb_spec 0 (List.length records)) as [Hpos | Hzero].
    + exists (with_tenantCompliance (fun rows => rows ++ records) d), records.
      cbn. repeat split; trivial.
    + exists d, records.
      assert (records = []) as -> by (destruct records; [reflexivity | cbn in Hzero; lia]).
      rewrite app_nil_r. repeat split; trivial.
  - split; [reflexivity |].
    assert (Hex : existsb (fun item => negb (dueDateParses item)) (itemsOf cl) = true).
    { induction (itemsOf cl) as [| item rest IH]; [discriminate |].
      cbn [forallb existsb] in *. destruct (dueDateParses item); cbn [negb andb orb] in *;
        [apply IH; exact Hparse | reflexivity]. }
    apply existsb_exists in Hex. destruct Hex as (item & Hin & Hitem).
    unfold dueDateParses in Hitem.
    destruct (Checklist.dueDate item) as [s |] eqn:Hs; [| discriminate].
    exists item, s. split; [exact Hin |]. split; [exact Hs |].
    destruct (String.eqb_spec s ""); [discriminate |].
    destruct (parseDate s); [discriminate |]. split; [assumption | reflexivity].
Qed.

End Initialization.

(** C3, refuted as stated: the template [CL2] resolves and has two items,
    the second with a due-date text that is no date; the call throws and
    creates no tracking record, not one per item. *)
Lemma initialize_unparsable_dueDate :
  let w := worldOf looseTemplateOnly 0 0 in
  let run := Service.initializeTenantCompliance (rt := ExampleRuntime.utc)
               "T1" "CL2" w in
  find (fun c => (Checklist.rid c =? "CL2")%string) (complianceChecklists looseTemplateOnly)
  = Some looseTemplate
  /\ map Checklist.dueDate (itemsOf looseTemplate)
     = [Some "2025-01-31"%string; Some "not-a-date"%string]
  /\ fst run = Throw InvalidTimeValue
  /\ tracking (snd run) = []
  /\ ~ (fst run = Ok tt
        /\ List.length (tracking (snd run)) = List.length (itemsOf looseTemplate)).
Proof.
  cbv zeta. repeat split. intros [H _]. discriminate.
Qed.

(** An item whose [dueDate] is present but is the empty text gets no due
    date. *)
Example initialize_empty_dueDate :
  let w' := snd (Service.initializeTenantCompliance (rt := ExampleRuntime.utc)
                   "T1" "CL1" (worldOf templateOnly 0 0)) in
  map Checklist.dueDate (itemsOf exampleTemplate)
  = [Some ""%string; Some "2025-01-31"%string; None]
  /\ map Compliance.nextDueDate (tracking w')
     = [None; Some (Some 1738281600000); None].
Proof. cbv zeta. repeat split. Qed.

(** ** The completion stamps along the life of a record *)

Create HintDb keeps.

Section Lifecycle.
Context {rt : Runtime}.
Import Service.

Lemma keeps_ret {A} (a : A) : keepsTracking (ret a).
Proof. intros w. reflexivity. Qed.

Lemma keeps_throw {A} e : keepsTracking (@throw A e).
Proof. intros w. reflexivity. Qed.

Lemma keeps_bind {A B} (c : M A) (k : A -> M B) :
  keepsTracking c -> (forall a, keepsTracking (k a)) -> keepsTracking (bind c k).
Proof.
  intros Hc Hk w. unfold bind. specialize (Hc w).
  destruct (c w) as [[a | e] w1]; cbn [snd] in *; [| exact Hc].
  rewrite Hk. exact Hc.
Qed.

Lemma keeps_getDb : keepsTracking getDb.
Proof. intros w. unfold getDb. destruct (db w); reflexivity. Qed.

Lemma keeps_newDate : keepsTracking newDate.
Proof. intros w. reflexivity. Qed.

Lemma keeps_newId : keepsTracking newId.
Proof. intros w. reflexivity. Qed.

Lemma keeps_execute f :
  (forall d, tenantCompliance (f d) = tenantCompliance d) ->
  keepsTracking (execute f).
Proof.
  intros Hf w. unfold execute, tracking. cbn [snd db].
  destruct (db w); cbn [option_map]; auto.
Qed.

#[local] Hint Resolve keeps_ret keeps_throw keeps_getDb keeps_newDate keeps_newId : keeps.

Ltac keeps :=
  repeat first
    [ apply keeps_bind; [| intros ?]
    | apply keeps_execute; intros ?; reflexivity
    | solve [auto with keeps] ].

Lemma keeps_upsert data : keepsTracking (upsertComplianceChecklist data).
Proof. unfold upsertComplianceChecklist. keeps. Qed.

Lemma keeps_scheduleReminder t c ty at_ msg meta :
  keepsTracking (scheduleReminder t c ty at_ msg meta).
Proof. unfold scheduleReminder. destruct (validTimestamp (Some at_)); keeps. Qed.

Lemma keeps_markReminderSent rid : keepsTracking (markReminderSent rid).
Proof. unfold markReminderSent. keeps. Qed.

Lemma keeps_forQuarters t c now quarters :
  keepsTracking (forQuarters t c now quarters).
Proof.
  induction quarters as [| q rest IH]; cbn [forQuarters]; [apply keeps_ret |].
  apply keeps_bind; [| intros _; exact IH].
  destruct (DateObj.dateGt (qdate q) now); [| apply keeps_ret].
  destruct (qdate q); [| apply keeps_throw].
  apply keeps_bind; [apply keeps_scheduleReminder | intros _; apply keeps_ret].
Qed.

Lemma keeps_quarterly t c : keepsTracking (scheduleQuarterlyTaxReminders t c).
Proof.
  unfold scheduleQuarterlyTaxReminders.
  apply keeps_bind; [apply keeps_newDate | intros today].
  apply keeps_bind; [apply keeps_newDate | intros now].
  apply keeps_forQuarters.
Qed.

Lemma expectedRecords_consistent t c clk items : forall k,
  Forall completionConsistent (expectedRecords t c clk k items).
Proof.
  induction items as [| item rest IH]; intros k; cbn [expectedRecords];
    constructor; auto.
  unfold completionConsistent, expectedRecord. cbn. split; [discriminate | tauto].
Qed.

Lemma applySet_consistent clk st userId notes attachments r :
  completionConsistent r ->
  completionConsistent (applySet (updateDataOf clk st userId notes attachments) r).
Proof.
  unfold completionConsistent, stamped, applySet, updateDataOf.
  cbn [Compliance.status Compliance.completedAt Compliance.completedBy
       set_status set_completedAt set_completedBy orKeep].
  intros [Hc Hiff].
  destruct (Status_eqb st completed) eqn:E.
  - repeat split; intros; discriminate.
  - split; [| exact Hiff].
    intros ->. discriminate.
Qed.

Lemma tracking_worldOf d clk n : tracking (worldOf d clk n) = tenantCompliance d.
Proof. reflexivity. Qed.

Lemma perform_consistent c w :
  Forall completionConsistent (tracking w) ->
  Forall completionConsistent (tracking (perform c w)).
Proof.
  intros Hw. destruct c as [data | t c | cid st u notes atts | t c ty at_ msg meta
                          | rid | t c]; cbn [perform].
  - rewrite keeps_upsert. exact Hw.
  - destruct w as [[d |] clk n]; [| exact Hw].
    change (mkWorld (Some d) clk n) with (worldOf d clk n) in *.
    rewrite initializeTenantCompliance_run.
    destruct (find _ (complianceChecklists d)) as [cl |]; [| exact Hw].
    cbv zeta. destruct (forallb dueDateParses (itemsOf cl)); [| exact Hw].
    cbn [snd]. rewrite tracking_worldOf in *.
    destruct (0 <? List.length _)%nat; [| exact Hw].
    cbn [with_tenantCompliance tenantCompliance].
    apply Forall_app. split; [exact Hw | apply expectedRecords_consistent].
  - destruct w as [[d |] clk n]; [| exact Hw].
    change (mkWorld (Some d) clk n) with (worldOf d clk n) in *.
    rewrite updateComplianceStatus_run. cbn [snd]. rewrite tracking_worldOf in *.
    cbn [with_tenantCompliance tenantCompliance]. unfold updateWhere.
    apply Forall_map. revert Hw. apply Forall_impl. intros r Hr.
    destruct (Compliance.id r =? cid)%string; [| exact Hr].
    apply applySet_consistent, Hr.
  - rewrite keeps_scheduleReminder. exact Hw.
  - rewrite keeps_markReminderSent. exact Hw.
  - rewrite keeps_quarterly. exact Hw.
Qed.

Lemma step_consistent w w' :
  step w w' ->
  Forall completionConsistent (tracking w) ->
  Forall completionConsistent (tracking w').
Proof.
  intros [c w0 | clk w0] Hw; [apply perform_consistent, Hw | exact Hw].
Qed.

Lemma reachable_consistent w :
  reachable w -> Forall completionConsistent (tracking w).
Proof.
  induction 1 as [w Hw | w w' _ IH Hstep].
  - rewrite Hw. constructor.
  - eapply step_consistent; eauto.
Qed.

(** C2 (as the code has it).  In every world that the service reaches from
    a world without tracking records, by its calls and the passing of time,
    every tracking record that is completed carries both completion stamps,
    and a record carries either both stamps or none.  (The converse does
    not hold: a record that was completed and then moved to another status
    keeps its stamps.) *)
Theorem completion_stamps_invariant w r :
  reachable w -> In r (tracking w) -> completionConsistent r.
Proof.
  intros Hw Hr. pose proof (reachable_consistent w Hw) as Hall.
  rewrite Forall_forall in Hall. auto.
Qed.

End Lifecycle.

Lemma lifeCompleted_reachable : reachable (rt := ExampleRuntime.utc) lifeCompleted.
Proof.
  unfold lifeCompleted, lifeInitialized.
  eapply reachable_step; [| apply step_call].
  eapply reachable_step; [| apply step_time].
  eapply reachable_step; [| apply step_call].
  apply reachable_start. reflexivity.
Defined.

Lemma lifeReopened_reachable : reachable (rt := ExampleRuntime.utc) lifeReopened.
Proof.
  unfold lifeReopened.
  eapply reachable_step; [| apply step_call].
  eapply reachable_step; [| apply step_time].
  apply lifeCompleted_reachable.
Defined.

Lemma completion_stamps_invariant_witness :
  exists r,
    reachable (rt := ExampleRuntime.utc) lifeCompleted
    /\ In r (tracking lifeCompleted)
    /\ Compliance.status r = completed
    /\ completionConsistent r.
Proof.
  eexists. split; [apply lifeCompleted_reachable |].
  split; [left; reflexivity |]. split; [reflexivity |].
  apply (completion_stamps_invariant (rt := ExampleRuntime.utc) lifeCompleted).
  - apply lifeCompleted_reachable.
  - left. reflexivity.
Defined.

(** C2, refuted as stated: after initialization, completion and reopening,
    the record is in progress and still carries both completion stamps. *)
Lemma reopened_record_keeps_stamps :
  exists r,
    reachable (rt := ExampleRuntime.utc) lifeReopened
    /\ In r (tracking lifeReopened)
    /\ Compliance.status r = in_progress
    /\ Compliance.completedAt r = Some (Some 5000)
    /\ Compliance.completedBy r = Some "U1"%string
    /\ ~ (stamped r <-> Compliance.status r = completed).
Proof.
  eexists. split; [apply lifeReopened_reachable |].
  split; [left; reflexivity |].
  cbn. repeat split.
  intros [Hst _]. assert (in_progress = completed); [| discriminate].
  apply Hst. split; discriminate.
Qed.

(** ** Template insertion *)

Section Upsert.
Context {rt : Runtime}.
Import Service.

Lemma upsertComplianceChecklist_run data d clk n :
  upsertComplianceChecklist data (worldOf d clk n)
  = (Ok (nanoid n),
     worldOf (with_complianceChecklists
                (fun rows => rows ++ [Checklist.mkRow (nanoid n) data
                                        (Some (Some clk)) (Some (Some clk))]) d)
             clk (S n)).
Proof. reflexivity. Qed.

(** C7 (as the code has it).  [upsertComplianceChecklist] looks at no item
    key.  On a world with a database it returns a freshly drawn key and
    appends one row with that key and the given definition to the template
    table, and it changes no stored row and no other table, whether or not
    two items of the definition share a key.  Without a database it throws
    'Database not available' and changes nothing. *)
Theorem upsertComplianceChecklist_appends data clk n :
  (forall d,
      exists d',
        upsertComplianceChecklist data (worldOf d clk n)
        = (Ok (nanoid n), worldOf d' clk (S n))
        /\ complianceChecklists d'
           = complianceChecklists d
             ++ [Checklist.mkRow (nanoid n) data (Some (Some clk)) (Some (Some clk))]
        /\ tenantCompliance d' = tenantCompliance d
        /\ complianceReminders d' = complianceReminders d
        /\ tenants d' = tenants d
        /\ userTenants d' = userTenants d
        /\ tenantModules d' = tenantModules d)
  /\ upsertComplianceChecklist data (mkWorld None clk n)
     = (Throw DatabaseNotAvailable, mkWorld None clk n).
Proof.
  split; [| reflexivity].
  intros d. eexists. split; [apply upsertComplianceChecklist_run |].
  repeat split.
Qed.

End Upsert.

(** C7, refuted as stated: a definition whose two items share the key [A1]
    is inserted, and the call returns the new key. *)
Lemma upsert_accepts_duplicate_ids :
  sharesItemId duplicateTemplate
  /\ fst (Service.upsertComplianceChecklist (rt := ExampleRuntime.utc)
            duplicateTemplate (worldOf emptyDatabase 0 0))
     = Ok "id0"%string
  /\ option_map (fun d => map Checklist.rdata (complianceChecklists d))
       (db (snd (Service.upsertComplianceChecklist (rt := ExampleRuntime.utc)
                   duplicateTemplate (worldOf emptyDatabase 0 0))))
     = Some [duplicateTemplate].
Proof.
  split; [| split; reflexivity].
  unfold sharesItemId. cbn. intros H. inversion H as [| x l Hin _]; subst.
  apply Hin. left. reflexivity.
Qed.

(** ** Marking a reminder as sent *)

Section MarkSent.
Import Service.

Lemma markReminderSent_run reminderId d clk n :
  markReminderSent reminderId (worldOf d clk n)
  = (Ok tt,
     worldOf (with_complianceReminders
                (updateWhere (fun r => (Reminder.id r =? reminderId)%string)
                             (markSentRow (Some clk))) d)
             clk n).
Proof. reflexivity. Qed.

Lemma markSentRow_twice now1 now2 r :
  markSentRow now2 (markSentRow now1 r) = markSentRow now2 r.
Proof. reflexivity. Qed.

Lemma updateWhere_markSent_twice reminderId now1 now2 rows :
  updateWhere (fun r => (Reminder.id r =? reminderId)%string) (markSentRow now2)
    (updateWhere (fun r => (Reminder.id r =? reminderId)%string)
                 (markSentRow now1) rows)
  = updateWhere (fun r => (Reminder.id r =? reminderId)%string)
                (markSentRow now2) rows.
Proof.
  unfold updateWhere. rewrite map_map. apply map_ext. intros r.
  destruct (Reminder.id r =? reminderId)%string eqn:E.
  - cbn [markSentRow Reminder.id]. rewrite E. reflexivity.
  - rewrite E. reflexivity.
Qed.


End MarkSent.


(** ** Recurrence *)

Section CalendarFacts.
Import JSDate JSDateFacts.

Lemma LeapFlag_days y : DaysInYear y = 365 + LeapFlag y.
Proof.
  unfold LeapFlag. destruct (DaysInYear_cases y) as [E | E]; rewrite E; reflexivity.
Qed.

Lemma LeapFlag_cases y : LeapFlag y = 0 \/ LeapFlag y = 1.
Proof.
  unfold LeapFlag. destruct (DaysInYear_cases y) as [E | E]; rewrite E; auto.
Qed.

(** The calendar fields of a day of a month: [MakeDay] finds the day that
    [YearFromTime], [MonthFromTime] and [DateFromTime] read back. *)
Lemma fields_of_day y m dd tm :
  0 <= m <= 11 -> 1 <= dd <= DaysInMonth y m -> 0 <= tm < msPerDay ->
  let t := MakeDate (firstOfMonth y m + (dd - 1)) tm in
  YearFromTime t = y /\ MonthFromTime t = m /\ DateFromTime t = dd
  /\ TimeWithinDay t = tm.
Proof.
  intros Hm Hdd Htm t.
  pose proof (LeapFlag_days y) as Hdays.
  pose proof (LeapFlag_cases y) as Hl.
  assert (Hday : Day t = firstOfMonth y m + (dd - 1))
    by (apply Day_MakeDate; exact Htm).
  assert (Hwithin : TimeWithinDay t = tm)
    by (apply TimeWithinDay_MakeDate; exact Htm).
  assert (Ht : t = (firstOfMonth y m + (dd - 1)) * msPerDay + tm) by reflexivity.
  clearbody t.
  assert (Hoff : 0 <= DaysBeforeMonth m (LeapFlag y) + (dd - 1) < DaysInYear y).
  { assert (Hc : m = 0 \/ m = 1 \/ m = 2 \/ m = 3 \/ m = 4 \/ m = 5 \/ m = 6
                 \/ m = 7 \/ m = 8 \/ m = 9 \/ m = 10 \/ m = 11) by lia.
    unfold DaysInMonth in Hdd.
    repeat (destruct Hc as [-> | Hc]; [cbn [DaysBeforeMonth] in *; lia |]).
    subst m. cbn [DaysBeforeMonth] in *. lia. }
  assert (Hy : YearFromTime t = y).
  { apply YearFromTime_unique. unfold TimeFromYear.
    rewrite DayFromYear_succ.
    unfold firstOfMonth in Ht. unfold msPerDay in *. nia. }
  assert (Hdwy : DayWithinYear t = DaysBeforeMonth m (LeapFlag y) + (dd - 1)).
  { unfold DayWithinYear. rewrite Hy, Hday. unfold firstOfMonth. lia. }
  assert (Hleap : InLeapYear t = LeapFlag y).
  { rewrite <- LeapFlag_InLeapYear, Hy. reflexivity. }
  assert (Hmonth : MonthFromTime t = m).
  { unfold MonthFromTime. rewrite Hdwy, Hleap.
    assert (Hc : m = 0 \/ m = 1 \/ m = 2 \/ m = 3 \/ m = 4 \/ m = 5 \/ m = 6
                 \/ m = 7 \/ m = 8 \/ m = 9 \/ m = 10 \/ m = 11) by lia.
    unfold DaysInMonth in Hdd.
    repeat (destruct Hc as [-> | Hc];
            [cbn [DaysBeforeMonth] in *;
             repeat match goal with
                    | |- context [?a <? ?b] => destruct (Z.ltb_spec a b); try lia
                    end |]).
    subst m. cbn [DaysBeforeMonth] in *.
    repeat match goal with
           | |- context [?a <? ?b] => destruct (Z.ltb_spec a b); try lia
           end. }
  repeat split; trivial.
  - unfold DateFromTime. rewrite Hmonth, Hdwy, Hleap. clear Hmonth.
    assert (Hc : m = 0 \/ m = 1 \/ m = 2 \/ m = 3 \/ m = 4 \/ m = 5 \/ m = 6
                 \/ m = 7 \/ m = 8 \/ m = 9 \/ m = 10 \/ m = 11) by lia.
    repeat (destruct Hc as [-> | Hc]; [cbn [DaysBeforeMonth]; lia |]).
    subst m. cbn [DaysBeforeMonth]. lia.
Qed.

End CalendarFacts.

Section Recurrence.
Context {rt : Runtime}.
Import JSDate JSDateFacts DateObj Service.

Lemma MakeDay_firstOfMonth y m n dd :
  0 <= m <= 11 ->
  MakeDay y (m + n) dd
  = firstOfMonth ((12 * y + m + n) / 12) ((12 * y + m + n) mod 12) + (dd - 1).
Proof.
  intros Hm. unfold MakeDay, firstOfMonth.
  replace (12 * y + m + n) with (m + n + y * 12) by lia.
  rewrite Z.div_add, Z.mod_add by lia.
  replace (y + (m + n) / 12) with ((m + n) / 12 + y) by lia. lia.
Qed.

Lemma setMonth_addMonths d n :
  setMonth d (numAdd (getMonth d) n) = addMonths n d.
Proof.
  destruct d as [t0 |]; [| reflexivity].
  cbn [getMonth numAdd option_map setMonth addMonths].
  rewrite MakeDay_firstOfMonth by apply MonthFromTime_bounds. reflexivity.
Qed.

Lemma setFullYear_addMonths d :
  setFullYear d (numAdd (getFullYear d) 1) = addMonths 12 d.
Proof.
  destruct d as [t0 |]; [| reflexivity].
  cbn [getFullYear numAdd option_map setFullYear addMonths].
  rewrite <- MakeDay_carry_year.
  rewrite MakeDay_firstOfMonth by apply MonthFromTime_bounds. reflexivity.
Qed.

(** When the target month has the day of the month, the advanced date has
    the same day of the month and time of day, [n] months later. *)
Lemma DaysBeforeMonth_le_DayWithinYear t :
  0 <= DaysBeforeMonth (MonthFromTime t) (InLeapYear t) <= DayWithinYear t.
Proof.
  unfold MonthFromTime.
  pose proof (InLeapYear_cases t) as Hl.
  pose proof (DayWithinYear_bounds t) as Hb.
  repeat match goal with
         | |- context [?a <? ?b] => destruct (Z.ltb_spec a b)
         end; cbn [DaysBeforeMonth]; lia.
Qed.

Lemma DateFromTime_pos t : 1 <= DateFromTime t.
Proof.
  pose proof (MakeDay_fields t) as Hf.
  rewrite MakeDay_in_year, LeapFlag_InLeapYear in Hf by apply MonthFromTime_bounds.
  pose proof (DaysBeforeMonth_le_DayWithinYear t) as Hb.
  unfold DayWithinYear in Hb. lia.
Qed.

Lemma addMonths_unfold n t0 :
  addMonths n (Some t0)
  = TimeClip (UTC (MakeDate
      (firstOfMonth ((12 * YearFromTime (LocalTime t0)
                      + MonthFromTime (LocalTime t0) + n) / 12)
                    ((12 * YearFromTime (LocalTime t0)
                      + MonthFromTime (LocalTime t0) + n) mod 12)
       + (DateFromTime (LocalTime t0) - 1))
      (TimeWithinDay (LocalTime t0)))).
Proof. reflexivity. Qed.

Lemma LocalTime_UTC x : LocalTime (UTC x) = x.
Proof. unfold LocalTime, UTC. lia. Qed.

Lemma addMonths_same_day n t0 u :
  let t := LocalTime t0 in
  let k := 12 * YearFromTime t + MonthFromTime t + n in
  addMonths n (Some t0) = Some u ->
  DateFromTime t <= DaysInMonth (k / 12) (k mod 12) ->
  YearFromTime (LocalTime u) = k / 12
  /\ MonthFromTime (LocalTime u) = k mod 12
  /\ DateFromTime (LocalTime u) = DateFromTime t
  /\ TimeWithinDay (LocalTime u) = TimeWithinDay t.
Proof.
  cbv zeta. rewrite addMonths_unfold.
  generalize (LocalTime t0). intros t.
  generalize (12 * YearFromTime t + MonthFromTime t + n). intros k Hu Hdd.
  apply TimeClip_inv in Hu. destruct Hu as [Hu _]. rewrite Hu, LocalTime_UTC.
  pose proof (Z.mod_pos_bound k 12 ltac:(lia)) as Hk.
  pose proof (DateFromTime_pos t) as Hpos.
  pose proof (TimeWithinDay_bounds t) as Htm.
  exact (fields_of_day (k / 12) (k mod 12) (DateFromTime t) (TimeWithinDay t)
           ltac:(lia) (conj Hpos Hdd) Htm).
Qed.


End Recurrence.

(** From February 29, 2024 a year on is March 1, 2025, as twelve months
    on; from January 31, 2025 a month on is March 3, 2025. *)
Example leap_day_annually :
  let feb29 := Some (ExampleRuntime.utcMidnight 2024 2 29) in
  fst (Service.calculateNextDueDate (rt := ExampleRuntime.utc) annually
         (Some feb29) (worldOf emptyDatabase 0 0))
  = Ok (Some (Some (ExampleRuntime.utcMidnight 2025 3 1)))
  /\ DateObj.setMonth (rt := ExampleRuntime.utc) feb29
       (numAdd (DateObj.getMonth (rt := ExampleRuntime.utc) feb29) 12)
     = Some (ExampleRuntime.utcMidnight 2025 3 1)
  /\ fst (Service.calculateNextDueDate (rt := ExampleRuntime.utc) monthly
            (Some (Some (ExampleRuntime.utcMidnight 2025 1 31)))
            (worldOf emptyDatabase 0 0))
     = Ok (Some (Some (ExampleRuntime.utcMidnight 2025 3 3)))
  /\ fst (Service.calculateNextDueDate (rt := ExampleRuntime.utc) quarterly
            (Some (Some (ExampleRuntime.utcMidnight 2025 1 15)))
            (worldOf emptyDatabase 0 0))
     = Ok (Some (Some (ExampleRuntime.utcMidnight 2025 4 15))).
Proof. cbv zeta. repeat split; vm_compute; reflexivity. Qed.

(** ** Sorting *)

Section SortFacts.
Context {A : Type} (key : A -> Z).

Lemma positive_byKey a b : positive ((byKey key) a b) = (key b <? key a).
Proof.
  unfold positive, byKey.
  destruct (Z.ltb_spec 0 (key a - key b)), (Z.ltb_spec (key b) (key a));
    trivial; lia.
Qed.

Lemma insert_perm x l : Permutation (insert (byKey key) x l) (x :: l).
Proof.
  induction l as [| y l IH]; cbn [insert]; [reflexivity |].
  destruct (positive ((byKey key) x y)); [| reflexivity].
  rewrite IH. apply perm_swap.
Qed.

Lemma sort_perm l : Permutation (sort (byKey key) l) l.
Proof.
  induction l as [| x l IH]; cbn [sort]; [reflexivity |].
  rewrite insert_perm. constructor. exact IH.
Qed.

Lemma insert_sorted x l :
  StronglySorted (ascending key) l -> StronglySorted (ascending key) (insert (byKey key) x l).
Proof.
  induction 1 as [| y l Hl IH Hy]; cbn [insert].
  - repeat constructor.
  - rewrite positive_byKey. destruct (Z.ltb_spec (key y) (key x)) as [Hlt | Hge].
    + constructor; [exact IH |].
      rewrite (Forall_forall ((ascending key) y)). intros z Hz.
      apply (Permutation_in z (insert_perm x l)) in Hz.
      destruct Hz as [<- | Hz]; [unfold ascending; lia |].
      rewrite Forall_forall in Hy. auto.
    + constructor; [constructor; assumption |].
      constructor; [exact Hge |].
      revert Hy. apply Forall_impl. unfold ascending. intros; lia.
Qed.

Lemma sort_sorted l : StronglySorted (ascending key) (sort (byKey key) l).
Proof.
  induction l as [| x l IH]; cbn [sort]; [constructor | apply insert_sorted, IH].
Qed.

(** Stability: among the elements with one key, the order is kept. *)
Lemma insert_stable k x l :
  filter (fun a => key a =? k) (insert (byKey key) x l)
  = filter (fun a => key a =? k) (x :: l).
Proof.
  induction l as [| y l IH]; cbn [insert]; [reflexivity |].
  rewrite positive_byKey. destruct (Z.ltb_spec (key y) (key x)) as [Hlt | Hge];
    [| reflexivity].
  cbn [filter] in *. rewrite IH.
  destruct (Z.eqb_spec (key x) k), (Z.eqb_spec (key y) k); trivial; lia.
Qed.

Lemma sort_stable k l :
  filter (fun a => key a =? k) (sort (byKey key) l) = filter (fun a => key a =? k) l.
Proof.
  induction l as [| x l IH]; cbn [sort]; [reflexivity |].
  rewrite insert_stable. cbn [filter]. rewrite IH. reflexivity.
Qed.

(** A comparator that agrees with [(byKey key)] on the elements of a list sorts
    the list as [(byKey key)] does. *)
Lemma insert_ext (cmp : A -> A -> Num) x l :
  Forall (fun y => cmp x y = (byKey key) x y) l ->
  insert cmp x l = insert (byKey key) x l.
Proof.
  induction 1 as [| y l Hy _ IH]; cbn [insert]; [reflexivity |].
  rewrite Hy, IH. reflexivity.
Qed.

Lemma sort_ext (cmp : A -> A -> Num) l :
  (forall x y, In x l -> In y l -> cmp x y = (byKey key) x y) ->
  sort cmp l = sort (byKey key) l.
Proof.
  induction l as [| x l IH]; intros H; cbn [sort]; [reflexivity |].
  rewrite IH by (intros; apply H; right; assumption).
  apply insert_ext. rewrite Forall_forall. intros y Hy.
  apply H; [left; reflexivity | right].
  apply (Permutation_in y (sort_perm l)). exact Hy.
Qed.

End SortFacts.

Lemma ceilDiv_spec a b :
  0 < b -> (ceilDiv a b - 1) * b < a <= ceilDiv a b * b.
Proof. unfold ceilDiv. intros Hb. Z.div_mod_to_equations. nia. Qed.

Lemma ceilDiv_least a b : 0 < b -> ceilDiv a b = (a + (b - 1)) / b.
Proof. unfold ceilDiv. intros Hb. Z.div_mod_to_equations. nia. Qed.

(** ** Day counts as numbers *)

Section NumberFacts.
Import SpecFloat.

Lemma Zpos_iter_xO M p : Zpos (Pos.iter xO M p) = Zpos M * 2 ^ Zpos p.
Proof.
  induction p as [| p IH] using Pos.peano_ind.
  - cbn [Pos.iter]. lia.
  - rewrite Pos.iter_succ, Pos2Z.inj_succ, Z.pow_succ_r by lia.
    rewrite Pos2Z.inj_xO, IH. lia.
Qed.

Lemma Zpos_shiftMantissa M z :
  0 <= z -> Zpos (shiftMantissa M z) = Zpos M * 2 ^ z.
Proof.
  intros Hz. destruct z as [| p | p]; cbn [shiftMantissa]; [lia | | lia].
  apply Zpos_iter_xO.
Qed.

Lemma bits_iter_xO M p : bits (Pos.iter xO M p) = bits M + Zpos p.
Proof.
  unfold bits. induction p as [| p IH] using Pos.peano_ind.
  - cbn [Pos.iter digits2_pos]. lia.
  - rewrite Pos.iter_succ. cbn [digits2_pos]. lia.
Qed.

Lemma bits_shiftMantissa M z : 0 <= z -> bits (shiftMantissa M z) = bits M + z.
Proof.
  intros Hz. destruct z as [| p | p]; cbn [shiftMantissa]; [lia | | lia].
  apply bits_iter_xO.
Qed.

Lemma shiftMantissa_add M a b :
  0 <= a -> 0 <= b -> shiftMantissa (shiftMantissa M a) b = shiftMantissa M (a + b).
Proof.
  intros Ha Hb. apply Pos2Z.inj.
  rewrite !Zpos_shiftMantissa, Z.pow_add_r by lia. lia.
Qed.

Lemma bits_size M : bits M = Zpos (Pos.size M).
Proof. unfold bits. induction M; cbn [digits2_pos Pos.size]; congruence. Qed.

Lemma bits_bounds M : 2 ^ (bits M - 1) <= Zpos M < 2 ^ bits M.
Proof.
  rewrite bits_size. pose proof (Pos.size_gt M) as Hgt. pose proof (Pos.size_le M) as Hle.
  assert (H1 : Zpos M < 2 ^ Zpos (Pos.size M)).
  { rewrite <- Pos2Z.inj_pow. apply Pos2Z.pos_lt_pos. exact Hgt. }
  split; [| exact H1].
  assert (H2 : 2 ^ Zpos (Pos.size M) <= 2 * Zpos M).
  { rewrite <- Pos2Z.inj_pow. change (2 * Zpos M) with (Zpos M~0).
    apply Pos2Z.pos_le_pos. exact Hle. }
  replace (Zpos (Pos.size M)) with (Z.succ (Zpos (Pos.size M) - 1)) in H2 by lia.
  rewrite Z.pow_succ_r in H2 by lia. lia.
Qed.

Lemma bits_le M n : 0 <= n -> Zpos M < 2 ^ n -> bits M <= n.
Proof.
  intros Hn H. pose proof (bits_bounds M) as [Hlo _].
  destruct (Z.le_gt_cases (bits M) n) as [| Hgt]; trivial.
  assert (2 ^ n <= 2 ^ (bits M - 1)) by (apply Z.pow_le_mono_r; lia). lia.
Qed.

Lemma iter_pos_shr_1 p : forall q,
  iter_pos shr_1 p
    {| shr_m := Zpos (Pos.iter xO q p); shr_r := false; shr_s := false |}
  = {| shr_m := Zpos q; shr_r := false; shr_s := false |}.
Proof.
  induction p as [p IH | p IH |]; intros q; cbn [iter_pos Pos.iter].
  - cbn [shr_1 orb]. rewrite IH. apply IH.
  - rewrite IH. apply IH.
  - reflexivity.
Qed.

Lemma fexp_normal e :
  -1074 <= e - 53 -> fexp Number.prec Number.emax e = e - 53.
Proof. unfold fexp, emin, Number.prec, Number.emax. lia. Qed.

Lemma shr_fexp_full q e :
  bits q = 53 -> -1074 <= e ->
  shr_fexp Number.prec Number.emax (Zpos q) e loc_Exact
  = ({| shr_m := Zpos q; shr_r := false; shr_s := false |}, e).
Proof.
  intros Hq He. unfold shr_fexp. cbn [Zdigits2 shr_record_of_loc].
  fold (bits q). rewrite Hq, fexp_normal by lia.
  replace (53 + e - 53 - e) with 0 by lia. reflexivity.
Qed.

(** A mantissa of 53 bits is kept as it is. *)
Lemma binary_round_aux_full s q e :
  bits q = 53 -> -1074 <= e <= 971 ->
  binary_round_aux Number.prec Number.emax s (Zpos q) e loc_Exact
  = S754_finite s q e.
Proof.
  intros Hq He. unfold binary_round_aux.
  rewrite shr_fexp_full by (trivial; lia).
  cbn [shr_m loc_of_shr_record round_nearest_even].
  rewrite shr_fexp_full by (trivial; lia). cbn [shr_m].
  unfold Number.prec, Number.emax.
  destruct (Z.leb_spec e (1024 - 53)); [reflexivity | lia].
Qed.

(** Zero bits below a mantissa of 53 bits are shifted out exactly. *)
Lemma binary_round_aux_shift s q p e :
  bits q = 53 -> -1074 <= e + Zpos p <= 971 ->
  binary_round_aux Number.prec Number.emax s (Zpos (Pos.iter xO q p)) e loc_Exact
  = S754_finite s q (e + Zpos p).
Proof.
  intros Hq He. unfold binary_round_aux.
  assert (Hs : shr_fexp Number.prec Number.emax (Zpos (Pos.iter xO q p)) e loc_Exact
               = ({| shr_m := Zpos q; shr_r := false; shr_s := false |}, e + Zpos p)).
  { unfold shr_fexp. cbn [Zdigits2 shr_record_of_loc].
    fold (bits (Pos.iter xO q p)). rewrite bits_iter_xO, Hq, fexp_normal by lia.
    replace (53 + Zpos p + e - 53 - e) with (Zpos p) by lia.
    cbn [shr]. rewrite iter_pos_shr_1. reflexivity. }
  rewrite Hs. cbn [shr_m loc_of_shr_record round_nearest_even].
  rewrite shr_fexp_full by (trivial; lia). cbn [shr_m].
  unfold Number.prec, Number.emax.
  destruct (Z.leb_spec (e + Zpos p) (1024 - 53)); [reflexivity | lia].
Qed.

(** Rounding a mantissa of at most 53 bits, however aligned, gives the
    canonical form of its value. *)
Lemma binary_round_canonical s M k e :
  0 <= k -> bits M <= 53 -> -1074 <= bits M + e - 53 <= 971 ->
  binary_round Number.prec Number.emax s (shiftMantissa M k) (e - k)
  = canonical s M e.
Proof.
  intros Hk Hb He. unfold binary_round, canonical.
  fold (bits (shiftMantissa M k)). rewrite bits_shiftMantissa by exact Hk.
  replace (bits M + k + (e - k)) with (bits M + e) by lia.
  rewrite fexp_normal by lia.
  assert (Hq : bits (shiftMantissa M (53 - bits M)) = 53)
    by (rewrite bits_shiftMantissa by lia; lia).
  unfold shl_align.
  destruct (bits M + e - 53 - (e - k)) as [| t | d] eqn:Ht.
  - (* aligned already *)
    replace k with (53 - bits M) by lia.
    replace (e - (53 - bits M)) with (bits M + e - 53) by lia.
    apply binary_round_aux_full; [exact Hq | lia].
  - (* zero bits to shift out *)
    assert (Hm : shiftMantissa M k
                 = Pos.iter xO (shiftMantissa M (53 - bits M)) t).
    { change (Pos.iter xO (shiftMantissa M (53 - bits M)) t)
        with (shiftMantissa (shiftMantissa M (53 - bits M)) (Zpos t)).
      rewrite shiftMantissa_add by lia. f_equal. lia. }
    rewrite Hm.
    replace (bits M + e - 53) with (e - k + Zpos t) by lia.
    apply binary_round_aux_shift; [exact Hq | lia].
  - (* bits to fill *)
    change (Pos.iter xO (shiftMantissa M k) d)
      with (shiftMantissa (shiftMantissa M k) (Zpos d)).
    rewrite shiftMantissa_add by lia.
    replace (k + Zpos d) with (53 - bits M) by lia.
    apply binary_round_aux_full; [exact Hq | lia].
Qed.

Lemma bits_range M : Zpos M < 2 ^ 53 -> 1 <= bits M <= 53.
Proof.
  intros H. split; [unfold bits; lia | apply bits_le; [lia | exact H]].
Qed.

(** The number nearest to [T * 2 ^ e] does not depend on how the mantissa
    is aligned, when [T] has at most 53 bits: it is that number itself. *)
Lemma binary_normalize_aligned T k e :
  Z.abs T < 2 ^ 53 -> 0 <= k -> -1000 <= e <= 900 ->
  binary_normalize Number.prec Number.emax (T * 2 ^ k) (e - k) false
  = Number.ofDyadic T e.
Proof.
  intros HT Hk He. unfold Number.ofDyadic.
  destruct T as [| Tp | Tp].
  - reflexivity.
  - pose proof (bits_range Tp ltac:(lia)) as Hb.
    rewrite <- Zpos_shiftMantissa by exact Hk. cbn [binary_normalize].
    rewrite binary_round_canonical by lia.
    rewrite <- (binary_round_canonical false Tp 0 e) by lia.
    rewrite Z.sub_0_r. reflexivity.
  - pose proof (bits_range Tp ltac:(lia)) as Hb.
    change (Zneg Tp) with (- Zpos Tp). rewrite Z.mul_opp_l.
    rewrite <- Zpos_shiftMantissa by exact Hk. cbn [Z.opp binary_normalize].
    rewrite binary_round_canonical by lia.
    rewrite <- (binary_round_canonical true Tp 0 e) by lia.
    rewrite Z.sub_0_r. reflexivity.
Qed.

Lemma ofDyadic_pos M e :
  Zpos M < 2 ^ 53 -> -1000 <= e <= 900 ->
  Number.ofDyadic (Zpos M) e = canonical false M e.
Proof.
  intros HM He. pose proof (bits_range M HM) as Hb.
  rewrite <- (binary_round_canonical false M 0 e) by lia.
  rewrite Z.sub_0_r. reflexivity.
Qed.

Lemma ofDyadic_neg M e :
  Zpos M < 2 ^ 53 -> -1000 <= e <= 900 ->
  Number.ofDyadic (Zneg M) e = canonical true M e.
Proof.
  intros HM He. pose proof (bits_range M HM) as Hb.
  rewrite <- (binary_round_canonical true M 0 e) by lia.
  rewrite Z.sub_0_r. reflexivity.
Qed.

(** The mantissa that addition aligns to a smaller exponent. *)
Lemma shl_align_value q E ez :
  ez <= E -> Zpos (fst (shl_align q E ez)) = Zpos q * 2 ^ (E - ez).
Proof.
  intros H. unfold shl_align.
  destruct (ez - E) as [| t | d] eqn:Hd; cbn [fst].
  - replace (E - ez) with 0 by lia. lia.
  - lia.
  - rewrite Zpos_iter_xO. f_equal. f_equal. lia.
Qed.

Lemma canonical_aligned s M e ez :
  Zpos M < 2 ^ 53 -> ez <= bits M + e - 53 ->
  cond_Zopp s (Zpos (fst (shl_align (shiftMantissa M (53 - bits M))
                                    (bits M + e - 53) ez)))
  = cond_Zopp s (Zpos M) * 2 ^ (e - ez).
Proof.
  intros HM Hez. pose proof (bits_range M HM) as Hb.
  rewrite shl_align_value by exact Hez.
  rewrite Zpos_shiftMantissa by lia.
  rewrite <- Z.mul_assoc, <- Z.pow_add_r by lia.
  replace (53 - bits M + (bits M + e - 53 - ez)) with (e - ez) by lia.
  destruct s; cbn [cond_Zopp]; lia.
Qed.

(** Adding a number with a fraction of at most 40 bits to a positive whole
    number is exact. *)
Lemma add_ofZ_ofDyadic d m e :
  0 < d < 2 ^ 12 -> Z.abs m < 2 ^ 52 -> -40 <= e <= 0 ->
  Number.add (Number.ofZ d) (Number.ofDyadic m e)
  = Number.ofDyadic (d * 2 ^ (- e) + m) e.
Proof.
  intros Hd Hm He.
  assert (Hpow : 0 < 2 ^ (- e) <= 2 ^ 40).
  { split; [apply Z.pow_pos_nonneg; lia | apply Z.pow_le_mono_r; lia]. }
  assert (Hsum : Z.abs (d * 2 ^ (- e) + m) < 2 ^ 53).
  { assert (d * 2 ^ (- e) <= 2 ^ 12 * 2 ^ 40) by nia.
    change (2 ^ 12 * 2 ^ 40) with (2 ^ 52) in *. change (2 ^ 53) with (2 * 2 ^ 52).
    lia. }
  destruct d as [| dp | dp]; try lia.
  unfold Number.ofZ.
  rewrite (ofDyadic_pos dp 0) by lia.
  destruct m as [| Mp | Mp].
  - (* nothing is added *)
    rewrite Z.add_0_r.
    transitivity (canonical false dp 0); [reflexivity |].
    rewrite <- (ofDyadic_pos dp 0) by lia.
    rewrite <- (binary_normalize_aligned (Zpos dp) (- e) 0) by lia.
    unfold Number.ofDyadic. f_equal. lia.
  - rewrite (ofDyadic_pos Mp e) by lia.
    pose proof (bits_range dp ltac:(lia)) as Hbd.
    pose proof (bits_range Mp ltac:(lia)) as Hbm.
    unfold canonical, Number.add. cbn [SFadd].
    set (ez := Z.min (bits dp + 0 - 53) (bits Mp + e - 53)).
    rewrite (canonical_aligned false dp 0 ez) by lia.
    rewrite (canonical_aligned false Mp e ez) by lia.
    cbn [cond_Zopp].
    replace (Zpos dp * 2 ^ (0 - ez) + Zpos Mp * 2 ^ (e - ez))
      with ((Zpos dp * 2 ^ (- e) + Zpos Mp) * 2 ^ (e - ez)).
    + replace ez with (e - (e - ez)) at 2 by lia.
      apply binary_normalize_aligned; lia.
    + rewrite Z.mul_add_distr_r, <- Z.mul_assoc, <- Z.pow_add_r by lia.
      do 3 f_equal. lia.
  - rewrite (ofDyadic_neg Mp e) by lia.
    pose proof (bits_range dp ltac:(lia)) as Hbd.
    pose proof (bits_range Mp ltac:(lia)) as Hbm.
    unfold canonical, Number.add. cbn [SFadd].
    set (ez := Z.min (bits dp + 0 - 53) (bits Mp + e - 53)).
    rewrite (canonical_aligned false dp 0 ez) by lia.
    rewrite (canonical_aligned true Mp e ez) by lia.
    cbn [cond_Zopp].
    replace (Zpos dp * 2 ^ (0 - ez) + - Zpos Mp * 2 ^ (e - ez))
      with ((Zpos dp * 2 ^ (- e) + Zneg Mp) * 2 ^ (e - ez)).
    + replace ez with (e - (e - ez)) at 2 by lia.
      apply binary_normalize_aligned; lia.
    + rewrite Z.mul_add_distr_r, <- Z.mul_assoc, <- Z.pow_add_r by lia.
      do 3 f_equal. lia.
Qed.

(** The integer part of a number with a fraction: the number without it. *)
Lemma integerPart_ofDyadic m e :
  Z.abs m < 2 ^ 53 -> -1000 <= e <= 0 ->
  Number.integerPart (Number.ofDyadic m e) = Some (Z.quot m (2 ^ (- e))).
Proof.
  intros Hm He.
  assert (Hpow : 0 < 2 ^ (- e)) by (apply Z.pow_pos_nonneg; lia).
  assert (Hmag : forall s M, Zpos M < 2 ^ 53 ->
            Number.integerPart (canonical s M e)
            = Some (cond_Zopp s (Zpos M / 2 ^ (- e)))).
  { intros s M HM. pose proof (bits_range M HM) as Hb.
    unfold canonical. cbn [Number.integerPart]. do 2 f_equal.
    rewrite Zpos_shiftMantissa by lia.
    rewrite <- (Z.opp_involutive (bits M + e - 53)).
    rewrite Z.shiftl_opp_r, Z.shiftr_div_pow2 by lia.
    replace (- (bits M + e - 53)) with (- e + (53 - bits M)) by lia.
    rewrite Z.pow_add_r by lia.
    apply Z.div_mul_cancel_r; [lia |].
    apply Z.pow_nonzero; lia. }
  destruct m as [| Mp | Mp].
  - cbn [Number.ofDyadic binary_normalize Number.integerPart]. rewrite Z.quot_0_l by lia.
    reflexivity.
  - rewrite (ofDyadic_pos Mp e), Hmag by lia.
    cbn [cond_Zopp]. rewrite Z.quot_div_nonneg by lia. reflexivity.
  - rewrite (ofDyadic_neg Mp e), Hmag by lia.
    cbn [cond_Zopp]. change (Zneg Mp) with (- Zpos Mp).
    rewrite Z.quot_opp_l, Z.quot_div_nonneg by lia. reflexivity.
Qed.

End NumberFacts.

(** What [setDate] makes of a day count with a fraction of at most 40
    bits: the sum with the day of the month is exact, and its fraction is
    dropped. *)
Lemma daysMoved_dyadic date m e :
  1 <= date <= 31 -> Z.abs m < 2 ^ 52 -> -40 <= e <= 0 ->
  daysMoved date (Number.ofDyadic m e)
  = Some (Z.quot (date * 2 ^ (- e) + m) (2 ^ (- e)) - date).
Proof.
  intros Hd Hm He. unfold daysMoved.
  assert (Hpow : 0 < 2 ^ (- e) <= 2 ^ 40).
  { split; [apply Z.pow_pos_nonneg; lia | apply Z.pow_le_mono_r; lia]. }
  rewrite add_ofZ_ofDyadic by (trivial; change (2 ^ 12) with 4096; lia).
  rewrite integerPart_ofDyadic.
  - reflexivity.
  - assert (date * 2 ^ (- e) <= 31 * 2 ^ 40) by nia.
    change (2 ^ 53) with (2 * 2 ^ 52). change (2 ^ 40) with 1099511627776 in *.
    change (2 ^ 52) with 4503599627370496 in *. lia.
  - lia.
Qed.

(** A whole number of days moves the date by that number of days. *)
Lemma daysMoved_whole date n :
  1 <= date <= 31 -> Z.abs n < 2 ^ 52 ->
  daysMoved date (Number.ofZ n) = Some n.
Proof.
  intros Hd Hn. unfold Number.ofZ. rewrite daysMoved_dyadic by (trivial; lia).
  change (2 ^ (- 0)) with 1. rewrite Z.quot_1_r. f_equal. lia.
Qed.

(** A day count that is not negative moves the date by its whole days. *)
Lemma daysMoved_floor date m e :
  1 <= date <= 31 -> 0 <= m < 2 ^ 52 -> -40 <= e <= 0 ->
  daysMoved date (Number.ofDyadic m e) = Some (m / 2 ^ (- e)).
Proof.
  intros Hd Hm He. rewrite daysMoved_dyadic by (trivial; lia).
  assert (Hpow : 0 < 2 ^ (- e)) by (apply Z.pow_pos_nonneg; lia).
  rewrite Z.quot_div_nonneg by nia.
  rewrite Z.div_add_l by lia. f_equal. lia.
Qed.

(** ** Upcoming deadlines *)

Section Deadlines.
Context {rt : Runtime}.
Import JSDate JSDateFacts DateObj Service.

Lemma DateFromTime_bounds t : 1 <= DateFromTime t <= 31.
Proof.
  pose proof (DayWithinYear_bounds t) as Hb.
  pose proof (InLeapYear_cases t) as Hl.
  unfold DateFromTime, MonthFromTime.
  repeat match goal with
         | |- context [?a <? ?b] => destruct (Z.ltb_spec a b)
         end; lia.
Qed.

(** [d.setDate(d.getDate() + k)] moves a date by [k] days. *)
Lemma setDate_shift t0 k :
  setDate (Some t0) (numAdd (getDate (Some t0)) k) = TimeClip (t0 + k * msPerDay).
Proof.
  cbn [getDate numAdd option_map setDate].
  rewrite MakeDay_shift, MakeDay_fields. f_equal.
  generalize (LocalTime_UTC (rt := rt)). unfold LocalTime, UTC. intros _.
  pose proof (MakeDate_parts (t0 + tz)) as Hp. unfold MakeDate in *. lia.
Qed.

(** With a day count that is any number, the date moves by the days that
    the integer part of the sum leaves. *)
Lemma setDate_moved t0 N :
  setDate (Some t0)
    (Number.integerPart (Number.add (Number.ofNum (getDate (Some t0))) N))
  = daysAfter t0 (windowDays t0 N).
Proof.
  unfold windowDays, daysMoved. cbn [getDate option_map Number.ofNum].
  set (date := DateFromTime (LocalTime t0)).
  destruct (Number.integerPart (Number.add (Number.ofZ date) N)) as [z |];
    [| reflexivity].
  cbn [numAdd option_map daysAfter].
  replace (Some z) with (numAdd (getDate (Some t0)) (z + - date)).
  - rewrite setDate_shift. f_equal. unfold UTC, LocalTime. lia.
  - cbn [getDate numAdd option_map]. fold date. f_equal. lia.
Qed.

(** The end of the window in calendar terms: its local day is [n] days
    after the local day of [clk], and its local time of day is that of
    [clk]. *)
Lemma daysAfter_local clk n last :
  daysAfter clk (Some n) = Some last ->
  Day (LocalTime last) = Day (LocalTime clk) + n
  /\ TimeWithinDay (LocalTime last) = TimeWithinDay (LocalTime clk).
Proof.
  unfold daysAfter. intros H. apply TimeClip_inv in H. destruct H as [-> _].
  rewrite LocalTime_UTC. unfold Day, TimeWithinDay, msPerDay.
  split; Z.div_mod_to_equations; lia.
Qed.

Lemma inWindow_upcoming clk n r :
  inWindow (Some clk) (daysAfter clk n) r = upcoming clk n r.
Proof.
  unfold inWindow, upcoming, hasStatus, dateGe, dateLe.
  destruct (Compliance.nextDueDate r) as [[due |] |], (daysAfter clk n);
    cbn; rewrite ?andb_false_r; reflexivity.
Qed.

Lemma toDeadline_upcoming clk n r :
  upcoming clk n r = true ->
  daysUntilDue (toDeadline (Some clk) r) = Some (daysUntil clk r).
Proof.
  unfold upcoming, toDeadline, daysUntil.
  destruct (Compliance.nextDueDate r) as [[due |] |]; try discriminate.
  intros _. cbn [numSub option_map daysUntilDue].
  rewrite ceilDiv_least by reflexivity. reflexivity.
Qed.

Lemma daysUntil_least clk r due :
  Compliance.nextDueDate r = Some (Some due) ->
  leastDays clk due (daysUntil clk r).
Proof.
  intros H. unfold daysUntil, leastDays. rewrite H.
  unfold msPerDay. Z.div_mod_to_equations. lia.
Qed.

Lemma upcoming_inv clk n r :
  upcoming clk n r = true ->
  exists due last,
    Compliance.nextDueDate r = Some (Some due)
    /\ daysAfter clk n = Some last
    /\ clk <= due <= last
    /\ Compliance.status r <> completed /\ Compliance.status r <> skipped.
Proof.
  unfold upcoming, hasStatus.
  destruct (Compliance.nextDueDate r) as [[due |] |]; try discriminate.
  destruct (daysAfter clk n) as [last |]; [| discriminate].
  intros H. apply andb_true_iff in H. destruct H as [H Hs].
  apply andb_true_iff in H. destruct H as [H Hc].
  apply andb_true_iff in H. destruct H as [H1 H2].
  apply Z.leb_le in H1, H2. apply negb_true_iff in Hc, Hs.
  exists due, last. repeat split; trivial; intros E; rewrite E in *; discriminate.
Qed.

Lemma upcoming_intro clk n r due last :
  Compliance.nextDueDate r = Some (Some due) ->
  daysAfter clk n = Some last ->
  clk <= due <= last ->
  Compliance.status r <> completed -> Compliance.status r <> skipped ->
  upcoming clk n r = true.
Proof.
  intros Hdue Hlast [H1 H2] Hc Hs. unfold upcoming, hasStatus.
  rewrite Hdue, Hlast.
  apply Z.leb_le in H1, H2. rewrite H1, H2.
  destruct (Compliance.status r); cbn; congruence.
Qed.

Lemma getUpcomingDeadlines_run tenantId N d clk k :
  getUpcomingDeadlines tenantId (Some N) (worldOf d clk k)
  = (Ok (sort byDaysUntilDue
           (map (toDeadline (Some clk))
                (filter (upcoming clk (windowDays clk N))
                        (selected tenantId None d)))),
     worldOf d clk k).
Proof.
  unfold getUpcomingDeadlines. unfold bind at 1.
  rewrite getTenantComplianceStatus_run. run.
  rewrite setDate_moved.
  rewrite (filter_ext _ _ (inWindow_upcoming clk (windowDays clk N))). reflexivity.
Qed.

Lemma sort_deadlines clk n rows :
  sort byDaysUntilDue (map (toDeadline (Some clk)) (filter (upcoming clk n) rows))
  = sort (byKey (fun dl => daysUntil clk (compliance dl)))
         (map (toDeadline (Some clk)) (filter (upcoming clk n) rows)).
Proof.
  apply sort_ext. intros x y Hx Hy.
  apply in_map_iff in Hx. destruct Hx as (rx & <- & Hx).
  apply in_map_iff in Hy. destruct Hy as (ry & <- & Hy).
  apply filter_In in Hx. destruct Hx as [_ Hx].
  apply filter_In in Hy. destruct Hy as [_ Hy].
  unfold byDaysUntilDue, byKey.
  rewrite (toDeadline_upcoming clk n rx Hx), (toDeadline_upcoming clk n ry Hy).
  reflexivity.
Qed.

Lemma filter_map_comm {X Y} (f : X -> Y) (p : Y -> bool) l :
  filter p (map f l) = map f (filter (fun x => p (f x)) l).
Proof.
  induction l as [| x l IH]; cbn [map filter]; [reflexivity |].
  destruct (p (f x)); cbn [map]; rewrite IH; reflexivity.
Qed.


End Deadlines.


(** Of the example records of [T1], seen at time 0 with a window of 30
    days: the one due within a day comes first, then the two due in 3 days
    in their table order. *)
Example upcoming_deadlines_example :
  fst (Service.getUpcomingDeadlines (rt := ExampleRuntime.utc) "T1"
         (Some (Number.ofZ 30)) (worldOf deadlineRecords 0 0))
  = Ok (map (fun p => mkDeadline (fst p) (Some (snd p)))
          [(exampleRecord "b" "T1" in_progress (Some (Some (JSDate.msPerDay - 1))), 1);
           (exampleRecord "a" "T1" not_started (Some (Some (3 * JSDate.msPerDay))), 3);
           (exampleRecord "d" "T1" not_started
              (Some (Some (3 * JSDate.msPerDay - 5))), 3)]).
Proof. vm_compute. reflexivity. Qed.

(** ** Quarterly tax reminders *)

Section Quarterly.
Context {rt : Runtime}.
Import JSDate JSDateFacts DateObj Service.

Lemma appendReminders_nil d : appendReminders [] d = d.
Proof.
  destruct d. unfold appendReminders, with_complianceReminders.
  cbn [complianceChecklists tenantCompliance complianceReminders tenants
       userTenants tenantModules].
  rewrite app_nil_r. reflexivity.
Qed.

Lemma appendReminders_app a b d :
  appendReminders b (appendReminders a d) = appendReminders (a ++ b) d.
Proof.
  unfold appendReminders, with_complianceReminders.
  cbn [complianceChecklists tenantCompliance complianceReminders tenants
       userTenants tenantModules].
  rewrite app_assoc. reflexivity.
Qed.

Lemma scheduleReminder_run t c ty (at_ : Z) msg meta d clk n :
  scheduleReminder t c ty (Some at_) msg meta (worldOf d clk n)
  = (Ok (nanoid n),
     worldOf (appendReminders
                [Reminder.mkRow (nanoid n) t c ty (Some at_) false None msg
                   (match meta with Some m => m | None => [] end)
                   (Some (Some clk))] d)
             clk (S n)).
Proof. reflexivity. Qed.

Lemma scheduleReminder_invalid t c ty msg meta d clk n :
  scheduleReminder t c ty None msg meta (worldOf d clk n)
  = (Throw InvalidTimeValue, worldOf d clk (S n)).
Proof. reflexivity. Qed.

Lemma inFuture_inv clk q :
  inFuture clk q = true -> exists u, qdate q = Some u /\ clk < u.
Proof.
  unfold inFuture, dateGt, dateLt. destruct (qdate q) as [u |]; [| discriminate].
  intros H. apply Z.ltb_lt in H. eauto.
Qed.

Lemma forQuarters_run t c clk qs :
  0 <= clk -> validDates qs ->
  forall d n,
    forQuarters t c (Some clk) qs (worldOf d clk n)
    = (Ok tt,
       worldOf (appendReminders (remindersOf t c clk n (filter (inFuture clk) qs)) d)
               clk (n + List.length (filter (inFuture clk) qs))).
Proof.
  intros Hclk Hvalid. induction Hvalid as [| q rest Hq _ IH]; intros d n.
  - cbn. rewrite appendReminders_nil, Nat.add_0_r. reflexivity.
  - cbn [forQuarters filter]. fold (inFuture clk q).
    destruct (inFuture clk q) eqn:Hfut.
    + destruct (inFuture_inv clk q Hfut) as (u & Hu & Hlt).
      specialize (Hq u Hu). rewrite Hu.
      rewrite setDate_shift, TimeClip_Some by (unfold maxTime, msPerDay in *; lia).
      unfold bind at 1. unfold bind at 1. rewrite scheduleReminder_run.
      unfold ret at 1. rewrite IH, appendReminders_app.
      cbn [app remindersOf List.length]. unfold reminderOf, quarterMessage.
      rewrite Hu. cbn [option_map].
      replace (u + -7 * msPerDay) with (u - 7 * msPerDay) by lia.
      replace (S n + List.length (filter (inFuture clk) rest))%nat
        with (n + S (List.length (filter (inFuture clk) rest)))%nat by lia.
      reflexivity.
    + unfold bind at 1. unfold ret at 1. apply IH.
Qed.

Lemma TimeClip_valid x u : TimeClip x = Some u -> Z.abs u <= maxTime.
Proof. intros H. apply TimeClip_inv in H. destruct H as [-> H]. exact H. Qed.

Lemma irsDeadlines_valid year : validDates (irsDeadlines year).
Proof.
  unfold irsDeadlines, localMidnight.
  repeat constructor; cbn [qdate]; intros u Hu; exact (TimeClip_valid _ _ Hu).
Qed.

Lemma newDateYMD_localMidnight y m d :
  100 <= y -> 0 <= m <= 11 ->
  newDateYMD (Some y) m d = localMidnight y (m + 1) d.
Proof.
  intros Hy Hm. unfold newDateYMD, localMidnight, MakeFullYear.
  destruct (Z.leb_spec 0 y); [| lia]. destruct (Z.leb_spec y 99); [lia |].
  cbn [andb]. rewrite MakeDay_in_year by exact Hm.
  unfold firstOfMonth. replace (m + 1 - 1) with m by lia.
  change (MakeTime 0 0 0 0) with 0. do 3 f_equal. lia.
Qed.

Lemma quartersOf_irsDeadlines y :
  100 <= y -> quartersOf (Some y) = irsDeadlines y.
Proof.
  intros Hy. unfold quartersOf, irsDeadlines. cbn [numAdd option_map].
  rewrite !newDateYMD_localMidnight by lia. reflexivity.
Qed.

(** After the epoch the local year is 1969 or later. *)
Lemma local_year_after_epoch clk : 0 <= clk -> 1969 <= YearFromTime (LocalTime clk).
Proof.
  intros Hclk. apply YearFromTime_largest.
  pose proof tz_range as Htz. unfold LocalTime.
  change (TimeFromYear 1969) with (- (365 * msPerDay)).
  unfold msPerDay in *. lia.
Qed.

Lemma scheduleQuarterlyTaxReminders_run t c d clk n :
  0 <= clk ->
  let kept := filter (inFuture clk) (irsDeadlines (YearFromTime (LocalTime clk))) in
  scheduleQuarterlyTaxReminders t c (worldOf d clk n)
  = (Ok tt,
     worldOf (appendReminders (remindersOf t c clk n kept) d)
             clk (n + List.length kept)).
Proof.
  intros Hclk kept. unfold scheduleQuarterlyTaxReminders. run.
  cbn [getFullYear option_map].
  pose proof (local_year_after_epoch clk Hclk) as Hy.
  rewrite quartersOf_irsDeadlines by lia.
  change (mkWorld (Some d) clk n) with (worldOf d clk n).
  apply forQuarters_run; [exact Hclk | apply irsDeadlines_valid].
Qed.

(** The deadlines are the calendar days that their names say. *)
Lemma localMidnight_fields y m d u :
  1 <= m <= 12 -> 1 <= d <= DaysInMonth y (m - 1) ->
  localMidnight y m d = Some u ->
  localDay u = (y, m, d) /\ TimeWithinDay (LocalTime u) = 0.
Proof.
  intros Hm Hd Hu. unfold localMidnight in Hu.
  apply TimeClip_inv in Hu. destruct Hu as [-> _].
  unfold localDay. rewrite LocalTime_UTC.
  destruct (fields_of_day y (m - 1) d 0 ltac:(lia) Hd ltac:(unfold msPerDay; lia))
    as (Hy' & Hm' & Hd' & Ht').
  rewrite Hy', Hm', Hd', Ht'. split; [| reflexivity].
  repeat f_equal. lia.
Qed.

Lemma localMidnight_after y m d clk name :
  Day (LocalTime clk) < firstOfMonth y (m - 1) + (d - 1) ->
  0 <= clk ->
  firstOfMonth y (m - 1) + (d - 1) < 100000000 ->
  inFuture clk (mkQuarter (localMidnight y m d) name) = true.
Proof.
  intros Hday Hclk Hmax. unfold inFuture, localMidnight. cbn [qdate].
  pose proof tz_range as Htz. unfold LocalTime, Day in Hday.
  set (D := firstOfMonth y (m - 1) + (d - 1)) in *.
  assert (Hlt : clk < UTC (MakeDate D 0)).
  { unfold UTC, MakeDate. unfold msPerDay in *. Z.div_mod_to_equations. lia. }
  rewrite TimeClip_Some.
  - unfold dateGt, dateLt. apply Z.ltb_lt. exact Hlt.
  - unfold UTC, MakeDate, maxTime in *. unfold msPerDay in *. lia.
Qed.

End Quarterly.

Section QuarterlyTheorem.
Context {rt : Runtime}.
Import JSDate JSDateFacts DateObj Service.

Lemma remindersOf_length t c clk qs : forall k,
  List.length (remindersOf t c clk k qs) = List.length qs.
Proof. induction qs; intros k; cbn; auto. Qed.

Lemma march_first_2025 clk :
  localDay clk = (2025, 3, 1) -> Day (LocalTime clk) = 20148.
Proof.
  unfold localDay. intros H. injection H as Hy Hm Hd.
  rewrite <- MakeDay_fields, Hy, Hd.
  replace (MonthFromTime (LocalTime clk)) with 2 by lia. reflexivity.
Qed.

Lemma fifteenth_fields y m u :
  m = 4 \/ m = 6 \/ m = 9 \/ m = 1 ->
  localMidnight y m 15 = Some u -> localDay u = (y, m, 15).
Proof.
  intros Hm Hu.
  apply (localMidnight_fields y m 15 u); [lia | | exact Hu].
  destruct Hm as [-> | [-> | [-> | ->]]]; cbn; lia.
Qed.


End QuarterlyTheorem.


(** The four reminders of March 1, 2025, under the example runtime. *)
Example quarterly_reminders_2025 :
  map (fun r => (Reminder.scheduledFor r, Reminder.message r))
    (reminders
       (snd (Service.scheduleQuarterlyTaxReminders (rt := ExampleRuntime.utc)
               "T1" "R1"
               (worldOf emptyDatabase (ExampleRuntime.utcMidnight 2025 3 1) 0))))
  = [(Some (ExampleRuntime.utcMidnight 2025 4 8),
      "Reminder: Q1 estimated taxes are due on 4/15/2025"%string);
     (Some (ExampleRuntime.utcMidnight 2025 6 8),
      "Reminder: Q2 estimated taxes are due on 6/15/2025"%string);
     (Some (ExampleRuntime.utcMidnight 2025 9 8),
      "Reminder: Q3 estimated taxes are due on 9/15/2025"%string);
     (Some (ExampleRuntime.utcMidnight 2026 1 8),
      "Reminder: Q4 estimated taxes are due on 1/15/2026"%string)].
Proof. vm_compute. reflexivity. Qed.

(** * Further properties *)

(** ** The tenant check *)

Section TenantCheck.
Context {rt : Runtime}.
Import Service.

Lemma find_none_iff {A} (p : A -> bool) l :
  find p l = None <-> forall x, In x l -> p x = false.
Proof.
  split.
  - apply find_none.
  - induction l as [| x l IH]; intros H; [reflexivity |].
    cbn [find]. rewrite (H x (or_introl eq_refl)).
    apply IH. intros y Hy. apply H. right. exact Hy.
Qed.

Lemma getTenantForUser_run userId tenantId d clk n :
  Router.getTenantForUser userId tenantId (worldOf d clk n)
  = (Ok match find (fun t => (Tenant.id t =? tenantId)%string) (tenants d),
              find (fun u => (UserTenant.userId u =? userId)%string
                             && (UserTenant.tenantId u =? tenantId)%string)
                   (userTenants d) with
        | Some t, Some u =>
            Some (Router.mkTenantWithModules t
                    (filter (fun m => (TenantModule.tenantId m =? tenantId)%string
                                      && TenantModule.enabled m)
                            (tenantModules d))
                    (UserTenant.role u))
        | _, _ => None
        end,
     worldOf d clk n).
Proof.
  unfold Router.getTenantForUser. run. rewrite !limit_one_find.
  destruct (find _ (tenants d)); [| reflexivity].
  destruct (find _ (userTenants d)); reflexivity.
Qed.

(** X1.  On a world with a database the membership lookup changes
    nothing and answers with a membership exactly when the tenant table has
    a row with the tenant key and the membership table a row for the user
    and the tenant.  The membership it answers with holds a tenant row with
    the asked key, the role of a membership row of that user and tenant,
    and exactly the enabled modules of the tenant, in table order. *)
Theorem getTenantForUser_spec userId tenantId d clk n :
  exists answer,
    Router.getTenantForUser userId tenantId (worldOf d clk n)
    = (Ok answer, worldOf d clk n)
    /\ (answer <> None <-> hasTenant tenantId d /\ hasMembership userId tenantId d)
    /\ (forall m, answer = Some m ->
          In (Router.tenant m) (tenants d)
          /\ Tenant.id (Router.tenant m) = tenantId
          /\ (exists u, In u (userTenants d)
                        /\ UserTenant.userId u = userId
                        /\ UserTenant.tenantId u = tenantId
                        /\ UserTenant.role u = Router.userRole m)
          /\ Router.modules m
             = filter (fun x => (TenantModule.tenantId x =? tenantId)%string
                                && TenantModule.enabled x)
                      (tenantModules d)).
Proof.
  eexists. split; [apply getTenantForUser_run |].
  set (pt := fun t : Tenant.row => (Tenant.id t =? tenantId)%string).
  set (pu := fun u : UserTenant.row =>
               (UserTenant.userId u =? userId)%string
               && (UserTenant.tenantId u =? tenantId)%string).
  destruct (find pt (tenants d)) as [t |] eqn:Ht;
    destruct (find pu (userTenants d)) as [u |] eqn:Hu; unfold pt, pu in *.
  - apply find_some in Ht. destruct Ht as [Ht1 Ht2]. apply String.eqb_eq in Ht2.
    apply find_some in Hu. destruct Hu as [Hu1 Hu2].
    apply andb_true_iff in Hu2. destruct Hu2 as [Hu2 Hu3].
    apply String.eqb_eq in Hu2. apply String.eqb_eq in Hu3.
    split.
    + split; [intros _ | discriminate].
      split; [exists t | exists u]; auto.
    + intros m [= <-]. cbn. repeat split; trivial. exists u. auto.
  - split; [| discriminate]. split; [congruence |].
    intros [_ (u & Hin & H1 & H2)].
    apply (find_none _ _ Hu) in Hin. rewrite H1, H2, !String.eqb_refl in Hin.
    discriminate.
  - split; [| discriminate]. split; [congruence |].
    intros [(t & Hin & H1) _].
    apply (find_none _ _ Ht) in Hin. rewrite H1, String.eqb_refl in Hin.
    discriminate.
  - split; [| discriminate]. split; [congruence |].
    intros [(t & Hin & H1) _].
    apply (find_none _ _ Ht) in Hin. rewrite H1, String.eqb_refl in Hin.
    discriminate.
Qed.

Lemma notMember_run userId tenantId w :
  notMember userId tenantId w ->
  Router.getTenantForUser userId tenantId w = (Ok None, w).
Proof.
  intros H. rewrite (surjective_pairing (Router.getTenantForUser userId tenantId w)).
  rewrite getTenantForUser_world. unfold notMember in H. rewrite H. reflexivity.
Qed.

Lemma verifyTenantAccess_notMember userId tenantId w :
  notMember userId tenantId w ->
  ComplianceRouter.verifyTenantAccess userId tenantId w = (Throw Unauthorized, w).
Proof.
  intros H. unfold ComplianceRouter.verifyTenantAccess, bind.
  rewrite (notMember_run _ _ _ H). reflexivity.
Qed.

Lemma verifyTenantAccess_authorized userId tenantId w :
  authorized userId tenantId w ->
  exists m, ComplianceRouter.verifyTenantAccess userId tenantId w = (Ok m, w).
Proof.
  intros H. destruct (authorized_run _ _ _ H) as [m Hm]. exists m.
  unfold ComplianceRouter.verifyTenantAccess, bind. rewrite Hm. reflexivity.
Qed.

(** The tenant check either lets the caller through or throws, and never
    touches the world. *)
Lemma verifyTenantAccess_cases userId tenantId w :
  (authorized userId tenantId w
   /\ exists m, ComplianceRouter.verifyTenantAccess userId tenantId w = (Ok m, w))
  \/ (~ authorized userId tenantId w
      /\ exists e, ComplianceRouter.verifyTenantAccess userId tenantId w
                   = (Throw e, w)).
Proof.
  unfold ComplianceRouter.verifyTenantAccess, bind, ret, throw.
  pose proof (getTenantForUser_world userId tenantId w) as Hw.
  unfold authorized.
  destruct (Router.getTenantForUser userId tenantId w) as [[[m |] | e] w'];
    cbn [fst snd] in *; subst w'.
  - left. split; eauto.
  - right. split; [intros [m Hm]; discriminate | eauto].
  - right. split; [intros [m Hm]; discriminate | eauto].
Qed.

(** X2.  A caller whom the tenant check turns away gets 'Unauthorized'
    from every guarded procedure of the compliance router, and the call
    leaves the world as it was: nothing is read out and nothing written. *)
Theorem guarded_procedures_turn_away userId tenantId w
    checklistId optChecklist daysAhead complianceId ty at_ msg meta st notes atts :
  notMember userId tenantId w ->
  ComplianceRouter.initialize userId tenantId checklistId w
  = (Throw Unauthorized, w)
  /\ ComplianceRouter.getStatus userId tenantId optChecklist w
     = (Throw Unauthorized, w)
  /\ ComplianceRouter.getStats userId tenantId optChecklist w
     = (Throw Unauthorized, w)
  /\ ComplianceRouter.getUpcomingDeadlines userId tenantId daysAhead w
     = (Throw Unauthorized, w)
  /\ ComplianceRouter.scheduleReminder userId tenantId complianceId ty at_ msg meta w
     = (Throw Unauthorized, w)
  /\ ComplianceRouter.scheduleQuarterlyTaxReminders userId tenantId complianceId w
     = (Throw Unauthorized, w)
  /\ ComplianceRouter.getDashboard userId tenantId w = (Throw Unauthorized, w)
  /\ Router.updateStatus userId
       (Router.mkUpdateStatusInput tenantId complianceId st notes atts) w
     = (Throw Unauthorized, w).
Proof.
  intros H. pose proof (verifyTenantAccess_notMember _ _ _ H) as Hv.
  unfold ComplianceRouter.initialize, ComplianceRouter.getStatus,
    ComplianceRouter.getStats, ComplianceRouter.getUpcomingDeadlines,
    ComplianceRouter.scheduleReminder,
    ComplianceRouter.scheduleQuarterlyTaxReminders,
    ComplianceRouter.getDashboard, Router.updateStatus.
  cbn [Router.in_tenantId].
  repeat split; unfold bind at 1; rewrite ?Hv, ?(notMember_run _ _ _ H);
    reflexivity.
Qed.

End TenantCheck.

Lemma guarded_procedures_turn_away_witness :
  let w := worldOf threeTenants 1000 0 in
  notMember "U" "B" w
  /\ ComplianceRouter.getDashboard (rt := ExampleRuntime.utc) "U" "B" w
     = (Throw Unauthorized, w).
Proof.
  cbv zeta.
  assert (H : notMember "U" "B" (worldOf threeTenants 1000 0)) by reflexivity.
  split; [exact H |].
  exact (proj1 (proj2 (proj2 (proj2 (proj2 (proj2 (proj2
           (guarded_procedures_turn_away (rt := ExampleRuntime.utc)
              "U" "B" (worldOf threeTenants 1000 0)
              "CL1" None (Number.ofZ 30) "r1" email 0 "m" None completed None None
              H)))))))).
Defined.

(** ** Reads through the router *)

Section RouterReads.
Context {rt : Runtime}.
Import Service.

Lemma selected_tenant tenantId checklistId d :
  Forall (fun r => Compliance.tenantId r = tenantId)
         (selected tenantId checklistId d).
Proof.
  unfold selected. rewrite Forall_forall. intros r Hr.
  apply filter_In in Hr. destruct Hr as [_ Hr].
  apply andb_true_iff in Hr. destruct Hr as [Hr _].
  apply String.eqb_eq. exact Hr.
Qed.

Lemma getUpcomingDeadlines_members tenantId (days : Num) d clk dl :
  In dl (sort byDaysUntilDue
           (map (toDeadline (Some clk))
                (filter (upcoming clk days) (selected tenantId None d)))) ->
  In (compliance dl) (selected tenantId None d)
  /\ upcoming clk days (compliance dl) = true
  /\ daysUntilDue dl = Some (daysUntil clk (compliance dl)).
Proof.
  rewrite sort_deadlines. intros Hdl.
  apply (Permutation_in dl (sort_perm _ _)) in Hdl.
  apply in_map_iff in Hdl. destruct Hdl as (r & <- & Hr).
  apply filter_In in Hr. destruct Hr as [Hin Hup].
  cbn [toDeadline compliance]. split; [exact Hin |]. split; [exact Hup |].
  exact (toDeadline_upcoming clk days r Hup).
Qed.

Lemma authorized_world userId tenantId w :
  authorized userId tenantId w ->
  exists d clk n, w = worldOf d clk n.
Proof.
  intros H. destruct (authorized_db _ _ _ H) as [d Hd].
  destruct w as [dbo clk n]. cbn in *. subst dbo. exists d, clk, n. reflexivity.
Qed.

(** X3.  For a caller who passes the tenant check, the reads of the
    router change nothing and hand out records of the named tenant only:
    the status list is the records of that tenant (of one checklist when a
    non-empty one is named), and every upcoming deadline belongs to a
    record of that tenant. *)
Theorem router_reads_own_tenant userId tenantId checklistId days w :
  authorized userId tenantId w ->
  exists rows deadlines,
    ComplianceRouter.getStatus userId tenantId checklistId w = (Ok rows, w)
    /\ Forall (fun r => Compliance.tenantId r = tenantId
                        /\ In r (tracking w)
                        /\ (forall c, checklistId = Some c -> c <> ""%string ->
                                      Compliance.checklistId r = c))
              rows
    /\ (forall r, In r (tracking w) -> Compliance.tenantId r = tenantId ->
                  checklistId = None -> In r rows)
    /\ ComplianceRouter.getUpcomingDeadlines userId tenantId days w
       = (Ok deadlines, w)
    /\ Forall (fun dl => Compliance.tenantId (compliance dl) = tenantId
                         /\ In (compliance dl) (tracking w))
              deadlines.
Proof.
  intros Ha. destruct (authorized_world _ _ _ Ha) as (d & clk & n & ->).
  destruct (verifyTenantAccess_authorized _ _ _ Ha) as [m Hm].
  exists (selected tenantId checklistId d). eexists.
  unfold ComplianceRouter.getStatus, ComplianceRouter.getUpcomingDeadlines.
  unfold bind at 1. rewrite Hm.
  split; [apply getTenantComplianceStatus_run |].
  assert (Ht : tracking (worldOf d clk n) = tenantCompliance d) by reflexivity.
  split.
  { rewrite Forall_forall. intros r Hr.
    pose proof (selected_tenant tenantId checklistId d) as Hs.
    rewrite Forall_forall in Hs. split; [auto |].
    unfold selected in Hr. apply filter_In in Hr. destruct Hr as [Hin Hp].
    split; [rewrite Ht; exact Hin |].
    intros c -> Hc. apply andb_true_iff in Hp. destruct Hp as [_ Hp].
    unfold truthy in Hp. destruct (String.eqb_spec c ""); [contradiction |].
    cbn in Hp. apply String.eqb_eq. exact Hp. }
  split.
  { intros r Hin Hr ->. unfold selected. apply filter_In.
    rewrite <- Ht. split; [exact Hin |].
    rewrite Hr, String.eqb_refl. reflexivity. }
  unfold bind at 1. rewrite Hm.
  split; [apply getUpcomingDeadlines_run |].
  rewrite Forall_forall. intros dl Hdl.
  apply getUpcomingDeadlines_members in Hdl. destruct Hdl as (Hin & _ & _).
  pose proof (selected_tenant tenantId None d) as Hs.
  rewrite Forall_forall in Hs. split; [auto |].
  rewrite Ht. unfold selected in Hin. apply filter_In in Hin. tauto.
Qed.

(** X4.  The dashboard of a caller who passes the tenant check is
    consistent: its status list is the records of the tenant, the total of
    its statistics is the length of that list, its deadlines are those of
    a 30-day window, and every deadline belongs to a record of the status
    list.  The call changes nothing. *)
Theorem getDashboard_consistent userId tenantId w :
  authorized userId tenantId w ->
  exists dash,
    ComplianceRouter.getDashboard userId tenantId w = (Ok dash, w)
    /\ fst (getTenantComplianceStatus tenantId None w)
       = Ok (ComplianceRouter.dash_status dash)
    /\ fst (getComplianceStats tenantId None w)
       = Ok (ComplianceRouter.dash_stats dash)
    /\ fst (getUpcomingDeadlines tenantId (Some (Number.ofZ 30)) w)
       = Ok (ComplianceRouter.upcomingDeadlines dash)
    /\ total (ComplianceRouter.dash_stats dash)
       = Z.of_nat (List.length (ComplianceRouter.dash_status dash))
    /\ Forall (fun dl => In (compliance dl) (ComplianceRouter.dash_status dash))
              (ComplianceRouter.upcomingDeadlines dash)
    /\ (List.length (ComplianceRouter.upcomingDeadlines dash)
        <= List.length (ComplianceRouter.dash_status dash))%nat.
Proof.
  intros Ha. destruct (authorized_world _ _ _ Ha) as (d & clk & n & ->).
  destruct (verifyTenantAccess_authorized _ _ _ Ha) as [m Hm].
  eexists. unfold ComplianceRouter.getDashboard.
  unfold bind at 1. rewrite Hm.
  unfold bind at 1. rewrite getTenantComplianceStatus_run.
  unfold bind at 1. rewrite getComplianceStats_run.
  unfold bind at 1. rewrite getUpcomingDeadlines_run.
  split; [reflexivity |].
  cbn [fst ComplianceRouter.dash_status ComplianceRouter.dash_stats
       ComplianceRouter.upcomingDeadlines total].
  repeat split.
  - rewrite Forall_forall. intros dl Hdl.
    apply getUpcomingDeadlines_members in Hdl. tauto.
  - rewrite sort_deadlines.
    rewrite (Permutation_length (sort_perm _ _)), length_map.
    apply filter_length_le.
Qed.

Lemma find_app_one {A} (p : A -> bool) l x :
  find p (l ++ [x])
  = match find p l with
    | Some y => Some y
    | None => if p x then Some x else None
    end.
Proof.
  induction l as [| y l IH]; cbn [app find]; [reflexivity |].
  destruct (p y); [reflexivity | exact IH].
Qed.

Lemma getChecklist_run checklistId d clk n :
  ComplianceRouter.getChecklist checklistId (worldOf d clk n)
  = (Ok (find (fun c => (Checklist.rid c =? checklistId)%string)
              (complianceChecklists d)),
     worldOf d clk n).
Proof.
  unfold ComplianceRouter.getChecklist. run. rewrite limit_one_find.
  destruct (find _ (complianceChecklists d)); reflexivity.
Qed.

(** X5.  [getChecklist] asks for no membership.  On a world with a
    database it changes nothing; an answer is a stored template with the
    asked key, and the answer is null exactly when no stored template has
    that key, which is exactly when initializing tracking against that key
    throws 'Checklist not found'. *)
Theorem getChecklist_spec tenantId checklistId d clk n :
  exists answer,
    ComplianceRouter.getChecklist checklistId (worldOf d clk n)
    = (Ok answer, worldOf d clk n)
    /\ (forall c, answer = Some c ->
                  In c (complianceChecklists d) /\ Checklist.rid c = checklistId)
    /\ (answer = None
        <-> forall c, In c (complianceChecklists d) -> Checklist.rid c <> checklistId)
    /\ (answer = None
        <-> fst (initializeTenantCompliance tenantId checklistId (worldOf d clk n))
            = Throw ChecklistNotFound).
Proof.
  eexists. split; [apply getChecklist_run |].
  rewrite initializeTenantCompliance_run.
  destruct (find _ (complianceChecklists d)) as [c |] eqn:Hf.
  - apply find_some in Hf. destruct Hf as [Hin Hid]. apply String.eqb_eq in Hid.
    split; [intros c' [= <-]; auto |].
    split; (split; [discriminate |]).
    + intros H. exfalso. exact (H c Hin Hid).
    + cbv zeta. destruct (forallb dueDateParses (itemsOf c)); discriminate.
  - split; [discriminate |]. split; (split; [intros _ | reflexivity]).
    + intros c Hin Hid. apply (find_none _ _ Hf) in Hin.
      rewrite Hid, String.eqb_refl in Hin. discriminate.
    + reflexivity.
Qed.


End RouterReads.

Lemma router_reads_own_tenant_witness :
  let w := worldOf threeTenants 1000 0 in
  authorized "V" "B" w
  /\ exists rows,
       ComplianceRouter.getStatus "V" "B" None w = (Ok rows, w)
       /\ Forall (fun r => Compliance.tenantId r = "B"%string) rows.
Proof.
  cbv zeta.
  assert (H : authorized "V" "B" (worldOf threeTenants 1000 0))
    by (eexists; reflexivity).
  split; [exact H |].
  destruct (router_reads_own_tenant (rt := ExampleRuntime.utc)
              "V" "B" None (Number.ofZ 30) (worldOf threeTenants 1000 0) H)
    as (rows & deadlines & Hrun & Hrows & _).
  exists rows. split; [exact Hrun |].
  revert Hrows. apply Forall_impl. intros r Hr. exact (proj1 Hr).
Defined.

Lemma getDashboard_consistent_witness :
  let w := worldOf threeTenants 1000 0 in
  authorized "V" "B" w
  /\ exists dash,
       ComplianceRouter.getDashboard (rt := ExampleRuntime.utc) "V" "B" w
       = (Ok dash, w)
       /\ total (ComplianceRouter.dash_stats dash)
          = Z.of_nat (List.length (ComplianceRouter.dash_status dash)).
Proof.
  cbv zeta.
  assert (H : authorized "V" "B" (worldOf threeTenants 1000 0))
    by (eexists; reflexivity).
  split; [exact H |].
  destruct (getDashboard_consistent (rt := ExampleRuntime.utc)
              "V" "B" (worldOf threeTenants 1000 0) H)
    as (dash & Hrun & _ & _ & _ & Htotal & _).
  exists dash. split; assumption.
Defined.


(** ** Reminder dispatch bookkeeping *)

Section Pending.
Context {rt : Runtime}.
Import Service.

Lemma getPendingReminders_run d clk n :
  getPendingReminders (worldOf d clk n)
  = (Ok (filter (pendingAt clk) (complianceReminders d)), worldOf d clk n).
Proof. reflexivity. Qed.

Lemma pendingAt_markSentRow clk now r : pendingAt clk (markSentRow now r) = false.
Proof. reflexivity. Qed.

Lemma filter_updateWhere_markSent reminderId clk now rows :
  filter (pendingAt clk)
    (updateWhere (fun r => (Reminder.id r =? reminderId)%string)
                 (markSentRow now) rows)
  = filter (fun r => pendingAt clk r && negb (Reminder.id r =? reminderId)%string)
           rows.
Proof.
  unfold updateWhere. induction rows as [| r rows IH]; [reflexivity |].
  cbn [map filter]. rewrite IH.
  destruct (Reminder.id r =? reminderId)%string.
  - rewrite pendingAt_markSentRow, andb_false_r. reflexivity.
  - rewrite andb_true_r. reflexivity.
Qed.



Lemma updateWhere_none {R} (p : R -> bool) (f : R -> R) rows :
  (forall r, In r rows -> p r = false) -> updateWhere p f rows = rows.
Proof.
  intros H. unfold updateWhere. rewrite <- (map_id rows) at 2.
  apply map_ext_in. intros r Hr. rewrite (H r Hr). reflexivity.
Qed.

(** X9.  A status update and a mark-as-sent with a key that no stored row
    has succeed silently: no error is raised and the world is left exactly
    as it was. *)
Theorem unknown_key_is_silent complianceId reminderId st userId notes atts d clk n :
  unknownRecord complianceId d ->
  unknownReminder reminderId d ->
  updateComplianceStatus complianceId st userId notes atts (worldOf d clk n)
  = (Ok tt, worldOf d clk n)
  /\ markReminderSent reminderId (worldOf d clk n) = (Ok tt, worldOf d clk n).
Proof.
  intros Hrec Hrem. rewrite updateComplianceStatus_run, markReminderSent_run.
  unfold with_tenantCompliance, with_complianceReminders.
  rewrite !updateWhere_none.
  - destruct d; split; reflexivity.
  - intros r Hr. apply String.eqb_neq. auto.
  - intros r Hr. apply String.eqb_neq. auto.
Qed.

End Pending.

Lemma unknown_key_is_silent_witness :
  unknownRecord "nope" threeTenants
  /\ unknownReminder "nope" threeTenants
  /\ Service.updateComplianceStatus "nope" completed "U" None None
       (worldOf threeTenants 5 0)
     = (Ok tt, worldOf threeTenants 5 0).
Proof.
  assert (H1 : unknownRecord "nope" threeTenants).
  { intros r [<- | []]. discriminate. }
  assert (H2 : unknownReminder "nope" threeTenants) by (intros r []).
  split; [exact H1 |]. split; [exact H2 |].
  exact (proj1 (unknown_key_is_silent "nope" "nope" completed "U" None None
                  threeTenants 5 0 H1 H2)).
Defined.

(** A reminder due at time 500 is pending at 501, not at 500, and not
    after it is marked as sent. *)
Example pending_strictly_after :
  fst (Service.getPendingReminders (worldOf oneUnsentReminder 500 0)) = Ok []
  /\ fst (Service.getPendingReminders (worldOf oneUnsentReminder 501 0))
     = Ok [unsentReminder]
  /\ fst (Service.getPendingReminders
            (snd (Service.markReminderSent "rem2" (worldOf oneUnsentReminder 501 0))))
     = Ok [].
Proof. repeat split. Qed.

(** ** Statistics, deadlines and the life of a record *)

Section StatsMore.
Context {rt : Runtime}.
Import Service.

Lemma isOverdue_open now i :
  isOverdue now i = true ->
  hasStatus in_progress i = true \/ hasStatus not_started i = true.
Proof.
  unfold isOverdue, hasStatus.
  destruct (Compliance.nextDueDate i); [| discriminate].
  destruct (Compliance.status i); cbn; rewrite ?andb_false_r; auto; discriminate.
Qed.

Lemma count_overdue_open now items :
  count (isOverdue now) items
  <= count (hasStatus in_progress) items + count (hasStatus not_started) items.
Proof.
  induction items as [| i items IH]; [reflexivity |].
  rewrite !count_cons.
  destruct (isOverdue now i) eqn:Ho; [| destruct (hasStatus in_progress i),
    (hasStatus not_started i); lia].
  destruct (isOverdue_open now i Ho) as [-> | ->];
    [destruct (hasStatus not_started i) | destruct (hasStatus in_progress i)]; lia.
Qed.

(** X10.  In the statistics of a tenant the overdue count never exceeds
    the records that are in progress or not started, so overdue and
    completed together never exceed the total; a record without due date,
    or due exactly now or later, or completed or skipped, is never counted
    as overdue. *)
Theorem stats_overdue_bounds tenantId checklistId d clk n :
  exists s,
    getComplianceStats tenantId checklistId (worldOf d clk n)
    = (Ok s, worldOf d clk n)
    /\ 0 <= overdue s <= inProgress s + notStarted s
    /\ overdue s + completedCount s <= total s
    /\ overdue s = count (isOverdue (Some clk)) (selected tenantId checklistId d)
    /\ (forall i, isOverdue (Some clk) i = true ->
          exists u, Compliance.nextDueDate i = Some (Some u) /\ u < clk
                    /\ Compliance.status i <> completed
                    /\ Compliance.status i <> skipped).
Proof.
  eexists. split; [apply getComplianceStats_run |].
  cbn [overdue inProgress notStarted completedCount total].
  set (items := selected tenantId checklistId d).
  pose proof (count_overdue_open (Some clk) items) as Ho.
  pose proof (status_partition items) as Hp.
  pose proof (count_nonneg (isOverdue (Some clk)) items).
  pose proof (count_nonneg (hasStatus skipped) items).
  split; [lia |]. split; [lia |]. split; [reflexivity |].
  intros i Hi. unfold isOverdue, DateObj.dateLt in Hi.
  destruct (Compliance.nextDueDate i) as [[u |] |]; try discriminate.
  apply andb_true_iff in Hi. destruct Hi as [Hi Hs].
  apply andb_true_iff in Hi. destruct Hi as [Hlt Hc].
  exists u. apply Z.ltb_lt in Hlt.
  apply negb_true_iff in Hc, Hs.
  repeat split; trivial; intros E; rewrite E in *; discriminate.
Qed.


End StatsMore.

Section RecordLife.
Context {rt : Runtime}.
Import Service.

Lemma atTime_worldOf clk2 d clk n : atTime clk2 (worldOf d clk n) = worldOf d clk2 n.
Proof. reflexivity. Qed.

Lemma initialize_tracking tenantId checklistId cl d clk n :
  find (fun c => (Checklist.rid c =? checklistId)%string) (complianceChecklists d)
  = Some cl ->
  forallb dueDateParses (itemsOf cl) = true ->
  exists d',
    initializeTenantCompliance tenantId checklistId (worldOf d clk n)
    = (Ok tt, worldOf d' clk (n + List.length (itemsOf cl)))
    /\ tenantCompliance d'
       = tenantCompliance d
         ++ expectedRecords tenantId checklistId clk n (itemsOf cl)
    /\ complianceChecklists d' = complianceChecklists d.
Proof.
  intros Hf Hparse. rewrite initializeTenantCompliance_run, Hf. cbv zeta.
  rewrite Hparse.
  destruct (0 <? List.length _)%nat eqn:Hpos.
  - eexists. split; [reflexivity |]. split; reflexivity.
  - exists d. split; [reflexivity |]. split; [| reflexivity].
    destruct (expectedRecords tenantId checklistId clk n (itemsOf cl));
      [rewrite app_nil_r; reflexivity | discriminate].
Qed.

Lemma selected_expectedRecords tenantId checklistId clk items : forall k,
  filter (fun i => (Compliance.tenantId i =? tenantId)%string && true)
         (expectedRecords tenantId checklistId clk k items)
  = expectedRecords tenantId checklistId clk k items.
Proof.
  induction items as [| item rest IH]; intros k; [reflexivity |].
  cbn [expectedRecords filter]. unfold expectedRecord at 1.
  cbn [Compliance.tenantId]. rewrite String.eqb_refl, IH. reflexivity.
Qed.

Lemma count_expectedRecords st tenantId checklistId clk items : forall k,
  count (hasStatus st) (expectedRecords tenantId checklistId clk k items)
  = if Status_eqb not_started st then Z.of_nat (List.length items) else 0.
Proof.
  induction items as [| item rest IH]; intros k.
  - destruct (Status_eqb not_started st); reflexivity.
  - cbn [expectedRecords]. rewrite count_cons, IH.
    unfold hasStatus, expectedRecord. cbn [Compliance.status List.length].
    destruct (Status_eqb not_started st); lia.
Qed.

Lemma count_overdue_expectedRecords clk2 tenantId checklistId clk items : forall k,
  count (isOverdue (Some clk2)) (expectedRecords tenantId checklistId clk k items)
  = count (itemOverdueAt clk2) items.
Proof.
  induction items as [| item rest IH]; intros k; [reflexivity |].
  cbn [expectedRecords]. rewrite !count_cons, IH. f_equal.
  unfold isOverdue, itemOverdueAt, expectedRecord.
  cbn [Compliance.nextDueDate Compliance.status Status_eqb negb].
  destruct (dueOf item); [rewrite !andb_true_r |]; reflexivity.
Qed.

(** X12.  For a tenant without tracking records, initializing tracking
    against a stored template whose due-date texts are all absent, empty
    or dates, and then asking for the statistics, at whatever later time,
    gives: total and not-started equal to the number of items of the
    template, nothing completed or in progress, a completion rate of 0, and
    as many overdue records as there are items with a due date strictly
    before the time of asking. *)
Theorem initialize_then_stats tenantId checklistId cl d clk n clk2 :
  find (fun c => (Checklist.rid c =? checklistId)%string) (complianceChecklists d)
  = Some cl ->
  forallb dueDateParses (itemsOf cl) = true ->
  selected tenantId None d = [] ->
  let w1 := snd (initializeTenantCompliance tenantId checklistId (worldOf d clk n)) in
  let items := Z.of_nat (List.length (itemsOf cl)) in
  fst (getComplianceStats tenantId None (atTime clk2 w1))
  = Ok (mkStats items 0 0 items (count (itemOverdueAt clk2) (itemsOf cl)) 0).
Proof.
  intros Hf Hparse Hempty. cbv zeta.
  destruct (initialize_tracking tenantId checklistId cl d clk n Hf Hparse)
    as (d' & Hrun & Htr & _).
  rewrite Hrun. cbn [snd]. rewrite atTime_worldOf.
  rewrite getComplianceStats_run. cbv zeta. cbn [fst].
  assert (Hsel : selected tenantId None d'
                 = expectedRecords tenantId checklistId clk n (itemsOf cl)).
  { unfold selected in *. rewrite Htr, filter_app, Hempty.
    apply selected_expectedRecords. }
  rewrite Hsel, !count_expectedRecords, count_overdue_expectedRecords,
    expectedRecords_length.
  cbn [Status_eqb].
  destruct (Z.ltb_spec 0 (Z.of_nat (List.length (itemsOf cl)))) as [Hp | Hz].
  - unfold roundPercent. rewrite Z.div_small by lia. reflexivity.
  - reflexivity.
Qed.

Lemma expectedRecords_itemIds tenantId checklistId clk items : forall k,
  map Compliance.itemId (expectedRecords tenantId checklistId clk k items)
  = map Checklist.id items.
Proof.
  induction items as [| item rest IH]; intros k; [reflexivity |].
  cbn [expectedRecords map]. rewrite IH. reflexivity.
Qed.

Lemma expectedRecords_fresh tenantId checklistId clk items : forall k,
  Forall (fun r => Compliance.tenantId r = tenantId
                   /\ Compliance.checklistId r = checklistId
                   /\ Compliance.status r = not_started)
         (expectedRecords tenantId checklistId clk k items).
Proof.
  induction items as [| item rest IH]; intros k; cbn [expectedRecords];
    constructor; auto.
Qed.

(** X13.  Initialization is not idempotent: for a stored template whose
    due-date texts are all absent, empty or dates, a second initialization
    of the same tenant against it succeeds as the first did and appends a
    second record for every item, so that every item key of the template
    then occurs twice among the new records. *)
Theorem initialize_twice_duplicates tenantId checklistId cl d clk n :
  find (fun c => (Checklist.rid c =? checklistId)%string) (complianceChecklists d)
  = Some cl ->
  forallb dueDateParses (itemsOf cl) = true ->
  let w1 := snd (initializeTenantCompliance tenantId checklistId (worldOf d clk n)) in
  exists first second,
    fst (initializeTenantCompliance tenantId checklistId w1) = Ok tt
    /\ tracking (snd (initializeTenantCompliance tenantId checklistId w1))
       = tenantCompliance d ++ first ++ second
    /\ map Compliance.itemId first = map Checklist.id (itemsOf cl)
    /\ map Compliance.itemId second = map Checklist.id (itemsOf cl)
    /\ Forall (fun r => Compliance.tenantId r = tenantId
                        /\ Compliance.checklistId r = checklistId
                        /\ Compliance.status r = not_started)
              (first ++ second).
Proof.
  intros Hf Hparse. cbv zeta.
  destruct (initialize_tracking tenantId checklistId cl d clk n Hf Hparse)
    as (d1 & Hrun1 & Htr1 & Hcl1).
  rewrite Hrun1. cbn [snd].
  assert (Hf1 : find (fun c => (Checklist.rid c =? checklistId)%string)
                     (complianceChecklists d1) = Some cl)
    by (rewrite Hcl1; exact Hf).
  destruct (initialize_tracking tenantId checklistId cl d1 clk
              (n + List.length (itemsOf cl)) Hf1 Hparse) as (d2 & Hrun2 & Htr2 & _).
  rewrite Hrun2. cbn [fst snd]. rewrite tracking_worldOf, Htr2, Htr1, <- app_assoc.
  do 2 eexists. split; [reflexivity |]. split; [reflexivity |].
  rewrite !expectedRecords_itemIds. split; [reflexivity |]. split; [reflexivity |].
  apply Forall_app. split; apply expectedRecords_fresh.
Qed.

End RecordLife.

Lemma initialize_then_stats_witness :
  find (fun c => (Checklist.rid c =? "CL1")%string)
       (complianceChecklists templateOnly) = Some exampleTemplate
  /\ forallb (dueDateParses (rt := ExampleRuntime.utc)) (itemsOf exampleTemplate) = true
  /\ selected "T1" None templateOnly = []
  /\ fst (Service.getComplianceStats "T1" None
            (atTime 2000000000000
               (snd (Service.initializeTenantCompliance (rt := ExampleRuntime.utc)
                       "T1" "CL1" (worldOf templateOnly 0 0)))))
     = Ok (mkStats 3 0 0 3 1 0).
Proof.
  assert (H1 : find (fun c => (Checklist.rid c =? "CL1")%string)
                    (complianceChecklists templateOnly) = Some exampleTemplate)
    by reflexivity.
  assert (Hp : forallb (dueDateParses (rt := ExampleRuntime.utc))
                 (itemsOf exampleTemplate) = true) by reflexivity.
  assert (H2 : selected "T1" None templateOnly = []) by reflexivity.
  split; [exact H1 |]. split; [exact Hp |]. split; [exact H2 |].
  exact (initialize_then_stats (rt := ExampleRuntime.utc) "T1" "CL1"
           exampleTemplate templateOnly 0 0 2000000000000 H1 Hp H2).
Defined.

Lemma initialize_twice_duplicates_witness :
  find (fun c => (Checklist.rid c =? "CL1")%string)
       (complianceChecklists templateOnly) = Some exampleTemplate
  /\ forallb (dueDateParses (rt := ExampleRuntime.utc)) (itemsOf exampleTemplate) = true
  /\ exists first second,
       tracking
         (snd (Service.initializeTenantCompliance (rt := ExampleRuntime.utc)
                 "T1" "CL1"
                 (snd (Service.initializeTenantCompliance (rt := ExampleRuntime.utc)
                         "T1" "CL1" (worldOf templateOnly 0 0)))))
       = tenantCompliance templateOnly ++ first ++ second
       /\ map Compliance.itemId first = map Compliance.itemId second.
Proof.
  assert (H1 : find (fun c => (Checklist.rid c =? "CL1")%string)
                    (complianceChecklists templateOnly) = Some exampleTemplate)
    by reflexivity.
  assert (Hp : forallb (dueDateParses (rt := ExampleRuntime.utc))
                 (itemsOf exampleTemplate) = true) by reflexivity.
  split; [exact H1 |]. split; [exact Hp |].
  destruct (initialize_twice_duplicates (rt := ExampleRuntime.utc) "T1" "CL1"
              exampleTemplate templateOnly 0 0 H1 Hp)
    as (first & second & _ & Htr & Hi1 & Hi2 & _).
  exists first, second. split; [exact Htr |]. rewrite Hi1, Hi2. reflexivity.
Defined.

Section Completion.
Import Service.

Lemma applySet_id u r : Compliance.id (applySet u r) = Compliance.id r.
Proof. reflexivity. Qed.

Lemma applySet_tenantId u r : Compliance.tenantId (applySet u r) = Compliance.tenantId r.
Proof. reflexivity. Qed.

Lemma ofTenant_applySet tenantId u r :
  ofTenant tenantId (applySet u r) = ofTenant tenantId r.
Proof. reflexivity. Qed.

Lemma updateWhere_unknown cid u rows :
  ~ In cid (map Compliance.id rows) ->
  updateWhere (fun r => (Compliance.id r =? cid)%string) (applySet u) rows = rows.
Proof.
  intros H. apply updateWhere_none. intros r Hr. apply String.eqb_neq.
  intros E. apply H. rewrite <- E. apply in_map. exact Hr.
Qed.

Lemma filter_updateWhere tenantId cid u rows :
  filter (ofTenant tenantId)
    (updateWhere (fun r => (Compliance.id r =? cid)%string) (applySet u) rows)
  = updateWhere (fun r => (Compliance.id r =? cid)%string) (applySet u)
      (filter (ofTenant tenantId) rows).
Proof.
  unfold updateWhere. induction rows as [| r rows IH]; [reflexivity |].
  cbn [map filter].
  destruct (Compliance.id r =? cid)%string eqn:E.
  - rewrite ofTenant_applySet. destruct (ofTenant tenantId r); [| exact IH].
    cbn [map]. rewrite E, IH. reflexivity.
  - destruct (ofTenant tenantId r); [| exact IH].
    cbn [map]. rewrite E, IH. reflexivity.
Qed.

Lemma count_completed_update tenantId cid u r rows :
  set_status u = completed ->
  NoDup (map Compliance.id rows) ->
  In r rows -> Compliance.id r = cid ->
  ofTenant tenantId r = true -> Compliance.status r <> completed ->
  count (hasStatus completed)
    (filter (ofTenant tenantId)
       (updateWhere (fun x => (Compliance.id x =? cid)%string) (applySet u) rows))
  = count (hasStatus completed) (filter (ofTenant tenantId) rows) + 1.
Proof.
  intros Hu Hnd Hin Hid Ht Hst.
  induction rows as [| x rows IH]; [destruct Hin |].
  cbn [map] in Hnd. apply NoDup_cons_iff in Hnd. destruct Hnd as [Hx Hnd].
  destruct Hin as [-> | Hin].
  - unfold updateWhere. cbn [map]. fold (updateWhere (fun x => (Compliance.id x =? cid)%string) (applySet u) rows).
    rewrite Hid, String.eqb_refl. rewrite Hid in Hx.
    rewrite (updateWhere_unknown cid u rows Hx).
    cbn [filter]. rewrite ofTenant_applySet, Ht, !count_cons.
    unfold hasStatus at 1 3. cbn [applySet Compliance.status]. rewrite Hu.
    destruct (Status_eqb (Compliance.status r) completed) eqn:E;
      [apply Status_eqb_eq in E; contradiction |].
    cbn [Status_eqb]. lia.
  - assert (Hne : (Compliance.id x =? cid)%string = false).
    { apply String.eqb_neq. intros E. apply Hx. rewrite E, <- Hid.
      apply in_map. exact Hin. }
    unfold updateWhere. cbn [map]. fold (updateWhere (fun x => (Compliance.id x =? cid)%string) (applySet u) rows).
    rewrite Hne. cbn [filter].
    destruct (ofTenant tenantId x); [rewrite !count_cons |]; rewrite (IH Hnd Hin); lia.
Qed.

Lemma selected_ofTenant tenantId d :
  selected tenantId None d = filter (ofTenant tenantId) (tenantCompliance d).
Proof. reflexivity. Qed.

(** X14.  When the tracking keys are distinct, completing a record of the
    tenant that was not completed raises the completed count of the
    tenant's statistics by exactly one and leaves the total; the record
    then carries the acting user and the time of the call. *)
Theorem complete_then_stats tenantId cid userId notes atts r d clk n clk2 :
  distinctKeys d ->
  In r (tenantCompliance d) ->
  Compliance.id r = cid ->
  Compliance.tenantId r = tenantId ->
  Compliance.status r <> completed ->
  let w1 := snd (updateComplianceStatus cid completed userId notes atts
                   (worldOf d clk n)) in
  exists before after,
    fst (getComplianceStats tenantId None (worldOf d clk n)) = Ok before
    /\ fst (getComplianceStats tenantId None (atTime clk2 w1)) = Ok after
    /\ completedCount after = completedCount before + 1
    /\ total after = total before
    /\ exists r', In r' (tracking w1)
                  /\ Compliance.id r' = cid
                  /\ Compliance.status r' = completed
                  /\ Compliance.completedBy r' = Some userId
                  /\ Compliance.completedAt r' = Some (Some clk).
Proof.
  intros Hnd Hin Hid Ht Hst. cbv zeta.
  rewrite updateComplianceStatus_run. cbn [snd]. rewrite atTime_worldOf.
  rewrite !getComplianceStats_run. cbv zeta. cbn [fst].
  do 2 eexists. split; [reflexivity |]. split; [reflexivity |].
  cbn [completedCount total]. rewrite tracking_worldOf.
  rewrite !selected_ofTenant.
  cbn [with_tenantCompliance tenantCompliance].
  assert (Hof : ofTenant tenantId r = true)
    by (unfold ofTenant; rewrite Ht, String.eqb_refl; reflexivity).
  split; [| split].
  - apply (count_completed_update tenantId cid _ r); trivial.
  - rewrite filter_updateWhere. unfold updateWhere. rewrite length_map. reflexivity.
  - exists (applySet (updateDataOf clk completed userId notes atts) r).
    split.
    + unfold updateWhere. apply in_map_iff. exists r.
      rewrite Hid, String.eqb_refl. auto.
    + cbn. auto.
Qed.

Lemma applySet_twice clk1 clk2 st userId notes atts r :
  applySet (updateDataOf clk2 st userId notes atts)
    (applySet (updateDataOf clk1 st userId notes atts) r)
  = applySet (updateDataOf clk2 st userId notes atts) r.
Proof.
  unfold applySet, updateDataOf.
  cbn [Compliance.id Compliance.tenantId Compliance.checklistId Compliance.itemId
       Compliance.nextDueDate Compliance.reminderSent Compliance.createdAt
       Compliance.status Compliance.updatedAt Compliance.completedAt
       Compliance.completedBy Compliance.notes Compliance.attachments
       set_status set_updatedAt set_completedAt set_completedBy set_notes
       set_attachments].
  destruct (Status_eqb st completed), notes, atts; reflexivity.
Qed.

(** X15.  Repeating a status update with the same arguments is harmless:
    the world after the two calls is the world after the second call alone,
    so only the time stamps of the update move. *)
Theorem repeated_update_last_wins cid st userId notes atts d clk n clk2 :
  let w1 := snd (updateComplianceStatus cid st userId notes atts (worldOf d clk n)) in
  updateComplianceStatus cid st userId notes atts (atTime clk2 w1)
  = updateComplianceStatus cid st userId notes atts (worldOf d clk2 n)
  /\ snd (updateComplianceStatus cid st userId notes atts w1) = w1.
Proof.
  cbv zeta. rewrite updateComplianceStatus_run. cbn [snd]. rewrite atTime_worldOf.
  rewrite !updateComplianceStatus_run.
  assert (Htwice : forall c1 c2 rows,
             updateWhere (fun r => (Compliance.id r =? cid)%string)
               (applySet (updateDataOf c2 st userId notes atts))
               (updateWhere (fun r => (Compliance.id r =? cid)%string)
                  (applySet (updateDataOf c1 st userId notes atts)) rows)
             = updateWhere (fun r => (Compliance.id r =? cid)%string)
                 (applySet (updateDataOf c2 st userId notes atts)) rows).
  { intros c1 c2 rows. unfold updateWhere. rewrite map_map. apply map_ext.
    intros r. destruct (Compliance.id r =? cid)%string eqn:E.
    - rewrite applySet_id, E. apply applySet_twice.
    - rewrite E. reflexivity. }
  unfold with_tenantCompliance.
  cbn [complianceChecklists tenantCompliance complianceReminders tenants
       userTenants tenantModules snd].
  rewrite !Htwice. split; reflexivity.
Qed.

End Completion.

Lemma complete_then_stats_witness :
  let r := exampleRecord "r1" "B" not_started None in
  distinctKeys threeTenants
  /\ In r (tenantCompliance threeTenants)
  /\ Compliance.status r <> completed
  /\ exists before after,
       fst (Service.getComplianceStats "B" None (worldOf threeTenants 10 0))
       = Ok before
       /\ fst (Service.getComplianceStats "B" None
                 (atTime 20
                    (snd (Service.updateComplianceStatus "r1" completed "V"
                            None None (worldOf threeTenants 10 0)))))
          = Ok after
       /\ completedCount after = completedCount before + 1.
Proof.
  cbv zeta.
  assert (H1 : distinctKeys threeTenants)
    by (unfold distinctKeys; cbn; repeat constructor; intros []).
  assert (H2 : In (exampleRecord "r1" "B" not_started None)
                  (tenantCompliance threeTenants)) by (left; reflexivity).
  assert (H3 : Compliance.status (exampleRecord "r1" "B" not_started None)
               <> completed) by discriminate.
  split; [exact H1 |]. split; [exact H2 |]. split; [exact H3 |].
  destruct (complete_then_stats "B" "r1" "V" None None _ threeTenants 10 0 20
              H1 H2 eq_refl eq_refl H3)
    as (before & after & Hb & Ha & Hc & _).
  exists before, after. auto.
Defined.

(** ** How far the next due date lies *)

Section Advance.
Context {rt : Runtime}.
Import JSDate JSDateFacts DateObj Service.

Lemma month_carry Y M n :
  0 <= M <= 11 -> 0 <= n <= 12 ->
  (12 * Y + M + n) / 12 = (if M + n <? 12 then Y else Y + 1)
  /\ (12 * Y + M + n) mod 12 = (if M + n <? 12 then M + n else M + n - 12).
Proof.
  intros HM Hn. destruct (Z.ltb_spec (M + n) 12); Z.div_mod_to_equations; lia.
Qed.

Ltac closed_months :=
  repeat match goal with
         | |- context [?a + ?b <? 12] =>
             let v := eval vm_compute in (a + b <? 12) in
             change (a + b <? 12) with v
         end;
  cbv iota;
  repeat match goal with
         | |- context [DaysBeforeMonth (?a + ?b) ?l] =>
             let v := eval vm_compute in (a + b) in change (a + b) with v
         | |- context [DaysBeforeMonth (?a - ?b) ?l] =>
             let v := eval vm_compute in (a - b) in change (a - b) with v
         end;
  cbn [DaysBeforeMonth].

Lemma monthSpan_bounds Y M :
  0 <= M <= 11 ->
  monthSpan Y M 1 = DaysInMonth Y M
  /\ 28 <= monthSpan Y M 1 <= 31
  /\ 89 <= monthSpan Y M 3 <= 92
  /\ 365 <= monthSpan Y M 12 <= 366.
Proof.
  intros HM. unfold monthSpan.
  destruct (month_carry Y M 1 HM ltac:(lia)) as [-> ->].
  destruct (month_carry Y M 3 HM ltac:(lia)) as [-> ->].
  destruct (month_carry Y M 12 HM ltac:(lia)) as [-> ->].
  pose proof (LeapFlag_cases Y) as Hl.
  pose proof (LeapFlag_cases (Y + 1)) as Hl'.
  pose proof (DayFromYear_succ Y) as Hs. rewrite LeapFlag_days in Hs.
  assert (Hc : M = 0 \/ M = 1 \/ M = 2 \/ M = 3 \/ M = 4 \/ M = 5 \/ M = 6
               \/ M = 7 \/ M = 8 \/ M = 9 \/ M = 10 \/ M = 11) by lia.
  unfold firstOfMonth, DaysInMonth.
  repeat (destruct Hc as [-> | Hc]; [closed_months; lia |]).
  rewrite Hc. closed_months. lia.
Qed.

Lemma addMonths_span n t0 :
  addMonths n (Some t0)
  = TimeClip (t0 + monthSpan (YearFromTime (LocalTime t0))
                             (MonthFromTime (LocalTime t0)) n * msPerDay).
Proof.
  rewrite addMonths_unfold. f_equal. unfold monthSpan.
  set (t := LocalTime t0).
  pose proof (MakeDay_fields t) as Hf.
  rewrite MakeDay_in_year in Hf by apply MonthFromTime_bounds.
  fold (firstOfMonth (YearFromTime t) (MonthFromTime t)) in Hf.
  pose proof (MakeDate_parts t) as Hp.
  generalize dependent (firstOfMonth ((12 * YearFromTime t + MonthFromTime t + n) / 12)
                          ((12 * YearFromTime t + MonthFromTime t + n) mod 12)).
  intros F. generalize dependent (firstOfMonth (YearFromTime t) (MonthFromTime t)).
  intros F0 Hf. unfold UTC, MakeDate in *. unfold t, LocalTime in *. lia.
Qed.


End Advance.

(** ** Quarterly reminders: how many, and when they fall due *)

Section QuarterlyMore.
Context {rt : Runtime}.
Import JSDate JSDateFacts DateObj Service.

Lemma remindersOf_In t c clk q qs : forall k,
  In q qs -> exists k', In (reminderOf t c clk k' q) (remindersOf t c clk k qs).
Proof.
  induction qs as [| q0 qs IH]; intros k Hin; [destruct Hin |].
  destruct Hin as [-> | Hin].
  - exists k. left. reflexivity.
  - destruct (IH (S k) Hin) as [k' Hk']. exists k'. right. exact Hk'.
Qed.

Lemma remindersOf_inv t c clk r qs : forall k,
  In r (remindersOf t c clk k qs) ->
  exists k' q, In q qs /\ r = reminderOf t c clk k' q.
Proof.
  induction qs as [| q0 qs IH]; intros k Hin; [destruct Hin |].
  destruct Hin as [<- | Hin].
  - exists k, q0. split; [left |]; reflexivity.
  - destruct (IH (S k) Hin) as (k' & q & Hq & ->). exists k', q.
    split; [right; exact Hq | reflexivity].
Qed.

Lemma next_january_in_future clk :
  0 <= clk <= 8000000000000000 ->
  inFuture clk (mkQuarter (localMidnight (YearFromTime (LocalTime clk) + 1) 1 15) "Q4")
  = true.
Proof.
  intros Hclk. set (Y := YearFromTime (LocalTime clk)).
  pose proof (YearFromTime_bounds (LocalTime clk)) as Hb. fold Y in Hb.
  pose proof tz_range as Htz.
  assert (Hday : Day (LocalTime clk) < DayFromYear (Y + 1)).
  { unfold Day, TimeFromYear in *. unfold msPerDay in *.
    Z.div_mod_to_equations. lia. }
  assert (Hmax : DayFromYear (Y + 1) < 99999000).
  { rewrite DayFromYear_succ.
    destruct (DaysInYear_cases Y) as [-> | ->];
      unfold TimeFromYear, LocalTime in Hb; unfold msPerDay in *; lia. }
  apply localMidnight_after; [| lia |];
    unfold firstOfMonth; change (1 - 1) with 0; cbn [DaysBeforeMonth]; lia.
Qed.


End QuarterlyMore.


(** On April 10, 2025 the reminder of April 15 is dated April 8 and is
    pending at once; on December 1 only the January reminder is added. *)
Example quarterly_edge_cases :
  let april10 := worldOf emptyDatabase (ExampleRuntime.utcMidnight 2025 4 10) 0 in
  let december := worldOf emptyDatabase (ExampleRuntime.utcMidnight 2025 12 1) 0 in
  option_map (map Reminder.scheduledFor)
    (match fst (Service.getPendingReminders
                  (snd (Service.scheduleQuarterlyTaxReminders
                          (rt := ExampleRuntime.utc) "T1" "R1" april10))) with
     | Ok l => Some l | Throw _ => None end)
  = Some [Some (ExampleRuntime.utcMidnight 2025 4 8)]
  /\ map Reminder.scheduledFor
       (reminders (snd (Service.scheduleQuarterlyTaxReminders
                          (rt := ExampleRuntime.utc) "T1" "R1" december)))
     = [Some (ExampleRuntime.utcMidnight 2026 1 8)].
Proof. cbv zeta. split; vm_compute; reflexivity. Qed.

(** ** Templates on offer *)

Section ActiveChecklists.
Import Service.

(** X18.  [getActiveChecklists] changes nothing and never fails on a world
    with a database, also when nothing matches.  It returns, in table
    order, exactly the stored templates that are active and match both
    filters; an absent or empty filter matches every template, and a
    template without region (or business type) matches no non-empty region
    (or business type) filter. *)
Theorem getActiveChecklists_spec region businessType d clk n :
  exists res,
    getActiveChecklists region businessType (worldOf d clk n)
    = (Ok res, worldOf d clk n)
    /\ (forall c,
          In c res
          <-> In c (complianceChecklists d)
              /\ activeTemplate c = true
              /\ matchesFilter region (Checklist.region (Checklist.rdata c))
              /\ matchesFilter businessType
                   (Checklist.businessType (Checklist.rdata c)))
    /\ (exists keep, res = filter keep (complianceChecklists d))
    /\ (truthyOpt region = false -> truthyOpt businessType = false ->
        res = filter activeTemplate (complianceChecklists d)).
Proof.
  eexists. split; [reflexivity |].
  assert (Hmatch : forall (flt col : option string),
             match flt with
             | Some r => if truthy r
                         then match col with Some s => (s =? r)%string | None => false end
                         else true
             | None => true
             end = true <-> matchesFilter flt col).
  { intros flt col. unfold matchesFilter, truthy. destruct flt as [f |].
    - destruct (String.eqb_spec f "") as [-> | Hne]; cbn [negb].
      + split; [intros _ f' [= <-] Hf; contradiction | reflexivity].
      + destruct col as [s |].
        * split.
          -- intros H f' [= <-] _. apply String.eqb_eq in H. congruence.
          -- intros H. specialize (H f eq_refl Hne). injection H as ->.
             apply String.eqb_refl.
        * split; [discriminate |]. intros H. specialize (H f eq_refl Hne).
          discriminate.
    - split; [intros _ f [=] | reflexivity]. }
  split; [| split].
  - intros c. rewrite filter_In, !andb_true_iff, !Hmatch.
    unfold activeTemplate. tauto.
  - eexists. reflexivity.
  - intros Hr Hb. apply filter_ext. intros c. unfold activeTemplate.
    unfold truthyOpt in Hr, Hb.
    destruct region as [r |], businessType as [b |];
      rewrite ?Hr, ?Hb, ?andb_true_r; reflexivity.
Qed.

End ActiveChecklists.

(** Of the example templates, the filter [CA] keeps the active one for
    California only; the empty filter keeps the two active ones. *)
Example active_checklists_example :
  option_map (map Checklist.rid)
    (match fst (Service.getActiveChecklists (Some "CA"%string) None
                  (worldOf regionalTemplates 0 0)) with
     | Ok l => Some l | Throw _ => None end)
  = Some ["c1"%string]
  /\ option_map (map Checklist.rid)
       (match fst (Service.getActiveChecklists (Some ""%string) None
                     (worldOf regionalTemplates 0 0)) with
        | Ok l => Some l | Throw _ => None end)
     = Some ["c1"%string; "c2"%string].
Proof. split; reflexivity. Qed.

(** ** Module entitlement *)

Section Entitlement.
Import TenantService.

Lemma includes_In l x : includes l x = true <-> In x l.
Proof.
  unfold includes. rewrite existsb_exists. split.
  - intros (y & Hy & E). apply String.eqb_eq in E. subst. exact Hy.
  - intros H. exists x. split; [exact H | apply String.eqb_refl].
Qed.

Lemma canAccessModule_tiers m :
  (canAccessModule free m = true -> canAccessModule starter m = true)
  /\ (canAccessModule starter m = true -> canAccessModule professional m = true)
  /\ (canAccessModule professional m = true -> canAccessModule enterprise m = true).
Proof.
  unfold canAccessModule. rewrite !includes_In. cbn [In]. intuition.
Qed.

(** X19.  Entitlement grows with the tier: a module that a tier may use,
    every higher tier may use.  The default modules of a new tenant never
    step outside its tier, whatever the business type: each default module
    is one the tier may use, no module is listed twice, and CRM, scheduling
    and invoicing are always among them. *)
Theorem default_modules_within_tier businessType tier :
  (forall m, canAccessModule free m = true -> canAccessModule starter m = true)
  /\ (forall m, canAccessModule starter m = true ->
                canAccessModule professional m = true)
  /\ (forall m, canAccessModule professional m = true ->
                canAccessModule enterprise m = true)
  /\ (forall m, In m (getDefaultModules businessType tier) ->
                canAccessModule tier m = true)
  /\ NoDup (getDefaultModules businessType tier)
  /\ In "crm"%string (getDefaultModules businessType tier)
  /\ In "scheduling"%string (getDefaultModules businessType tier)
  /\ In "invoicing"%string (getDefaultModules businessType tier).
Proof.
  split; [intros m; apply canAccessModule_tiers |].
  split; [intros m; apply canAccessModule_tiers |].
  split; [intros m; apply canAccessModule_tiers |].
  split; [| split].
  - assert (H : forallb (canAccessModule tier) (getDefaultModules businessType tier)
                = true) by (destruct businessType, tier; reflexivity).
    rewrite forallb_forall in H. exact H.
  - assert (H : nodup string_dec (getDefaultModules businessType tier)
                = getDefaultModules businessType tier)
      by (destruct businessType, tier; reflexivity).
    rewrite <- H. apply NoDup_nodup.
  - rewrite <- !includes_In.
    destruct businessType, tier; repeat split; reflexivity.
Qed.

End Entitlement.

(** ** The tenants of a user *)

Section TenantsOfUser.
Import TenantService.

Lemma forUserTenants_cons d ut rest :
  forUserTenants d (ut :: rest)
  = match find (fun x => (Tenant.id x =? UserTenant.tenantId ut)%string) (tenants d) with
    | Some t =>
        Router.mkTenantWithModules t
          (filter (fun m => (TenantModule.tenantId m =? UserTenant.tenantId ut)%string
                            && TenantModule.enabled m)
                  (tenantModules d))
          (UserTenant.role ut)
        :: forUserTenants d rest
    | None => forUserTenants d rest
    end.
Proof.
  cbn [forUserTenants]. rewrite limit_one_find.
  destruct (find _ (tenants d)); reflexivity.
Qed.

Lemma forUserTenants_In d ut t uts :
  In ut uts ->
  find (fun x => (Tenant.id x =? UserTenant.tenantId ut)%string) (tenants d) = Some t ->
  In (Router.mkTenantWithModules t
        (filter (fun m => (TenantModule.tenantId m =? UserTenant.tenantId ut)%string
                          && TenantModule.enabled m)
                (tenantModules d))
        (UserTenant.role ut))
     (forUserTenants d uts).
Proof.
  intros Hin Hf. induction uts as [| u0 uts IH]; [destruct Hin |].
  rewrite forUserTenants_cons.
  destruct Hin as [-> | Hin].
  - rewrite Hf. left. reflexivity.
  - destruct (find (fun x => (Tenant.id x =? UserTenant.tenantId u0)%string)
                   (tenants d)); [right |]; apply IH; exact Hin.
Qed.

Lemma forUserTenants_inv d m uts :
  In m (forUserTenants d uts) ->
  exists ut,
    In ut uts
    /\ In (Router.tenant m) (tenants d)
    /\ Tenant.id (Router.tenant m) = UserTenant.tenantId ut
    /\ Router.userRole m = UserTenant.role ut
    /\ Router.modules m
       = filter (fun x => (TenantModule.tenantId x =? UserTenant.tenantId ut)%string
                          && TenantModule.enabled x)
                (tenantModules d).
Proof.
  induction uts as [| u0 uts IH]; [intros [] |].
  rewrite forUserTenants_cons.
  destruct (find _ (tenants d)) as [t |] eqn:Hf.
  - intros [<- | Hin].
    + apply find_some in Hf. destruct Hf as [Hin Hid].
      apply String.eqb_eq in Hid.
      exists u0. cbn. repeat split; auto.
    + destruct (IH Hin) as (ut & Hut & H). exists ut. split; [right |]; auto.
  - intros Hin. destruct (IH Hin) as (ut & Hut & H). exists ut.
    split; [right |]; auto.
Qed.

Lemma forUserTenants_length d uts :
  (List.length (forUserTenants d uts) <= List.length uts)%nat.
Proof.
  induction uts as [| u0 uts IH]; [reflexivity |].
  rewrite forUserTenants_cons.
  destruct (find _ (tenants d)); cbn [List.length]; lia.
Qed.

(** X20.  [getTenantsForUser] changes nothing and lists one entry for
    each membership of the user whose tenant exists, so never more entries
    than memberships.  Every entry is a stored tenant with a membership of
    that user, its role and the enabled modules of that tenant; and every
    membership that the single-tenant lookup [getTenantForUser] answers
    with is in the list. *)
Theorem getTenantsForUser_spec userId d clk n :
  exists res,
    getTenantsForUser userId (worldOf d clk n) = (Ok res, worldOf d clk n)
    /\ (List.length res
        <= List.length (filter (fun u => (UserTenant.userId u =? userId)%string)
                               (userTenants d)))%nat
    /\ (forall m, In m res ->
          In (Router.tenant m) (tenants d)
          /\ hasMembership userId (Tenant.id (Router.tenant m)) d
          /\ Router.modules m
             = filter (fun x => (TenantModule.tenantId x
                                 =? Tenant.id (Router.tenant m))%string
                                && TenantModule.enabled x)
                      (tenantModules d))
    /\ (forall tenantId m,
          fst (Router.getTenantForUser userId tenantId (worldOf d clk n))
          = Ok (Some m) ->
          In m res).
Proof.
  eexists. split; [reflexivity |].
  split; [apply forUserTenants_length |]. split.
  - intros m Hm. apply forUserTenants_inv in Hm.
    destruct Hm as (ut & Hut & Hin & Hid & Hrole & Hmods).
    apply filter_In in Hut. destruct Hut as [Hut Hu]. apply String.eqb_eq in Hu.
    split; [exact Hin |]. split.
    + exists ut. rewrite Hid. auto.
    + rewrite Hid. exact Hmods.
  - intros tenantId m. rewrite getTenantForUser_run. cbn [fst].
    destruct (find _ (tenants d)) as [t |] eqn:Ht; [| discriminate].
    destruct (find _ (userTenants d)) as [u |] eqn:Hu; [| discriminate].
    intros [= <-].
    apply find_some in Hu. destruct Hu as [Hin Hp].
    apply andb_true_iff in Hp. destruct Hp as [Hp1 Hp2].
    apply String.eqb_eq in Hp2. subst tenantId.
    apply forUserTenants_In.
    + apply filter_In. auto.
    + exact Ht.
Qed.

End TenantsOfUser.

(** ** Slugs *)

Section Slugs.
Import TenantService.

Lemma isSlugChar_hyphen : isSlugChar hyphen = false.
Proof. reflexivity. Qed.

Lemma toLowerCaseChar_slug c :
  isSlugChar c = true \/ c = hyphen -> toLowerCaseChar c = c.
Proof.
  intros [H | ->]; [| reflexivity].
  unfold isSlugChar, toLowerCaseChar in *.
  generalize dependent (nat_of_ascii c). intros k H.
  destruct (Nat.leb_spec 65 k), (Nat.leb_spec k 90), (Nat.leb_spec 192 k),
    (Nat.leb_spec k 222), (Nat.leb_spec 97 k), (Nat.leb_spec k 122),
    (Nat.leb_spec 48 k), (Nat.leb_spec k 57);
    cbn [andb orb negb] in *; try reflexivity; try discriminate; lia.
Qed.

Lemma slugShape_weaken s : slugShape true s = true -> slugShape false s = true.
Proof.
  destruct s as [| c s]; [reflexivity |]. cbn [slugShape].
  destruct (isSlugChar c); [trivial |]. rewrite andb_false_r. discriminate.
Qed.

Lemma slugShape_hyphen b c s :
  slugShape b (String c s) = true -> isSlugChar c = false ->
  c = hyphen /\ b = false /\ slugShape true s = true.
Proof.
  cbn [slugShape]. intros H Hc. rewrite Hc in H.
  apply andb_true_iff in H. destruct H as [H H3].
  apply andb_true_iff in H. destruct H as [H1 H2].
  apply Ascii.eqb_eq in H1. apply negb_true_iff in H2. auto.
Qed.

Lemma toLowerCase_length s : String.length (toLowerCase s) = String.length s.
Proof. induction s as [| c s IH]; cbn; congruence. Qed.

Lemma toLowerCase_slug s : forall b, slugShape b s = true -> toLowerCase s = s.
Proof.
  induction s as [| c s IH]; intros b H; [reflexivity |].
  cbn [toLowerCase]. destruct (isSlugChar c) eqn:Hc.
  - cbn [slugShape] in H. rewrite Hc in H.
    rewrite (toLowerCaseChar_slug c (or_introl Hc)), (IH false H). reflexivity.
  - destruct (slugShape_hyphen b c s H Hc) as (-> & _ & Hs).
    rewrite (IH true Hs). reflexivity.
Qed.

Lemma replaceRuns_shape s : forall b, slugShape b (replaceRuns b s) = true.
Proof.
  induction s as [| c s IH]; intros b; [reflexivity |].
  cbn [replaceRuns]. destruct (isSlugChar c) eqn:Hc.
  - cbn [slugShape]. rewrite Hc. apply IH.
  - destruct b; [apply IH |].
    cbn [slugShape]. rewrite isSlugChar_hyphen, Ascii.eqb_refl. apply IH.
Qed.

Lemma replaceRuns_length s : forall b,
  (String.length (replaceRuns b s) <= String.length s)%nat.
Proof.
  induction s as [| c s IH]; intros b; [reflexivity |].
  pose proof (IH false) as Hf. pose proof (IH true) as Ht.
  cbn [replaceRuns]. destruct (isSlugChar c); [| destruct b];
    cbn [String.length]; lia.
Qed.

Lemma replaceRuns_slug s : forall p q,
  slugShape p s = true -> (q = true -> p = true) -> replaceRuns q s = s.
Proof.
  induction s as [| c s IH]; intros p q H Hq; [reflexivity |].
  cbn [replaceRuns]. destruct (isSlugChar c) eqn:Hc.
  - cbn [slugShape] in H. rewrite Hc in H.
    rewrite (IH false false H ltac:(trivial)). reflexivity.
  - destruct (slugShape_hyphen p c s H Hc) as (-> & -> & Hs).
    destruct q; [specialize (Hq eq_refl); discriminate |].
    rewrite (IH true true Hs ltac:(trivial)). reflexivity.
Qed.

Lemma dropLeadingHyphen_shape s :
  slugShape false s = true -> slugShape true (dropLeadingHyphen s) = true.
Proof.
  destruct s as [| c s]; [reflexivity |]. intros H. cbn [dropLeadingHyphen].
  destruct (isSlugChar c) eqn:Hc.
  - destruct (Ascii.eqb_spec c hyphen) as [-> | _]; [discriminate |].
    cbn [slugShape] in *. rewrite Hc in *. exact H.
  - destruct (slugShape_hyphen false c s H Hc) as (-> & _ & Hs).
    rewrite Ascii.eqb_refl. exact Hs.
Qed.

Lemma dropLeadingHyphen_length s :
  (String.length (dropLeadingHyphen s) <= String.length s)%nat.
Proof.
  destruct s as [| c s]; [reflexivity |]. cbn [dropLeadingHyphen].
  destruct (Ascii.eqb c hyphen); cbn [String.length]; lia.
Qed.

Lemma dropLeadingHyphen_slug s :
  slugShape true s = true -> dropLeadingHyphen s = s.
Proof.
  destruct s as [| c s]; [reflexivity |]. intros H. cbn [dropLeadingHyphen].
  destruct (Ascii.eqb_spec c hyphen) as [-> | _]; [| reflexivity].
  cbn in H. discriminate.
Qed.

Lemma dropTrailingHyphen_cons c s :
  dropTrailingHyphen (String c s)
  = match s with
    | EmptyString => if Ascii.eqb c hyphen then EmptyString else String c s
    | String _ _ => String c (dropTrailingHyphen s)
    end.
Proof. destruct s; reflexivity. Qed.

Lemma dropTrailingHyphen_shape s : forall b,
  slugShape b s = true -> slugShape b (dropTrailingHyphen s) = true.
Proof.
  induction s as [| c s IH]; intros b H; [reflexivity |].
  rewrite dropTrailingHyphen_cons. destruct s as [| c' s'].
  - destruct (Ascii.eqb c hyphen); [reflexivity | exact H].
  - cbn [slugShape] in *. destruct (isSlugChar c).
    + apply IH. exact H.
    + apply andb_true_iff in H. destruct H as [H1 H2]. rewrite H1.
      apply IH. exact H2.
Qed.

Lemma dropTrailingHyphen_length s :
  (String.length (dropTrailingHyphen s) <= String.length s)%nat.
Proof.
  induction s as [| c s IH]; [reflexivity |].
  rewrite dropTrailingHyphen_cons. destruct s as [| c' s'].
  - destruct (Ascii.eqb c hyphen); cbn; lia.
  - cbn [String.length] in *. lia.
Qed.

Lemma dropTrailingHyphen_empty s :
  dropTrailingHyphen s = EmptyString ->
  s = EmptyString \/ s = String hyphen EmptyString.
Proof.
  destruct s as [| c s]; [auto |]. rewrite dropTrailingHyphen_cons.
  destruct s; [| discriminate].
  destruct (Ascii.eqb_spec c hyphen) as [-> | _]; [auto | discriminate].
Qed.

Lemma endsWithHyphen_cons c s :
  endsWithHyphen (String c s)
  = match s with
    | EmptyString => Ascii.eqb c hyphen
    | String _ _ => endsWithHyphen s
    end.
Proof. destruct s; reflexivity. Qed.

Lemma slugShape_tail b c s :
  slugShape b (String c s) = true ->
  slugShape (negb (isSlugChar c)) s = true.
Proof.
  cbn [slugShape]. destruct (isSlugChar c); [trivial |].
  intros H. apply andb_true_iff in H. exact (proj2 H).
Qed.

Lemma dropTrailingHyphen_ends s : forall b,
  slugShape b s = true -> endsWithHyphen (dropTrailingHyphen s) = false.
Proof.
  induction s as [| c s IH]; intros b H; [reflexivity |].
  rewrite dropTrailingHyphen_cons. destruct s as [| c' s'].
  - destruct (Ascii.eqb c hyphen) eqn:E; [reflexivity |]. cbn. exact E.
  - pose proof (slugShape_tail b c _ H) as Ht.
    specialize (IH _ Ht). rewrite endsWithHyphen_cons.
    destruct (dropTrailingHyphen (String c' s')) as [| x xs] eqn:Ex; [| exact IH].
    apply dropTrailingHyphen_empty in Ex. destruct Ex as [Ex | Ex]; [discriminate |].
    rewrite Ex in Ht. destruct (isSlugChar c) eqn:Hc.
    + destruct (Ascii.eqb_spec c hyphen) as [-> | _]; [discriminate | reflexivity].
    + cbn in Ht. discriminate.
Qed.

Lemma dropTrailingHyphen_slug s :
  endsWithHyphen s = false -> dropTrailingHyphen s = s.
Proof.
  induction s as [| c s IH]; [reflexivity |]. intros H.
  rewrite dropTrailingHyphen_cons. destruct s as [| c' s'].
  - cbn in H. rewrite H. reflexivity.
  - rewrite IH; [reflexivity | exact H].
Qed.

Lemma prefix_shape m : forall s b,
  slugShape b s = true -> slugShape b (substring 0 m s) = true.
Proof.
  induction m as [| m IH]; intros s b H.
  - destruct s; reflexivity.
  - destruct s as [| c s]; [reflexivity |]. cbn [substring slugShape] in *.
    destruct (isSlugChar c).
    + apply IH. exact H.
    + apply andb_true_iff in H. destruct H as [H1 H2]. rewrite H1.
      apply IH. exact H2.
Qed.

Lemma prefix_length m : forall s, (String.length (substring 0 m s) <= m)%nat.
Proof.
  induction m as [| m IH]; intros s.
  - destruct s; cbn; lia.
  - destruct s as [| c s]; cbn [substring String.length]; [lia |].
    specialize (IH s). lia.
Qed.

Lemma prefix_all m : forall s, (String.length s <= m)%nat -> substring 0 m s = s.
Proof.
  induction m as [| m IH]; intros s H.
  - destruct s; [reflexivity | cbn in H; lia].
  - destruct s as [| c s]; [reflexivity |]. cbn [substring].
    rewrite IH; [reflexivity | cbn in H; lia].
Qed.

Lemma slugShape_chars s : forall b,
  slugShape b s = true ->
  Forall (fun c => isSlugChar c = true \/ c = hyphen) (list_ascii_of_string s).
Proof.
  induction s as [| c s IH]; intros b H; cbn [list_ascii_of_string];
    constructor.
  - destruct (isSlugChar c) eqn:Hc; [auto |].
    right. exact (proj1 (slugShape_hyphen b c s H Hc)).
  - cbn [slugShape] in H. destruct (isSlugChar c); [exact (IH false H) |].
    apply andb_true_iff in H. exact (IH true (proj2 H)).
Qed.

Lemma slugShape_no_double a : forall b t,
  slugShape b (a ++ String hyphen (String hyphen t)) = false.
Proof.
  induction a as [| c a IH]; intros b t.
  - cbn. rewrite andb_false_r. reflexivity.
  - cbn [append slugShape]. destruct (isSlugChar c); [apply IH |].
    rewrite IH, andb_false_r. reflexivity.
Qed.

Lemma endsWithHyphen_append a : endsWithHyphen (a ++ String hyphen EmptyString) = true.
Proof.
  induction a as [| c a IH]; [reflexivity |].
  cbn [append]. destruct a; [exact IH | exact IH].
Qed.

Lemma slug_pipeline_length name :
  (String.length (dropTrailingHyphen
                    (dropLeadingHyphen (replaceRuns false (toLowerCase name))))
   <= String.length name)%nat.
Proof.
  etransitivity; [apply dropTrailingHyphen_length |].
  etransitivity; [apply dropLeadingHyphen_length |].
  etransitivity; [apply replaceRuns_length |].
  rewrite toLowerCase_length. reflexivity.
Qed.

(** X21.  For every name (of code units below 256) the slug has at most
    100 characters, consists of [a-z], [0-9] and hyphens only, does not
    begin with a hyphen and has no two hyphens in a row.  When the name has
    at most 100 characters the slug does not end with a hyphen either, and
    it is a fixed point: the slug of the slug is the slug. *)
Theorem generateSlug_shape name :
  let slug := generateSlug name in
  (String.length slug <= 100)%nat
  /\ Forall (fun c => isSlugChar c = true \/ c = hyphen) (list_ascii_of_string slug)
  /\ (forall rest, slug <> String hyphen rest)
  /\ (forall a rest, slug <> (a ++ String hyphen (String hyphen rest))%string)
  /\ ((String.length name <= 100)%nat ->
      (forall a, slug <> (a ++ String hyphen EmptyString)%string)
      /\ generateSlug slug = slug).
Proof.
  cbv zeta.
  set (body := dropTrailingHyphen
                 (dropLeadingHyphen (replaceRuns false (toLowerCase name)))).
  assert (Eq : generateSlug name = substring 0 100 body) by reflexivity.
  rewrite !Eq. clear Eq.
  assert (Hbody : slugShape true body = true).
  { apply dropTrailingHyphen_shape, dropLeadingHyphen_shape, replaceRuns_shape. }
  assert (Hshape : slugShape true (substring 0 100 body) = true)
    by (apply prefix_shape; exact Hbody).
  split; [apply prefix_length |].
  split; [exact (slugShape_chars _ true Hshape) |].
  split.
  { intros rest E. rewrite E in Hshape. cbn in Hshape. discriminate. }
  split.
  { intros a rest E. rewrite E, slugShape_no_double in Hshape. discriminate. }
  intros Hlen.
  assert (Hall : substring 0 100 body = body).
  { apply prefix_all. pose proof (slug_pipeline_length name). fold body in H. lia. }
  assert (Hends : endsWithHyphen body = false).
  { unfold body.
    apply (dropTrailingHyphen_ends _ true).
    apply dropLeadingHyphen_shape, replaceRuns_shape. }
  rewrite Hall in *. split.
  - intros a E. rewrite E, endsWithHyphen_append in Hends. discriminate.
  - unfold generateSlug.
    rewrite (toLowerCase_slug body true Hbody).
    rewrite (replaceRuns_slug body true false Hbody ltac:(discriminate)).
    rewrite (dropLeadingHyphen_slug body Hbody).
    rewrite (dropTrailingHyphen_slug body Hends).
    exact Hall.
Qed.

End Slugs.

(** A name of 101 characters whose hundredth is a space gets a slug that
    ends with a hyphen, and the slug of that slug is another one. *)
Example truncated_slug_ends_with_hyphen :
  let a99 := String.concat "" (repeat "a"%string 99) in
  TenantService.generateSlug (a99 ++ " b") = (a99 ++ "-")%string
  /\ TenantService.generateSlug (TenantService.generateSlug (a99 ++ " b")) = a99
  /\ TenantService.generateSlug "  Hello, World!! Photo-Studio  "
     = "hello-world-photo-studio"%string
  /\ TenantService.generateSlug "---" = ""%string.
Proof. cbv zeta. repeat split; vm_compute; reflexivity. Qed.
